(** * claude-sdk-teacher: the task-list store, the tool loops and the
      sub-agent orchestrator

    A shallow embedding of TodoManager and SubAgentOrchestrator
    ([src/todo-manager.ts]), of the todo agent ([runAgentWithTodos]) and
    of SandboxedClaudeAgent ([src/sandboxed-agent.ts]), followed by the
    properties the specification states about them.

    Conventions.
    - A JavaScript string is its sequence of UTF-16 code units.
    - A function that may throw returns a [Result]: [inl e] is "throws e".
    - Mutable objects are passed explicitly: a method of TodoManager takes
      the object and the disk and returns the new object and the new disk.
    - [console.log] and [console.error] output is not part of the model. *)

From Stdlib Require Import ZArith NArith String Ascii DecimalString.
From Stdlib Require Import Floats.SpecFloat.
From stdpp Require Import base list gmap.

Local Open Scope N_scope.

(* ===================================================================== *)
(** * JavaScript strings                                                  *)
(* ===================================================================== *)

Module JS.

(** A string value: its UTF-16 code units, in order. *)
Abbreviation jsstring := (list N).

(** Decoding of the UTF-8 bytes of a literal of this file into code
    units, so that the literals below read as they do in the source. *)
Fixpoint utf16_of_utf8 (bs : list N) : jsstring :=
  match bs with
  | [] => []
  | b :: r =>
      if b <? 0x80 then b :: utf16_of_utf8 r
      else if b <? 0xE0 then
        match r with
        | c1 :: r1 =>
            N.lor (N.shiftl (N.land b 0x1F) 6) (N.land c1 0x3F)
              :: utf16_of_utf8 r1
        | _ => []
        end
      else if b <? 0xF0 then
        match r with
        | c1 :: c2 :: r2 =>
            N.lor (N.shiftl (N.land b 0x0F) 12)
              (N.lor (N.shiftl (N.land c1 0x3F) 6) (N.land c2 0x3F))
              :: utf16_of_utf8 r2
        | _ => []
        end
      else
        match r with
        | c1 :: c2 :: c3 :: r3 =>
            let cp :=
              N.lor (N.shiftl (N.land b 0x07) 18)
                (N.lor (N.shiftl (N.land c1 0x3F) 12)
                   (N.lor (N.shiftl (N.land c2 0x3F) 6) (N.land c3 0x3F))) in
            let v := cp - 0x10000 in
            (0xD800 + N.shiftr v 10) :: (0xDC00 + N.land v 0x3FF)
              :: utf16_of_utf8 r3
        | _ => []
        end
  end.

Definition lit (s : string) : jsstring :=
  utf16_of_utf8 (List.map N_of_ascii (list_ascii_of_string s)).

(** [String(n)] and [`${n}`] for a non-negative integer. *)
Definition String_of_nat (n : nat) : jsstring :=
  lit (NilEmpty.string_of_uint (Nat.to_uint n)).

Definition String_of_Z (z : Z) : jsstring :=
  lit (NilZero.string_of_int (Z.to_int z)).

(** ECMAScript WhiteSpace and LineTerminator code points: what
    [String.prototype.trim] strips. *)
Definition isWhiteSpace (c : N) : bool :=
  (c =? 0x09) || (c =? 0x0A) || (c =? 0x0B) || (c =? 0x0C) || (c =? 0x0D)
  || (c =? 0x20) || (c =? 0xA0) || (c =? 0x1680)
  || ((0x2000 <=? c) && (c <=? 0x200A))
  || (c =? 0x2028) || (c =? 0x2029) || (c =? 0x202F) || (c =? 0x205F)
  || (c =? 0x3000) || (c =? 0xFEFF).

Fixpoint trimStart (s : jsstring) : jsstring :=
  match s with
  | c :: r => if isWhiteSpace c then trimStart r else s
  | [] => []
  end.

Definition trimEnd (s : jsstring) : jsstring := rev (trimStart (rev s)).

Definition trim (s : jsstring) : jsstring := trimEnd (trimStart s).

(** A line feed, as a one-character string. *)
Definition LF : jsstring := [0x0A].

(** The one-character string holding U+0022, and a string between two
    of them. *)
Definition quotationMark : jsstring := [0x22].

Definition quoted (s : jsstring) : jsstring :=
  quotationMark ++ s ++ quotationMark.

(** [!s] for a string [s]: only the empty string is falsy. *)
Definition falsy (s : jsstring) : bool :=
  match s with [] => true | _ => false end.

(** [a === b] on strings. *)
Definition str_eqb (a b : jsstring) : bool := bool_decide (a = b).

(** [arr.includes(x)] on an array of strings. *)
Definition includes (arr : list jsstring) (x : jsstring) : bool :=
  existsb (str_eqb x) arr.

(** What a [throw] carries: an [Error] object (of some class [name]) or
    any other value, kept as its [String(value)]. *)
Inductive Thrown : Type :=
| ErrorObject (name message : jsstring)
| OtherValue (asString : jsstring).

(** [error instanceof Error ? error.message : String(error)] *)
Definition errorMessage (e : Thrown) : jsstring :=
  match e with
  | ErrorObject _ message => message
  | OtherValue s => s
  end.

(** Results of code that may throw. *)
Definition Result (E A : Type) : Type := E + A.
Definition ok {E A} (a : A) : Result E A := inr a.
Definition throw {E A} (e : E) : Result E A := inl e.
Definition bind {E A B} (r : Result E A) (k : A -> Result E B) : Result E B :=
  match r with
  | inl e => inl e
  | inr a => k a
  end.

(** [arr.forEach((x, index) => body)] where the body may throw: the
    elements are visited in index order and the first throw ends it. *)
Fixpoint forEach_from {E A} (body : A -> nat -> Result E unit)
    (index : nat) (arr : list A) : Result E unit :=
  match arr with
  | [] => ok tt
  | x :: rest => bind (body x index) (fun _ => forEach_from body (S index) rest)
  end.

Definition forEach {E A} (body : A -> nat -> Result E unit) (arr : list A)
  : Result E unit :=
  forEach_from body 0%nat arr.

(** ** Substrings

    [s.startsWith(p)], [s.includes(sub)] and [s.split(sep)] for a
    non-empty separator. In [split_from], [skip] counts the code units
    of a separator just matched that are still to be passed over, and
    [piece] is the current piece, reversed. *)
Fixpoint startsWith (p s : jsstring) : bool :=
  match p, s with
  | [], _ => true
  | a :: p', b :: s' => (a =? b) && startsWith p' s'
  | _ :: _, [] => false
  end.

Fixpoint str_includes (sub s : jsstring) : bool :=
  startsWith sub s || match s with [] => false | _ :: s' => str_includes sub s' end.

Fixpoint split_from (sep : jsstring) (skip : nat) (piece : jsstring) (s : jsstring)
  : list jsstring :=
  match s with
  | [] => [rev piece]
  | c :: s' =>
      match skip with
      | S skip' => split_from sep skip' piece s'
      | O =>
          if startsWith sep s
          then rev piece :: split_from sep (length sep - 1) [] s'
          else split_from sep 0 (c :: piece) s'
      end
  end.

Definition split (sep s : jsstring) : list jsstring := split_from sep 0 [] s.

(** [arr[i]] on an array of strings that has an element at [i]. *)
Definition at_index (arr : list jsstring) (i : nat) : jsstring := nth i arr [].

(** ** Map objects keyed by strings

    A [Map] keeps its keys in insertion order; [set] on a key that is
    present replaces the value where it stands. *)
Section JsMap.
Context {V : Type}.

Fixpoint Map_get (key : jsstring) (m : list (jsstring * V)) : option V :=
  match m with
  | [] => None
  | (k, v) :: rest => if str_eqb k key then Some v else Map_get key rest
  end.

Fixpoint Map_set (key : jsstring) (v : V) (m : list (jsstring * V))
  : list (jsstring * V) :=
  match m with
  | [] => [(key, v)]
  | (k, v0) :: rest =>
      if str_eqb k key then (k, v) :: rest else (k, v0) :: Map_set key v rest
  end.

Definition Map_keys (m : list (jsstring * V)) : list jsstring := m.*1.
End JsMap.

(** ** Promise.all

    The record of one [Promise.all(promises)] call: [values] is the
    array it fills, one slot per input promise, [remainingElementsCount]
    the promises not yet fulfilled, and [settled] the state of the
    promise it returned ([None]: still pending). *)
Section PromiseAll.
Context {A : Type}.

Record AllRecord : Type := {
  values : list (option A);
  remainingElementsCount : nat;
  settled : option (Result Thrown (list A));
}.

(** The values of the slots, in index order, once all are filled. *)
Definition valuesList (values : list (option A)) : list A :=
  omap id values.

Definition Promise_all_start (n : nat) : AllRecord :=
  {| values := replicate n None;
     remainingElementsCount := n;
     settled := if (n =? 0)%nat then Some (ok []) else None |}.

(** The resolve-element function of the promise at [index], called
    with its value [x]: the value is stored at [index], and the last
    one to arrive fulfils the returned promise with the array. *)
Definition resolveElement (index : nat) (x : A) (r : AllRecord) : AllRecord :=
  let values' := <[index := Some x]> (values r) in
  let remaining' := pred (remainingElementsCount r) in
  {| values := values';
     remainingElementsCount := remaining';
     settled :=
       match settled r with
       | Some s => Some s
       | None => if (remaining' =? 0)%nat then Some (ok (valuesList values')) else None
       end |}.

(** A rejected input promise rejects the returned promise, unless it
    is settled already. *)
Definition rejectElement (reason : Thrown) (r : AllRecord) : AllRecord :=
  {| values := values r;
     remainingElementsCount := remainingElementsCount r;
     settled := match settled r with
                | Some s => Some s
                | None => Some (throw reason)
                end |}.
End PromiseAll.

Arguments AllRecord : clear implicits.

(** ** JSON text

    [QuoteJSONString]: the escapes of [JSON.stringify] for a string
    value. A surrogate pair is copied; a lone surrogate is escaped. *)
Definition hexDigit (d : N) : N := if d <? 10 then 48 + d else 87 + d.

Definition unicodeEscape (c : N) : jsstring :=
  [0x5C; 0x75; hexDigit (N.land (N.shiftr c 12) 15);
   hexDigit (N.land (N.shiftr c 8) 15); hexDigit (N.land (N.shiftr c 4) 15);
   hexDigit (N.land c 15)].

Definition isLeadingSurrogate (c : N) : bool := (0xD800 <=? c) && (c <=? 0xDBFF).
Definition isTrailingSurrogate (c : N) : bool := (0xDC00 <=? c) && (c <=? 0xDFFF).

Fixpoint quoteJSONChars (s : jsstring) : jsstring :=
  match s with
  | [] => []
  | c :: r =>
      if c =? 0x08 then [0x5C; 0x62] ++ quoteJSONChars r
      else if c =? 0x09 then [0x5C; 0x74] ++ quoteJSONChars r
      else if c =? 0x0A then [0x5C; 0x6E] ++ quoteJSONChars r
      else if c =? 0x0C then [0x5C; 0x66] ++ quoteJSONChars r
      else if c =? 0x0D then [0x5C; 0x72] ++ quoteJSONChars r
      else if c =? 0x22 then [0x5C; 0x22] ++ quoteJSONChars r
      else if c =? 0x5C then [0x5C; 0x5C] ++ quoteJSONChars r
      else if c <? 0x20 then unicodeEscape c ++ quoteJSONChars r
      else if isLeadingSurrogate c then
        match r with
        | d :: r' =>
            if isTrailingSurrogate d then c :: d :: quoteJSONChars r'
            else unicodeEscape c ++ quoteJSONChars r
        | [] => unicodeEscape c
        end
      else if isTrailingSurrogate c then unicodeEscape c ++ quoteJSONChars r
      else c :: quoteJSONChars r
  end.

Definition QuoteJSONString (s : jsstring) : jsstring :=
  quoted (quoteJSONChars s).

(** [parts.join(sep)] *)
Fixpoint join (sep : jsstring) (parts : list jsstring) : jsstring :=
  match parts with
  | [] => []
  | [x] => x
  | x :: rest => x ++ sep ++ join sep rest
  end.

(** ** Numbers

    A [number] is an IEEE 754 binary64 value; the arithmetic is the
    Standard Library's executable specification of it. Array lengths
    and indices are kept as [nat] and enter the arithmetic through
    [Number]. *)
Definition prec : Z := 53.
Definition emax : Z := 1024.

Definition Number (z : Z) : spec_float :=
  binary_normalize prec emax z 0 false.

Definition Number_div : spec_float -> spec_float -> spec_float :=
  SFdiv prec emax.

Definition Number_mul : spec_float -> spec_float -> spec_float :=
  SFmul prec emax.

(** [Math.round(x)] on a finite [x]: the integer nearest to [x], a tie
    going towards plus infinity, that is the floor of [x + 1/2] taken
    exactly. The result is an integer and is returned as such. (On NaN
    and the infinities [Math.round] returns its argument; these have no
    integer value and are mapped to 0 here.) *)
Definition Math_round (x : spec_float) : Z :=
  match x with
  | S754_finite s m e =>
      let n := if s then Z.neg m else Z.pos m in
      if (0 <=? e)%Z then (n * 2 ^ e)%Z
      else ((2 * n + 2 ^ (- e)) / 2 ^ (1 - e))%Z
  | _ => 0%Z
  end.

End JS.

Import JS.

Notation "x <- r ;; k" := (bind r (fun x => k))
  (at level 100, r at next level, right associativity).
Notation "r ;;; k" := (bind r (fun _ => k))
  (at level 100, right associativity).

(* ===================================================================== *)
(** * TodoManager                                                         *)
(* ===================================================================== *)

Module TodoStore.

(** [interface Todo]. The declared type of [status] is a union of three
    literals, but the objects arrive from JSON through a cast, and
    [validate] itself tests for other values: [status] is any string. *)
Record Todo : Type := {
  content : jsstring;
  status : jsstring;
  activeForm : jsstring;
}.

(** [interface TodoList] *)
Record TodoList : Type := { todos : list Todo }.

#[global] Instance Todo_eq_dec : EqDecision Todo.
Proof. solve_decision. Defined.

(** The throw sites of [validate], in the order they occur in its text.
    [index] is the zero-based [forEach] index. *)
Inductive TodoValidationError : Type :=
| EmptyList
| MultipleInProgress (inProgressCount : nat)
| ContentEmpty (index : nat)
| ActiveFormEmpty (index : nat)
| InvalidStatus (index : nat) (status : jsstring).

(** The message each throw site passes to [new TodoValidationError]. *)
Definition message (e : TodoValidationError) : jsstring :=
  match e with
  | EmptyList => lit "タスクリストが空です"
  | MultipleInProgress inProgressCount =>
      lit "in_progressタスクは1つのみ許可されています（現在: "
        ++ String_of_nat inProgressCount ++ lit "個）"
  | ContentEmpty index =>
      lit "タスク" ++ String_of_nat (index + 1) ++ lit ": contentが空です"
  | ActiveFormEmpty index =>
      lit "タスク" ++ String_of_nat (index + 1) ++ lit ": activeFormが空です"
  | InvalidStatus index status =>
      lit "タスク" ++ String_of_nat (index + 1) ++ lit ": 無効なstatus "
        ++ quoted status
  end.

Definition toThrown (e : TodoValidationError) : Thrown :=
  ErrorObject (lit "TodoValidationError") (message e).

(** A file of the disk, as [load] sees it: reading and parsing it either
    throws or yields a document, taken at the type of the cast
    [JSON.parse(data) as TodoList]. *)
Inductive FileData : Type :=
| Unparsable
| Document (parsed : TodoList).

(** The disk: the files that exist; the paths on which
    [fs.writeFileSync] throws; and, among these, the paths on which it
    throws after it has opened the file (a full or failing device),
    the others being those on which the open itself fails (a
    directory, a missing folder, no permission). *)
Record Disk : Type := {
  files : gmap jsstring FileData;
  writeFails : gset jsstring;
  writeTruncates : gset jsstring;
}.

(** [class TodoManager]: its two private fields. *)
Record TodoManager : Type := {
  this_todos : list Todo;
  this_todoFile : jsstring;
}.

(** [private load(): void] *)
Definition load (this : TodoManager) (disk : Disk) : TodoManager :=
  match files disk !! this_todoFile this with
  | Some (Document parsed) =>
      {| this_todos := todos parsed; this_todoFile := this_todoFile this |}
  | Some Unparsable =>
      {| this_todos := []; this_todoFile := this_todoFile this |}
  | None => this
  end.

(** [constructor(todoFile: string = '.todos.json')] *)
Definition constructor (todoFile : option jsstring) (disk : Disk) : TodoManager :=
  load {| this_todos := [];
          this_todoFile := default (lit ".todos.json") todoFile |} disk.

(** [private save(): void]: a failed write is caught and logged. A
    write that fails at the open leaves the disk as it was. The open,
    with flag 'w', creates the file or truncates it: a write that fails
    after it leaves a file with the beginning of the text, or with
    nothing. The text is that of an object, closed by its last
    character, so what is left cannot be parsed. *)
Definition save (this : TodoManager) (disk : Disk) : Disk :=
  if bool_decide (this_todoFile this ∈ writeFails disk) then
    if bool_decide (this_todoFile this ∈ writeTruncates disk) then
      {| files := <[this_todoFile this := Unparsable]> (files disk);
         writeFails := writeFails disk;
         writeTruncates := writeTruncates disk |}
    else disk
  else {| files := <[this_todoFile this := Document {| todos := this_todos this |}]>
                     (files disk);
          writeFails := writeFails disk;
          writeTruncates := writeTruncates disk |}.

(** [todos.filter(t => t.status === 'in_progress').length] *)
Definition inProgressCount (todos : list Todo) : nat :=
  length (filter (fun t => status t = lit "in_progress") todos).

(** The callback of the [forEach] in [validate]. *)
Definition validateTodo (todo : Todo) (index : nat)
  : Result TodoValidationError unit :=
  if falsy (content todo) || str_eqb (trim (content todo)) []
  then throw (ContentEmpty index)
  else if falsy (activeForm todo) || str_eqb (trim (activeForm todo)) []
  then throw (ActiveFormEmpty index)
  else if negb (includes [lit "pending"; lit "in_progress"; lit "completed"]
                  (status todo))
  then throw (InvalidStatus index (status todo))
  else ok tt.

(** The three conditions of the callback, each on its own. *)
Definition emptyContent (todo : Todo) : bool :=
  falsy (content todo) || str_eqb (trim (content todo)) [].

Definition emptyActiveForm (todo : Todo) : bool :=
  falsy (activeForm todo) || str_eqb (trim (activeForm todo)) [].

Definition invalidStatus (todo : Todo) : bool :=
  negb (includes [lit "pending"; lit "in_progress"; lit "completed"] (status todo)).

(** [private validate(todos: Todo[]): void] *)
Definition validate (todos : list Todo) : Result TodoValidationError unit :=
  if (length todos =? 0)%nat then throw EmptyList
  else
    let inProgressCount := inProgressCount todos in
    if (1 <? inProgressCount)%nat then throw (MultipleInProgress inProgressCount)
    else forEach validateTodo todos.

(** [update(todos: Todo[]): void]. The final [this.display()] only
    prints. *)
Definition update (todos : list Todo) (this : TodoManager) (disk : Disk)
  : Result TodoValidationError unit * TodoManager * Disk :=
  match validate todos with
  | inl e => (throw e, this, disk)
  | inr _ =>
      let this' := {| this_todos := todos; this_todoFile := this_todoFile this |} in
      (ok tt, this', save this' disk)
  end.

(** [getAll(): Todo[]], a copy of the array. *)
Definition getAll (this : TodoManager) : list Todo := this_todos this.

(** [getByStatus(status: TodoStatus): Todo[]] *)
Definition getByStatus (st : jsstring) (this : TodoManager) : list Todo :=
  filter (fun t => status t = st) (this_todos this).

(** [getInProgress(): Todo | null] *)
Definition getInProgress (this : TodoManager) : option Todo :=
  List.find (fun t => str_eqb (status t) (lit "in_progress")) (this_todos this).

(** The object [getStats] returns. *)
Record Stats : Type := {
  total : nat;
  pending : nat;
  inProgress : nat;
  completed : nat;
  progress : Z;
}.

(** [getStats()] *)
Definition getStats (this : TodoManager) : Stats :=
  let total := length (this_todos this) in
  let pending := length (getByStatus (lit "pending") this) in
  let inProgress := length (getByStatus (lit "in_progress") this) in
  let completed := length (getByStatus (lit "completed") this) in
  let progress :=
    if (0 <? total)%nat
    then Math_round
           (Number_mul
              (Number_div (Number (Z.of_nat completed)) (Number (Z.of_nat total)))
              (Number 100))
    else 0%Z in
  {| total := total; pending := pending; inProgress := inProgress;
     completed := completed; progress := progress |}.

(** The percentage as the specification words it: 100 * completed /
    total rounded to the nearest integer (a tie going up), and 0 when
    total is 0. *)
Definition roundedPercent (completed total : nat) : Z :=
  if (0 <? total)%nat
  then ((2 * (100 * Z.of_nat completed) + Z.of_nat total) / (2 * Z.of_nat total))%Z
  else 0%Z.

(** The expression [Math.round((completed / total) * 100)] of [getStats]
    and its agreement with [roundedPercent] for every list of at most
    [bound] tasks, as a computation. *)
Definition roundedProduct (completed total : nat) : Z :=
  Math_round
    (Number_mul
       (Number_div (Number (Z.of_nat completed)) (Number (Z.of_nat total)))
       (Number 100)).

Definition roundedProductExact (bound : nat) : bool :=
  forallb
    (fun total =>
       forallb
         (fun completed =>
            (roundedProduct completed total =? roundedPercent completed total)%Z)
         (seq 0 (S total)))
    (seq 1 bound).

(** [clear(): void] *)
Definition clear (this : TodoManager) (disk : Disk) : TodoManager * Disk :=
  let this' := {| this_todos := []; this_todoFile := this_todoFile this |} in
  (this', save this' disk).

End TodoStore.

(* ===================================================================== *)
(** * The messages API, as the agents use it                              *)
(* ===================================================================== *)

Module Anthropic.

Inductive Role : Type := user | assistant.

(** [Anthropic.Tool]. The [input_schema] is data for the remote model
    only; no code of the repository reads it, and it is left out. *)
Record Tool : Type := {
  tool_name : jsstring;
  tool_description : jsstring;
}.

Section Blocks.

(** The type a loop casts [toolUse.input] to. *)
Context {Input : Type}.

(** Content blocks: the tagged union discriminated by [block.type]. *)
Inductive ContentBlock : Type :=
| TextBlock (text : jsstring)
| ToolUseBlock (id name : jsstring) (input : Input)
| ToolResultBlock (tool_use_id content : jsstring) (is_error : option bool).

(** [block.type === 'tool_use'] and [block.type === 'text'] *)
Definition is_tool_use (block : ContentBlock) : bool :=
  match block with ToolUseBlock _ _ _ => true | _ => false end.

Definition is_text (block : ContentBlock) : bool :=
  match block with TextBlock _ => true | _ => false end.

(** The ids the tool-result blocks of a list answer, in order. *)
Definition toolResultIds (blocks : list ContentBlock) : list jsstring :=
  omap (fun block =>
          match block with
          | ToolResultBlock tool_use_id _ _ => Some tool_use_id
          | _ => None
          end) blocks.

(** The [content] of a message parameter: a string or an array of
    blocks. *)
Inductive MessageContent : Type :=
| Text (s : jsstring)
| Blocks (blocks : list ContentBlock).

(** [Anthropic.MessageParam] *)
Record MessageParam : Type := {
  role : Role;
  content : MessageContent;
}.

(** The response of [messages.create]; [stop_reason] is a string
    ('end_turn', 'max_tokens', 'stop_sequence', 'tool_use') or null. *)
Record Message : Type := {
  response_content : list ContentBlock;
  stop_reason : option jsstring;
}.

(** [response.stop_reason === 'tool_use'] *)
Definition stops_for_tool_use (response : Message) : bool :=
  bool_decide (stop_reason response = Some (lit "tool_use")).

(** The argument of [messages.create]. *)
Record MessageCreateParams : Type := {
  model : jsstring;
  max_tokens : nat;
  system : option jsstring;
  tools : list Tool;
  messages : list MessageParam;
}.

(** [response.content.find(block => block.type === 'text')?.text] *)
Definition findText (blocks : list ContentBlock) : option jsstring :=
  match List.find is_text blocks with
  | Some (TextBlock text) => Some text
  | _ => None
  end.

(** [x || fallback] for an optional string [x]: [undefined] and the
    empty string both give the fallback. *)
Definition orElse (x : option jsstring) (fallback : jsstring) : jsstring :=
  match x with
  | Some (c :: r) => c :: r
  | _ => fallback
  end.

End Blocks.

Arguments ContentBlock : clear implicits.
Arguments MessageContent : clear implicits.
Arguments MessageParam : clear implicits.
Arguments Message : clear implicits.
Arguments MessageCreateParams : clear implicits.

(** The client object. The remote model and the network are outside the
    program: [Server] is their state as this process can observe it, and
    a call either throws or returns a message. *)
Class Client (Input : Type) : Type := {
  Server : Type;
  messages_create :
    MessageCreateParams Input -> Server -> Result Thrown (Message Input) * Server;
}.

(** A client for worked examples: the remote side plays a fixed list
    of replies, one per call, and keeps the requests it received. *)
Section Scripted.
Context {Input : Type}.

Record Script : Type := {
  replies : list (Result Thrown (Message Input));
  received : list (MessageCreateParams Input);
}.

Definition scripted_create (params : MessageCreateParams Input) (s : Script)
  : Result Thrown (Message Input) * Script :=
  match replies s with
  | [] =>
      (throw (ErrorObject (lit "APIConnectionError") (lit "Connection error.")),
       {| replies := []; received := received s ++ [params] |})
  | reply :: rest =>
      (reply, {| replies := rest; received := received s ++ [params] |})
  end.

Definition scripted : Client Input :=
  {| Server := Script; messages_create := scripted_create |}.
End Scripted.

Arguments Script : clear implicits.
Arguments scripted : clear implicits.

End Anthropic.

(* ===================================================================== *)
(** * The todo agent: [executeTodoWrite] and [runAgentWithTodos]          *)
(* ===================================================================== *)

Module TodoAgent.

Import TodoStore.

Abbreviation Block := (Anthropic.ContentBlock TodoList).
Abbreviation Param := (Anthropic.MessageParam TodoList).
Abbreviation Response := (Anthropic.Message TodoList).

(** [export const todoWriteTool: Anthropic.Tool] *)
Definition todoWriteTool : Anthropic.Tool := {|
  Anthropic.tool_name := lit "todo_write";
  Anthropic.tool_description := lit "タスクリストを作成または更新します。

使用タイミング:
- 複雑なタスクを複数のステップに分解する時
- 作業の進捗状況を追跡する時
- タスクの状態を更新する時（pending → in_progress → completed）

重要なルール:
- 常に1つのタスクのみを" ++ quoted (lit "in_progress") ++ lit "状態にする
- タスクを完了したらすぐに" ++ quoted (lit "completed") ++ lit "にする
- 新しいタスクを始める前に、現在のタスクを完了させる
- contentは命令形、activeFormは進行形で記述する";
|}.

(** [export function executeTodoWrite(input: TodoList, manager: TodoManager): string] *)
Definition executeTodoWrite (input : TodoList) (manager : TodoManager) (disk : Disk)
  : jsstring * TodoManager * Disk :=
  match update (todos input) manager disk with
  | (inr _, manager', disk') =>
      let stats := getStats manager' in
      (lit "✅ タスクリストを更新しました。進捗: "
         ++ String_of_nat (completed stats) ++ lit "/" ++ String_of_nat (total stats)
         ++ lit " (" ++ String_of_Z (progress stats) ++ lit "%)",
       manager', disk')
  | (inl error, manager', disk') =>
      (lit "❌ エラー: "
         ++ match toThrown error with
            | ErrorObject _ message => message
            | OtherValue _ => lit "不明なエラー"
            end,
       manager', disk')
  end.

(** The [for (const toolUse of toolUses)] loop of [runAgentWithTodos]:
    [toolResults.push] appends at the end. *)
Fixpoint forToolUses (toolUses : list Block) (toolResults : list Block)
    (manager : TodoManager) (disk : Disk) : list Block * TodoManager * Disk :=
  match toolUses with
  | [] => (toolResults, manager, disk)
  | Anthropic.ToolUseBlock id name input :: rest =>
      if str_eqb name (lit "todo_write") then
        let '(result, manager', disk') := executeTodoWrite input manager disk in
        forToolUses rest
          (toolResults ++ [Anthropic.ToolResultBlock id result None])
          manager' disk'
      else forToolUses rest toolResults manager disk
  | _ :: rest => forToolUses rest toolResults manager disk
  end.

(** The invocations of todo_write among the blocks of a response, in
    the order received: the id and the input of each. *)
Definition todoWriteCalls (blocks : list Block) : list (jsstring * TodoList) :=
  omap (fun block =>
          match block with
          | Anthropic.ToolUseBlock id name input =>
              if str_eqb name (lit "todo_write") then Some (id, input) else None
          | _ => None
          end) blocks.

(** Each call answered in turn, on the store as the calls before it left
    it: one tool-result block per call, in the order of the calls. *)
Fixpoint answerInOrder (calls : list (jsstring * TodoList))
    (manager : TodoManager) (disk : Disk) : list Block * TodoManager * Disk :=
  match calls with
  | [] => ([], manager, disk)
  | (id, input) :: rest =>
      let '(result, manager1, disk1) := executeTodoWrite input manager disk in
      let '(results, manager2, disk2) := answerInOrder rest manager1 disk1 in
      (Anthropic.ToolResultBlock id result None :: results, manager2, disk2)
  end.

Section Run.

Context `{client : Anthropic.Client TodoList}.

(** The local variables of [runAgentWithTodos], with the disk and the
    remote side. *)
Record Frame : Type := {
  response : Response;
  iterations : nat;
  messages : list Param;
  manager : TodoManager;
  disk : Disk;
  server : Anthropic.Server;
}.

Definition systemPrompt : jsstring := lit "あなたは有能なアシスタントです。
複雑なタスクを受け取ったら、必ずtodo_writeツールを使用して：
1. タスクを小さなステップに分解する
2. 各ステップの進捗を追跡する
3. 完了したらすぐにステータスを更新する

ルール:
- 1つのタスクのみを" ++ quoted (lit "in_progress") ++ lit "にする
- タスクを完了したらすぐに" ++ quoted (lit "completed") ++ lit "にする
- 新しいタスクを始める前に現在のタスクを完了させる".

(** The argument of both [client.messages.create] calls. *)
Definition createParams (messages : list Param)
  : Anthropic.MessageCreateParams TodoList := {|
  Anthropic.model := lit "claude-3-5-sonnet-20241022";
  Anthropic.max_tokens := 4096;
  Anthropic.system := Some systemPrompt;
  Anthropic.tools := [todoWriteTool];
  Anthropic.messages := messages;
|}.

Definition maxIterations : nat := 30.

(** The body of the [while] loop up to, and not including, the next
    [client.messages.create]: the assistant turn is pushed, the tools
    run, the user turn with the tool results is pushed. *)
Definition executeToolUses (f : Frame) : Frame :=
  let toolUses := List.filter Anthropic.is_tool_use
                    (Anthropic.response_content (response f)) in
  let messages1 :=
    messages f ++ [{| Anthropic.role := Anthropic.assistant;
                      Anthropic.content :=
                        Anthropic.Blocks (Anthropic.response_content (response f)) |}] in
  let '(toolResults, manager', disk') :=
    forToolUses toolUses [] (manager f) (disk f) in
  let messages2 :=
    messages1 ++ [{| Anthropic.role := Anthropic.user;
                     Anthropic.content := Anthropic.Blocks toolResults |}] in
  {| response := response f; iterations := S (iterations f);
     messages := messages2; manager := manager'; disk := disk';
     server := server f |}.

(** One whole iteration: the body above, then the next request. A
    throwing request leaves the function. *)
Definition iteration (f : Frame) : Result Thrown Frame :=
  let f1 := executeToolUses f in
  match Anthropic.messages_create (createParams (messages f1)) (server f1) with
  | (inl error, _) => throw error
  | (inr response', server') =>
      ok {| response := response'; iterations := iterations f1;
            messages := messages f1; manager := manager f1; disk := disk f1;
            server := server' |}
  end.

(** [while (response.stop_reason === 'tool_use' && iterations < maxIterations)]:
    [remaining] is [maxIterations - iterations]. *)
Fixpoint whileToolUse (remaining : nat) (f : Frame) : Result Thrown Frame :=
  match remaining with
  | O => ok f
  | S remaining' =>
      if Anthropic.stops_for_tool_use (response f)
      then f' <- iteration f ;; whileToolUse remaining' f'
      else ok f
  end.

(** [runAgentWithTodos], up to the end of its loop. *)
Definition runLoop (userRequest : jsstring) (disk0 : Disk)
    (server0 : Anthropic.Server) : Result Thrown Frame :=
  let manager := constructor None disk0 in
  let messages := [{| Anthropic.role := Anthropic.user;
                      Anthropic.content := Anthropic.Text userRequest |}] in
  match Anthropic.messages_create (createParams messages) server0 with
  | (inl error, _) => throw error
  | (inr response0, server1) =>
      whileToolUse maxIterations
        {| response := response0; iterations := 0; messages := messages;
           manager := manager; disk := disk0; server := server1 |}
  end.

(** [export async function runAgentWithTodos(userRequest: string)]:
    what follows the loop only prints, and the manager is returned. *)
Definition runAgentWithTodos (userRequest : jsstring) (disk0 : Disk)
    (server0 : Anthropic.Server) : Result Thrown TodoManager :=
  f <- runLoop userRequest disk0 server0 ;; ok (manager f).

End Run.

End TodoAgent.

(* ===================================================================== *)
(** * SandboxedClaudeAgent                                                *)
(* ===================================================================== *)

Module Sandbox.

(** [toolUse.input], of type [any]: the two properties [executeTool]
    reads, each possibly [undefined]. *)
Record ToolInput : Type := {
  path : option jsstring;
  content : option jsstring;
}.

(** The objects the tools return: [success] and at most one of
    [content], [files] and [error]. *)
Record ToolResult : Type := {
  success : bool;
  result_content : option jsstring;
  files : option (list jsstring);
  error : option jsstring;
}.

(** [JSON.stringify(toolResult)]: the properties that are present, in
    the order of the object literal ([success] first). *)
Definition JSON_stringify (r : ToolResult) : jsstring :=
  let property (key : jsstring) (value : option jsstring) : jsstring :=
    match value with
    | Some v => lit "," ++ quoted key ++ lit ":" ++ v
    | None => []
    end in
  lit "{" ++ quoted (lit "success") ++ lit ":"
    ++ (if success r then lit "true" else lit "false")
    ++ property (lit "content") (QuoteJSONString <$> result_content r)
    ++ property (lit "files")
         ((fun fs => lit "[" ++ join (lit ",") (QuoteJSONString <$> fs) ++ lit "]")
            <$> files r)
    ++ property (lit "error") (QuoteJSONString <$> error r)
    ++ lit "}".

(** [class SandboxedFileSystem], as an interface. Its four public
    methods wrap node's [fs] and [path]; each body is one [try] whose
    [catch] returns an object, so a call returns a result object and
    the directory tree after it. *)
Class SandboxedFileSystem : Type := {
  Tree : Type;
  readFile : option jsstring -> Tree -> ToolResult * Tree;
  writeFile : option jsstring -> option jsstring -> Tree -> ToolResult * Tree;
  listFiles : jsstring -> Tree -> ToolResult * Tree;
  deleteFile : option jsstring -> Tree -> ToolResult * Tree;
}.

Abbreviation Block := (Anthropic.ContentBlock ToolInput).
Abbreviation Param := (Anthropic.MessageParam ToolInput).
Abbreviation Response := (Anthropic.Message ToolInput).

(** [this.tools], set by the constructor. *)
Definition tools : list Anthropic.Tool := [
  {| Anthropic.tool_name := lit "read_file";
     Anthropic.tool_description :=
       lit "指定されたファイルの内容を読み込みます。作業ディレクトリ内のファイルのみアクセス可能です。" |};
  {| Anthropic.tool_name := lit "write_file";
     Anthropic.tool_description :=
       lit "ファイルに内容を書き込みます。作業ディレクトリ内のファイルのみ作成可能です。" |};
  {| Anthropic.tool_name := lit "list_files";
     Anthropic.tool_description :=
       lit "ディレクトリ内のファイルとフォルダの一覧を取得します。" |};
  {| Anthropic.tool_name := lit "delete_file";
     Anthropic.tool_description :=
       lit "ファイルを削除します。作業ディレクトリ内のファイルのみ削除可能です。" |}
].

Section Agent.

Context `{fileSystem : SandboxedFileSystem}.
Context `{client : Anthropic.Client ToolInput}.

(** [private executeTool(toolName: string, input: any): any] *)
Definition executeTool (toolName : jsstring) (input : ToolInput) (tree : Tree)
  : ToolResult * Tree :=
  if str_eqb toolName (lit "read_file") then readFile (path input) tree
  else if str_eqb toolName (lit "write_file")
  then writeFile (path input) (content input) tree
  else if str_eqb toolName (lit "list_files")
  then listFiles (Anthropic.orElse (path input) (lit ".")) tree
  else if str_eqb toolName (lit "delete_file") then deleteFile (path input) tree
  else ({| success := false; result_content := None; files := None;
           error := Some (lit "未知のツール: " ++ toolName) |}, tree).

(** The local variables of [run], with the directory tree and the
    remote side. *)
Record Frame : Type := {
  response : Response;
  iterationCount : nat;
  messages : list Param;
  tree : Tree;
  server : Anthropic.Server;
}.

Definition createParams (messages : list Param)
  : Anthropic.MessageCreateParams ToolInput := {|
  Anthropic.model := lit "claude-3-5-sonnet-20241022";
  Anthropic.max_tokens := 4096;
  Anthropic.system := None;
  Anthropic.tools := tools;
  Anthropic.messages := messages;
|}.

Definition maxIterations : nat := 10.

(** The body of the [while] loop up to, and not including, the next
    [messages.create]. [None] is the [break] taken when the response
    has no tool-use block. *)
Definition executeFirstToolUse (f : Frame) : option Frame :=
  match List.find Anthropic.is_tool_use (Anthropic.response_content (response f)) with
  | Some (Anthropic.ToolUseBlock id name input) =>
      let '(toolResult, tree') := executeTool name input (tree f) in
      let messages1 :=
        messages f ++ [{| Anthropic.role := Anthropic.assistant;
                          Anthropic.content :=
                            Anthropic.Blocks (Anthropic.response_content (response f)) |}] in
      let messages2 :=
        messages1 ++ [{| Anthropic.role := Anthropic.user;
                         Anthropic.content :=
                           Anthropic.Blocks
                             [Anthropic.ToolResultBlock id (JSON_stringify toolResult) None] |}] in
      Some {| response := response f; iterationCount := S (iterationCount f);
              messages := messages2; tree := tree'; server := server f |}
  | _ => None
  end.

(** How one iteration ends. *)
Inductive Step : Type :=
| Break (f : Frame)
| Continue (f : Frame).

Definition iteration (f : Frame) : Result Thrown Step :=
  match executeFirstToolUse f with
  | None =>
      ok (Break {| response := response f; iterationCount := S (iterationCount f);
                   messages := messages f; tree := tree f; server := server f |})
  | Some f1 =>
      match Anthropic.messages_create (createParams (messages f1)) (server f1) with
      | (inl error, _) => throw error
      | (inr response', server') =>
          ok (Continue {| response := response'; iterationCount := iterationCount f1;
                          messages := messages f1; tree := tree f1; server := server' |})
      end
  end.

(** [while (response.stop_reason === 'tool_use' && iterationCount < maxIterations)] *)
Fixpoint whileToolUse (remaining : nat) (f : Frame) : Result Thrown Frame :=
  match remaining with
  | O => ok f
  | S remaining' =>
      if Anthropic.stops_for_tool_use (response f)
      then step <- iteration f ;;
           match step with
           | Break f' => ok f'
           | Continue f' => whileToolUse remaining' f'
           end
      else ok f
  end.

(** [run], up to the end of its loop. *)
Definition runLoop (userMessage : jsstring) (tree0 : Tree)
    (server0 : Anthropic.Server) : Result Thrown Frame :=
  let messages := [{| Anthropic.role := Anthropic.user;
                      Anthropic.content := Anthropic.Text userMessage |}] in
  match Anthropic.messages_create (createParams messages) server0 with
  | (inl error, _) => throw error
  | (inr response0, server1) =>
      whileToolUse maxIterations
        {| response := response0; iterationCount := 0; messages := messages;
           tree := tree0; server := server1 |}
  end.

(** [async run(userMessage: string): Promise<string>] *)
Definition run (userMessage : jsstring) (tree0 : Tree) (server0 : Anthropic.Server)
  : Result Thrown jsstring :=
  f <- runLoop userMessage tree0 server0 ;;
  ok (Anthropic.orElse (Anthropic.findText (Anthropic.response_content (response f)))
        (lit "応答がありません")).

End Agent.

End Sandbox.

(* ===================================================================== *)
(** * SubAgent and SubAgentOrchestrator                                   *)
(* ===================================================================== *)

Module Orchestrator.

(** [interface SubAgentConfig] *)
Record SubAgentConfig : Type := {
  name : jsstring;
  systemPrompt : jsstring;
  model : option jsstring;
}.

(** [interface SubAgentTask] *)
Record SubAgentTask : Type := {
  agentName : jsstring;
  prompt : jsstring;
}.

(** [interface SubAgentResult] *)
Record SubAgentResult : Type := {
  result_agentName : jsstring;
  result : jsstring;
  error : option jsstring;
}.

(** What [JSON.parse] yields for the plan: the two properties
    [orchestrate] reads ([plan.parallel] as its truth value). *)
Record Plan : Type := {
  tasks : list SubAgentTask;
  parallel : bool;
}.

(** No tools are offered in these requests. *)
Abbreviation NoInput := Empty_set.
Abbreviation Param := (Anthropic.MessageParam NoInput).

(** [class SubAgent]: its [config] field, in which the constructor has
    put the default model under the given properties. *)
Record SubAgent : Type := {
  config_name : jsstring;
  config_systemPrompt : jsstring;
  config_model : jsstring;
}.

Definition newSubAgent (config : SubAgentConfig) : SubAgent :=
  {| config_name := name config;
     config_systemPrompt := systemPrompt config;
     config_model := default (lit "claude-3-5-sonnet-20241022") (model config) |}.

(** [getName(): string] *)
Definition getName (this : SubAgent) : jsstring := config_name this.

(** [class SubAgentOrchestrator]: its [subAgents] map (the [client]
    field is the [Client] instance below). *)
Record SubAgentOrchestrator : Type := {
  subAgents : list (jsstring * SubAgent);
}.

(** [constructor(apiKey: string)] *)
Definition newOrchestrator : SubAgentOrchestrator := {| subAgents := [] |}.

(** [registerSubAgent(config: SubAgentConfig): void] *)
Definition registerSubAgent (config : SubAgentConfig) (this : SubAgentOrchestrator)
  : SubAgentOrchestrator :=
  {| subAgents := Map_set (name config) (newSubAgent config) (subAgents this) |}.

(** [listSubAgents(): string[]] *)
Definition listSubAgents (this : SubAgentOrchestrator) : list jsstring :=
  Map_keys (subAgents this).

Section Client.

Context `{client : Anthropic.Client NoInput}.

(** [SubAgent.execute(userPrompt)]: the [catch] logs and rethrows. *)
Definition execute (this : SubAgent) (userPrompt : jsstring)
    (server : Anthropic.Server) : Result Thrown jsstring * Anthropic.Server :=
  match
    Anthropic.messages_create
      {| Anthropic.model := config_model this;
         Anthropic.max_tokens := 4096;
         Anthropic.system := Some (config_systemPrompt this);
         Anthropic.tools := [];
         Anthropic.messages :=
           [{| Anthropic.role := Anthropic.user;
               Anthropic.content := Anthropic.Text userPrompt |}] |}
      server
  with
  | (inr response, server') =>
      (ok (Anthropic.orElse
             (Anthropic.findText (Anthropic.response_content response)) []),
       server')
  | (inl error, server') => (throw error, server')
  end.

(** [delegateToSubAgent(agentName, prompt)] *)
Definition delegateToSubAgent (this : SubAgentOrchestrator)
    (agentName prompt : jsstring) (server : Anthropic.Server)
  : Result Thrown jsstring * Anthropic.Server :=
  match Map_get agentName (subAgents this) with
  | None =>
      (throw (ErrorObject (lit "Error")
                (lit "サブエージェント " ++ quoted agentName ++ lit " が見つかりません")),
       server)
  | Some subAgent => execute subAgent prompt server
  end.

(** The async arrow function of [delegateParallel], run for one
    task: its [try] and its [catch] both return an object. *)
Definition parallelBranch (this : SubAgentOrchestrator) (task : SubAgentTask)
    (server : Anthropic.Server) : Result Thrown SubAgentResult * Anthropic.Server :=
  match delegateToSubAgent this (agentName task) (prompt task) server with
  | (inr result, server') =>
      (ok {| result_agentName := agentName task; result := result; error := None |},
       server')
  | (inl error, server') =>
      (ok {| result_agentName := agentName task; result := [];
             error := Some (errorMessage error) |},
       server')
  end.

(** [tasks.map(async (task) => ...)]: the arrow function is called for
    each task in turn, and a call of an async function runs its body
    up to the first [await], operand included. So when [map] returns,
    every branch has looked up its agent and, if there is one, has
    made its [client.messages.create] call: the requests leave in the
    order of the tasks, each with the remote side as the requests
    before it left it. The list holds, for each branch, what its
    promise settles with once the reply is in. *)
Fixpoint startBranches (this : SubAgentOrchestrator) (tasks : list SubAgentTask)
    (server : Anthropic.Server)
  : list (Result Thrown SubAgentResult) * Anthropic.Server :=
  match tasks with
  | [] => ([], server)
  | task :: rest =>
      let '(settlement, server1) := parallelBranch this task server in
      let '(later, server2) := startBranches this rest server1 in
      (settlement :: later, server2)
  end.

(** The branches settling in the order [schedule] (indices into
    [branches]), each handing its value to [Promise.all]. A promise
    settles once: an index that comes again, or that is no index of
    [branches], does nothing. *)
Fixpoint settleBranches (branches : list (Result Thrown SubAgentResult))
    (schedule : list nat) (all : AllRecord SubAgentResult)
  : AllRecord SubAgentResult :=
  match schedule with
  | [] => all
  | index :: later =>
      match branches !! index, values all !! index with
      | Some settlement, Some None =>
          settleBranches branches later
            match settlement with
            | inr x => resolveElement index x all
            | inl reason => rejectElement reason all
            end
      | _, _ => settleBranches branches later all
      end
  end.

(** [delegateParallel(tasks)], its branches settling in the order
    [schedule]. [None] is a call that has not returned: the promise
    of [Promise.all] is still pending when the schedule ends. *)
Definition delegateParallel (this : SubAgentOrchestrator) (tasks : list SubAgentTask)
    (schedule : list nat) (server : Anthropic.Server)
  : option (Result Thrown (list SubAgentResult)) * Anthropic.Server :=
  let '(branches, server') := startBranches this tasks server in
  (settled (settleBranches branches schedule (Promise_all_start (length tasks))),
   server').

(** The sequential loop of [orchestrate]:
    [for (const task of plan.tasks) { ... results.push(...) }] *)
Fixpoint forTasks (this : SubAgentOrchestrator) (tasks : list SubAgentTask)
    (results : list SubAgentResult) (server : Anthropic.Server)
  : Result Thrown (list SubAgentResult) * Anthropic.Server :=
  match tasks with
  | [] => (ok results, server)
  | task :: rest =>
      match delegateToSubAgent this (agentName task) (prompt task) server with
      | (inr result, server') =>
          forTasks this rest
            (results ++ [{| result_agentName := agentName task; result := result;
                            error := None |}])
            server'
      | (inl error, server') => (throw error, server')
      end
  end.

(** The "run the tasks" step of [orchestrate]. *)
Definition runTasks (this : SubAgentOrchestrator) (plan : Plan)
    (schedule : list nat) (server : Anthropic.Server)
  : option (Result Thrown (list SubAgentResult)) * Anthropic.Server :=
  if parallel plan && (1 <? length (tasks plan))%nat
  then delegateParallel this (tasks plan) schedule server
  else let '(r, server') := forTasks this (tasks plan) [] server in (Some r, server').

(** A result some run of the branch of [task] can end with. *)
Definition answers (this : SubAgentOrchestrator) (task : SubAgentTask)
    (r : SubAgentResult) : Prop :=
  exists server, (parallelBranch this task server).1 = ok r.

(** What holds of the record of [Promise.all] while the branches of
    [delegateParallel] settle: one slot per task; the count is that of
    the empty slots; the promise is fulfilled, with the array, exactly
    when the count is zero; and a filled slot holds a result of the
    branch of the task at the same index. *)
Record AllInvariant (this : SubAgentOrchestrator) (tasks : list SubAgentTask)
    (all : AllRecord SubAgentResult) : Prop := {
  slots_match_tasks : length (values all) = length tasks;
  count_is_empty_slots :
    remainingElementsCount all = length (filter (fun v => v = None) (values all));
  settled_when_full :
    settled all
    = if (remainingElementsCount all =? 0)%nat
      then Some (ok (valuesList (values all)))
      else None;
  slots_hold_own_results :
    forall i r, values all !! i = Some (Some r) ->
    exists task, tasks !! i = Some task /\ answers this task r;
}.

(** The system prompt of the planning request. *)
Definition orchestratorPrompt (this : SubAgentOrchestrator) : jsstring :=
  lit "あなたはタスクオーケストレーターです。
ユーザーのリクエストを分析し、以下のサブエージェントのいずれか、または複数に委譲する実行計画を立ててください。

利用可能なサブエージェント:
" ++ join LF ((fun name => lit "- " ++ name) <$> Map_keys (subAgents this)) ++ lit "

実行計画をJSON形式で出力してください：
{
  " ++ quoted (lit "plan") ++ lit ": " ++ quoted (lit "実行計画の説明") ++ lit ",
  " ++ quoted (lit "tasks") ++ lit ": [
    {
      " ++ quoted (lit "agentName") ++ lit ": " ++ quoted (lit "エージェント名") ++ lit ",
      " ++ quoted (lit "prompt") ++ lit ": " ++ quoted (lit "サブエージェントへの具体的な指示") ++ lit "
    }
  ],
  " ++ quoted (lit "parallel") ++ lit ": true/false (並列実行が可能かどうか)
}

JSON以外の説明は不要です。JSONのみを返してください。".

(** The code-fence removal of [orchestrate]. *)
Definition extractJson (planText : jsstring) : jsstring :=
  let jsonText := trim planText in
  if str_includes (lit "```json") jsonText
  then trim (at_index (split (lit "```")
                         (at_index (split (lit "```json") jsonText) 1)) 0)
  else if str_includes (lit "```") jsonText
  then trim (at_index (split (lit "```")
                         (at_index (split (lit "```") jsonText) 1)) 0)
  else jsonText.

(** The prompt of the synthesis request. *)
Definition synthesisPrompt (userRequest : jsstring) (results : list SubAgentResult)
  : jsstring :=
  lit "以下のサブエージェントの実行結果を統合して、ユーザーのリクエストに対する最終的な回答を作成してください。

元のリクエスト: " ++ userRequest ++ lit "

実行結果:
" ++ join (LF ++ lit "---" ++ LF)
   ((fun r => LF ++ lit "[" ++ result_agentName r ++ lit "]" ++ LF
              ++ result r ++ LF
              ++ match error r with
                 | Some (c :: e) => lit "エラー: " ++ c :: e
                 | _ => []
                 end ++ LF) <$> results) ++ lit "

統合された回答を作成してください。".

(** [JSON.parse(jsonText)] followed by the reads of [plan.tasks] and
    [plan.parallel]: it throws on text that is no JSON or has no
    task array. *)
Variable JSON_parse : jsstring -> Result Thrown Plan.

(** [orchestrate(userRequest)], the parallel branches (if any)
    settling in the order [schedule]. [None]: the call has not
    returned. *)
Definition orchestrate (this : SubAgentOrchestrator) (userRequest : jsstring)
    (schedule : list nat) (server : Anthropic.Server)
  : option (Result Thrown jsstring) * Anthropic.Server :=
  match
    Anthropic.messages_create
      {| Anthropic.model := lit "claude-3-5-sonnet-20241022";
         Anthropic.max_tokens := 2048;
         Anthropic.system := Some (orchestratorPrompt this);
         Anthropic.tools := [];
         Anthropic.messages :=
           [{| Anthropic.role := Anthropic.user;
               Anthropic.content := Anthropic.Text userRequest |}] |}
      server
  with
  | (inl error, server1) => (Some (throw error), server1)
  | (inr planResponse, server1) =>
      let planText :=
        Anthropic.orElse
          (Anthropic.findText (Anthropic.response_content planResponse)) [] in
      match JSON_parse (extractJson planText) with
      | inl error => (Some (throw error), server1)
      | inr plan =>
          match runTasks this plan schedule server1 with
          | (None, server2) => (None, server2)
          | (Some (inl error), server2) => (Some (throw error), server2)
          | (Some (inr results), server2) =>
              match
                Anthropic.messages_create
                  {| Anthropic.model := lit "claude-3-5-sonnet-20241022";
                     Anthropic.max_tokens := 4096;
                     Anthropic.system := None;
                     Anthropic.tools := [];
                     Anthropic.messages :=
                       [{| Anthropic.role := Anthropic.user;
                           Anthropic.content :=
                             Anthropic.Text (synthesisPrompt userRequest results) |}] |}
                  server2
              with
              | (inl error, server3) => (Some (throw error), server3)
              | (inr finalResponse, server3) =>
                  (Some (ok (Anthropic.orElse
                               (Anthropic.findText
                                  (Anthropic.response_content finalResponse)) [])),
                   server3)
              end
          end
      end
  end.

End Client.

End Orchestrator.

(* ===================================================================== *)
(** * AgentQueryBuilder                                                   *)
(* ===================================================================== *)

Module QueryBuilder.

Section Builder.

(** The type of tool inputs in message blocks, and three types of the
    SDK that the builder only passes on. *)
Context {Input ToolChoice Thinking Metadata : Type}.

Abbreviation Param := (Anthropic.MessageParam Input).

(** [string | Anthropic.TextBlockParam[]], a block being its text. *)
Inductive System : Type :=
| SystemText (text : jsstring)
| SystemBlocks (blocks : list jsstring).

(** The arrays the builder pushes to are objects shared by reference:
    the heap holds the message arrays and the tool arrays, each under
    its address. *)
Record Heap : Type := {
  messageArrays : gmap nat (list Param);
  toolArrays : gmap nat (list Anthropic.Tool);
}.

(** [[...]] for a new array of messages, or of tools. *)
Definition newMessageArray (elements : list Param) (heap : Heap) : nat * Heap :=
  let address := fresh (dom (messageArrays heap)) in
  (address,
   {| messageArrays := <[address := elements]> (messageArrays heap);
      toolArrays := toolArrays heap |}).

Definition newToolArray (elements : list Anthropic.Tool) (heap : Heap) : nat * Heap :=
  let address := fresh (dom (toolArrays heap)) in
  (address,
   {| messageArrays := messageArrays heap;
      toolArrays := <[address := elements]> (toolArrays heap) |}).

(** [Partial<AgentQuery>]: every property may be undefined. [messages]
    and [tools] hold the address of an array. *)
Record AgentQuery : Type := {
  model : option jsstring;
  maxTokens : option spec_float;
  messages : option nat;
  system : option System;
  tools : option nat;
  toolChoice : option ToolChoice;
  temperature : option spec_float;
  stream : option bool;
  topP : option spec_float;
  topK : option spec_float;
  stopSequences : option (list jsstring);
  thinking : option Thinking;
  metadata : option Metadata;
}.

(** A property of the argument of the constructor that the constructor
    has a default for: the object may not have it, or have it with a
    value, [undefined] included. *)
Inductive Property (T : Type) : Type :=
| Absent
| Present (value : option T).

Arguments Absent {T}.
Arguments Present {T} value.

(** [initialQuery]: the three properties with a default, and the others
    (of [others], the first three fields are not read). *)
Record InitialQuery : Type := {
  initial_model : Property jsstring;
  initial_maxTokens : Property spec_float;
  initial_messages : Property nat;
  others : AgentQuery;
}.

(** [DEFAULT_AGENT_CONFIG] *)
Definition DEFAULT_model : jsstring := lit "claude-3-5-sonnet-20241022".
Definition DEFAULT_maxTokens : spec_float := Number 4096.
Definition DEFAULT_temperature : spec_float := Number 1.

(** [{ k: d, ...initialQuery }] for one property. *)
Definition spread {T} (d : T) (p : Property T) : option T :=
  match p with
  | Absent => Some d
  | Present value => value
  end.

(** [class AgentQueryBuilder]: the object is its [query] field.
    [constructor(initialQuery?)]: the array literal is evaluated
    whether or not [initialQuery] brings its own messages. *)
Definition constructor (initialQuery : option InitialQuery) (heap : Heap)
  : AgentQuery * Heap :=
  let '(empty, heap1) := newMessageArray [] heap in
  (match initialQuery with
   | None =>
       {| model := Some DEFAULT_model; maxTokens := Some DEFAULT_maxTokens;
          messages := Some empty; system := None; tools := None;
          toolChoice := None; temperature := None; stream := None; topP := None;
          topK := None; stopSequences := None; thinking := None; metadata := None |}
   | Some initial =>
       {| model := spread DEFAULT_model (initial_model initial);
          maxTokens := spread DEFAULT_maxTokens (initial_maxTokens initial);
          messages := spread empty (initial_messages initial);
          system := system (others initial); tools := tools (others initial);
          toolChoice := toolChoice (others initial);
          temperature := temperature (others initial);
          stream := stream (others initial); topP := topP (others initial);
          topK := topK (others initial);
          stopSequences := stopSequences (others initial);
          thinking := thinking (others initial);
          metadata := metadata (others initial) |}
   end,
   heap1).

(** The setters; each returns [this]. *)
Definition setModel (value : jsstring) (this : AgentQuery) : AgentQuery :=
  {| model := Some value; maxTokens := maxTokens this; messages := messages this;
     system := system this; tools := tools this; toolChoice := toolChoice this;
     temperature := temperature this; stream := stream this; topP := topP this;
     topK := topK this; stopSequences := stopSequences this;
     thinking := thinking this; metadata := metadata this |}.

Definition setMaxTokens (value : spec_float) (this : AgentQuery) : AgentQuery :=
  {| model := model this; maxTokens := Some value; messages := messages this;
     system := system this; tools := tools this; toolChoice := toolChoice this;
     temperature := temperature this; stream := stream this; topP := topP this;
     topK := topK this; stopSequences := stopSequences this;
     thinking := thinking this; metadata := metadata this |}.

Definition setSystemPrompt (value : System) (this : AgentQuery) : AgentQuery :=
  {| model := model this; maxTokens := maxTokens this; messages := messages this;
     system := Some value; tools := tools this; toolChoice := toolChoice this;
     temperature := temperature this; stream := stream this; topP := topP this;
     topK := topK this; stopSequences := stopSequences this;
     thinking := thinking this; metadata := metadata this |}.

(** [setMessages(messages)] and [setTools(tools)] keep the array they
    are given, not a copy. *)
Definition setMessages (address : nat) (this : AgentQuery) : AgentQuery :=
  {| model := model this; maxTokens := maxTokens this; messages := Some address;
     system := system this; tools := tools this; toolChoice := toolChoice this;
     temperature := temperature this; stream := stream this; topP := topP this;
     topK := topK this; stopSequences := stopSequences this;
     thinking := thinking this; metadata := metadata this |}.

Definition setTools (address : nat) (this : AgentQuery) : AgentQuery :=
  {| model := model this; maxTokens := maxTokens this; messages := messages this;
     system := system this; tools := Some address; toolChoice := toolChoice this;
     temperature := temperature this; stream := stream this; topP := topP this;
     topK := topK this; stopSequences := stopSequences this;
     thinking := thinking this; metadata := metadata this |}.

Definition setToolChoice (value : ToolChoice) (this : AgentQuery) : AgentQuery :=
  {| model := model this; maxTokens := maxTokens this; messages := messages this;
     system := system this; tools := tools this; toolChoice := Some value;
     temperature := temperature this; stream := stream this; topP := topP this;
     topK := topK this; stopSequences := stopSequences this;
     thinking := thinking this; metadata := metadata this |}.

Definition setTemperature (value : spec_float) (this : AgentQuery) : AgentQuery :=
  {| model := model this; maxTokens := maxTokens this; messages := messages this;
     system := system this; tools := tools this; toolChoice := toolChoice this;
     temperature := Some value; stream := stream this; topP := topP this;
     topK := topK this; stopSequences := stopSequences this;
     thinking := thinking this; metadata := metadata this |}.

Definition enableStreaming (this : AgentQuery) : AgentQuery :=
  {| model := model this; maxTokens := maxTokens this; messages := messages this;
     system := system this; tools := tools this; toolChoice := toolChoice this;
     temperature := temperature this; stream := Some true; topP := topP this;
     topK := topK this; stopSequences := stopSequences this;
     thinking := thinking this; metadata := metadata this |}.

Definition setTopP (value : spec_float) (this : AgentQuery) : AgentQuery :=
  {| model := model this; maxTokens := maxTokens this; messages := messages this;
     system := system this; tools := tools this; toolChoice := toolChoice this;
     temperature := temperature this; stream := stream this; topP := Some value;
     topK := topK this; stopSequences := stopSequences this;
     thinking := thinking this; metadata := metadata this |}.

Definition setTopK (value : spec_float) (this : AgentQuery) : AgentQuery :=
  {| model := model this; maxTokens := maxTokens this; messages := messages this;
     system := system this; tools := tools this; toolChoice := toolChoice this;
     temperature := temperature this; stream := stream this; topP := topP this;
     topK := Some value; stopSequences := stopSequences this;
     thinking := thinking this; metadata := metadata this |}.

Definition setStopSequences (value : list jsstring) (this : AgentQuery) : AgentQuery :=
  {| model := model this; maxTokens := maxTokens this; messages := messages this;
     system := system this; tools := tools this; toolChoice := toolChoice this;
     temperature := temperature this; stream := stream this; topP := topP this;
     topK := topK this; stopSequences := Some value;
     thinking := thinking this; metadata := metadata this |}.

Definition setThinking (value : option Thinking) (this : AgentQuery) : AgentQuery :=
  {| model := model this; maxTokens := maxTokens this; messages := messages this;
     system := system this; tools := tools this; toolChoice := toolChoice this;
     temperature := temperature this; stream := stream this; topP := topP this;
     topK := topK this; stopSequences := stopSequences this;
     thinking := value; metadata := metadata this |}.

Definition setMetadata (value : option Metadata) (this : AgentQuery) : AgentQuery :=
  {| model := model this; maxTokens := maxTokens this; messages := messages this;
     system := system this; tools := tools this; toolChoice := toolChoice this;
     temperature := temperature this; stream := stream this; topP := topP this;
     topK := topK this; stopSequences := stopSequences this;
     thinking := thinking this; metadata := value |}.

(** [addMessage(role, content)]: a missing array is created, and the
    message is pushed onto the array, where it stands. *)
Definition addMessage (role : Anthropic.Role) (content : Anthropic.MessageContent Input)
    (this : AgentQuery) (heap : Heap) : AgentQuery * Heap :=
  let message := {| Anthropic.role := role; Anthropic.content := content |} in
  match messages this with
  | Some address =>
      (this,
       {| messageArrays :=
            alter (fun elements => elements ++ [message]) address (messageArrays heap);
          toolArrays := toolArrays heap |})
  | None =>
      let '(address, heap1) := newMessageArray [message] heap in
      (setMessages address this, heap1)
  end.

(** [addUserMessage(content)] and [addAssistantMessage(content)] *)
Definition addUserMessage (content : jsstring) (this : AgentQuery) (heap : Heap)
  : AgentQuery * Heap :=
  addMessage Anthropic.user (Anthropic.Text content) this heap.

Definition addAssistantMessage (content : Anthropic.MessageContent Input)
    (this : AgentQuery) (heap : Heap) : AgentQuery * Heap :=
  addMessage Anthropic.assistant content this heap.

(** [addTool(tool)] *)
Definition addTool (tool : Anthropic.Tool) (this : AgentQuery) (heap : Heap)
  : AgentQuery * Heap :=
  match tools this with
  | Some address =>
      (this,
       {| messageArrays := messageArrays heap;
          toolArrays := alter (fun elements => elements ++ [tool]) address (toolArrays heap) |})
  | None =>
      let '(address, heap1) := newToolArray [tool] heap in
      (setTools address this, heap1)
  end.

(** [!x] for an optional string and an optional number: undefined, the
    empty string, zero and NaN are falsy. *)
Definition noString (x : option jsstring) : bool :=
  match x with
  | Some (_ :: _) => false
  | _ => true
  end.

Definition noNumber (x : option spec_float) : bool :=
  match x with
  | Some (S754_finite _ _ _) | Some (S754_infinity _) => false
  | _ => true
  end.

Definition noArray (x : option nat) : bool :=
  match x with
  | Some _ => false
  | None => true
  end.

(** [Anthropic.MessageCreateParamsNonStreaming], as [build] fills it. *)
Record Params : Type := {
  params_model : jsstring;
  params_max_tokens : spec_float;
  params_messages : nat;
  params_system : option System;
  params_tools : option nat;
  params_tool_choice : option ToolChoice;
  params_temperature : option spec_float;
  params_top_p : option spec_float;
  params_top_k : option spec_float;
  params_stop_sequences : option (list jsstring);
  params_thinking : option Thinking;
  params_metadata : option Metadata;
  params_stream : option bool;
}.

Definition modelRequired : Thrown :=
  ErrorObject (lit "Error") (lit "model is required").
Definition maxTokensRequired : Thrown :=
  ErrorObject (lit "Error") (lit "maxTokens is required").
Definition messagesRequired : Thrown :=
  ErrorObject (lit "Error") (lit "messages are required").

(** [this.query.messages.length] *)
Definition messageCount (this : AgentQuery) (heap : Heap) : nat :=
  match messages this ≫= fun address => messageArrays heap !! address with
  | Some elements => length elements
  | None => 0
  end.

(** [build()]: the three checks in the order of the source; past
    them, the three required properties have a value. *)
Definition build (this : AgentQuery) (heap : Heap) : Result Thrown Params :=
  if noString (model this) then throw modelRequired
  else if noNumber (maxTokens this) then throw maxTokensRequired
  else if noArray (messages this) || (messageCount this heap =? 0)%nat
  then throw messagesRequired
  else
    match model this, maxTokens this, messages this with
    | Some name, Some tokens, Some address =>
        ok {| params_model := name; params_max_tokens := tokens;
              params_messages := address; params_system := system this;
              params_tools := tools this;
              params_tool_choice := toolChoice this;
              params_temperature := temperature this;
              params_top_p := topP this; params_top_k := topK this;
              params_stop_sequences := stopSequences this;
              params_thinking := thinking this;
              params_metadata := metadata this;
              params_stream := stream this |}
    | _, _, _ => throw modelRequired (* not reached, by the three checks *)
    end.

(** [clone()]: the copy [{ ...this.query }] has every property of
    [this.query], so no default applies, and the arrays are shared. *)
Definition clone (this : AgentQuery) (heap : Heap) : AgentQuery * Heap :=
  constructor
    (Some {| initial_model := Present (model this);
             initial_maxTokens := Present (maxTokens this);
             initial_messages := Present (messages this);
             others := this |})
    heap.

(** [options?.system || '']: an array is truthy, even an empty one. *)
Definition systemOrEmpty (options : option AgentQuery) : System :=
  match options ≫= system with
  | Some (SystemText (c :: text)) => SystemText (c :: text)
  | Some (SystemBlocks blocks) => SystemBlocks blocks
  | _ => SystemText []
  end.

(** [createSimpleQuery(userMessage, options?)] *)
Definition createSimpleQuery (userMessage : jsstring) (options : option AgentQuery)
    (heap : Heap) : Result Thrown Params * Heap :=
  let '(builder, heap1) := constructor None heap in
  let '(builder1, heap2) := addUserMessage userMessage builder heap1 in
  (build (setSystemPrompt (systemOrEmpty options) builder1) heap2, heap2).

(** [createToolQuery(userMessage, tools, previousMessages?, options?)] *)
Definition createToolQuery (userMessage : jsstring) (toolsArray : nat)
    (previousMessages : option nat) (options : option AgentQuery) (heap : Heap)
  : Result Thrown Params * Heap :=
  let '(builder, heap1) := constructor None heap in
  let builder1 :=
    match previousMessages with
    | Some address => setMessages address builder
    | None => builder
    end in
  let '(builder2, heap2) := addUserMessage userMessage builder1 heap1 in
  (build (setSystemPrompt (systemOrEmpty options) (setTools toolsArray builder2)) heap2,
   heap2).

(** [createSystemQuery(systemPrompt, userMessage, options?)] *)
Definition createSystemQuery (systemPrompt userMessage : jsstring)
    (options : option AgentQuery) (heap : Heap) : Result Thrown Params * Heap :=
  let '(builder, heap1) := constructor None heap in
  let '(builder1, heap2) :=
    addUserMessage userMessage (setSystemPrompt (SystemText systemPrompt) builder) heap1 in
  (build builder1 heap2, heap2).

End Builder.

Arguments System : clear implicits.
Arguments Heap : clear implicits.
Arguments AgentQuery : clear implicits.
Arguments InitialQuery : clear implicits.
Arguments Params : clear implicits.

End QueryBuilder.

(* ===================================================================== *)
(** * Notions used to state properties                                    *)
(* ===================================================================== *)

Module Notions.

Import TodoStore.

(** A task that passes the three checks of the callback of [validate]. *)
Definition wellFormed (todo : Todo) : Prop :=
  emptyContent todo || emptyActiveForm todo || invalidStatus todo = false.

(** A string with a character that [trim] keeps. *)
Definition hasText (s : jsstring) : Prop :=
  exists c, c ∈ s /\ isWhiteSpace c = false.

(** A conversation whose turns are, in order, user, assistant, user,
    and so on. *)
Definition rolesAlternate {Input} (messages : list (Anthropic.MessageParam Input))
  : Prop :=
  forall (i : nat) m, messages !! i = Some m ->
    Anthropic.role m = if Nat.even i then Anthropic.user else Anthropic.assistant.

(** An orchestrator after [registerSubAgent] has been called with each
    of [configs], in order. *)
Definition registerAll (configs : list Orchestrator.SubAgentConfig)
  : Orchestrator.SubAgentOrchestrator :=
  foldl (fun this config => Orchestrator.registerSubAgent config this)
    Orchestrator.newOrchestrator configs.

(** A builder after [addMessage] has been called with each of
    [newMessages], in order. *)
Definition addAll {Input ToolChoice Thinking Metadata}
    (newMessages : list (Anthropic.MessageParam Input))
    (this : QueryBuilder.AgentQuery ToolChoice Thinking Metadata)
    (heap : QueryBuilder.Heap Input)
  : QueryBuilder.AgentQuery ToolChoice Thinking Metadata * QueryBuilder.Heap Input :=
  foldl
    (fun state m =>
       QueryBuilder.addMessage (Anthropic.role m) (Anthropic.content m) state.1 state.2)
    (this, heap) newMessages.

(** The message [{ role: 'user', content }] of [addUserMessage]. *)
Definition userMessage {Input} (content : jsstring) : Anthropic.MessageParam Input :=
  {| Anthropic.role := Anthropic.user; Anthropic.content := Anthropic.Text content |}.

(** The record of [Promise.all] when the first promises have been
    fulfilled with [rs] and [n] more are pending. *)
Definition fulfilledSoFar {A} (rs : list A) (n : nat) : AllRecord A :=
  {| values := (Some <$> rs) ++ replicate n None;
     remainingElementsCount := n;
     settled := if (n =? 0)%nat then Some (ok rs) else None |}.

(** The grave accent, of which code fences are made, and the strings
    without one. *)
Definition graveAccent : N := 0x60.

Definition fenceFree (s : jsstring) : Prop := graveAccent ∉ s.

End Notions.

(* ===================================================================== *)
(** * Sample data for the worked examples                                 *)
(* ===================================================================== *)

Module Samples.

Import TodoStore.

Definition todo (content status activeForm : string) : Todo :=
  {| content := lit content; status := lit status; activeForm := lit activeForm |}.

(** A disk with no file on it, every path writable. *)
Definition blankDisk : Disk :=
  {| files := ∅; writeFails := ∅; writeTruncates := ∅ |}.

(** A disk whose '.todos.json' holds two tasks in progress. *)
Definition staleDisk : Disk :=
  {| files := {[ lit ".todos.json" :=
                  Document {| todos := [todo "a" "in_progress" "A-ing";
                                        todo "b" "in_progress" "B-ing"] |} ]};
     writeFails := ∅; writeTruncates := ∅ |}.


(** A list that [update] accepts. *)
Definition oneInProgress : list Todo :=
  [todo "a" "in_progress" "A-ing"; todo "b" "pending" "B-ing"].

(** A list with a bad status first and an empty content second. *)
Definition badStatusThenEmptyContent : list Todo :=
  [todo "a" "bogus" "A-ing"; todo "" "pending" "B-ing"].

(** Forty tasks, twenty-three of them completed. *)
Definition fortyTasks : list Todo :=
  replicate 23 (todo "a" "completed" "A-ing")
    ++ replicate 17 (todo "b" "pending" "B-ing").

(** A file system held in memory: paths to contents. *)
Definition memoryFileSystem : Sandbox.SandboxedFileSystem :=
  let failure (text : jsstring) (path : option jsstring) tree :=
    ({| Sandbox.success := false; Sandbox.result_content := None;
        Sandbox.files := None;
        Sandbox.error := Some (text ++ default (lit "undefined") path) |},
     tree) in
  let success tree :=
    ({| Sandbox.success := true; Sandbox.result_content := None;
        Sandbox.files := None; Sandbox.error := None |}, tree) in
  {| Sandbox.Tree := list (jsstring * jsstring);
     Sandbox.readFile path tree :=
       match path ≫= fun p => Map_get p tree with
       | Some text =>
           ({| Sandbox.success := true; Sandbox.result_content := Some text;
               Sandbox.files := None; Sandbox.error := None |}, tree)
       | None => failure (lit "❌ ファイルが存在しません: ") path tree
       end;
     Sandbox.writeFile path text tree :=
       match path, text with
       | Some p, Some t => success (Map_set p t tree)
       | _, _ => failure (lit "❌ 書き込みエラー: ") path tree
       end;
     Sandbox.listFiles path tree :=
       ({| Sandbox.success := true; Sandbox.result_content := None;
           Sandbox.files := Some (Map_keys tree); Sandbox.error := None |}, tree);
     Sandbox.deleteFile path tree :=
       match path ≫= fun p => Map_get p tree with
       | Some _ => success (List.filter (fun entry => negb (str_eqb entry.1 (default [] path))) tree)
       | None => failure (lit "❌ ファイルが存在しません: ") path tree
       end |}.

(** A response of the model that asks for a tool the todo agent has not
    registered. *)
Definition asksForReadFile : TodoAgent.Response :=
  {| Anthropic.response_content :=
       [Anthropic.ToolUseBlock (lit "toolu_01") (lit "read_file") {| todos := [] |}];
     Anthropic.stop_reason := Some (lit "tool_use") |}.

Definition finalAnswer {Input} (text : string) : Anthropic.Message Input :=
  {| Anthropic.response_content := [Anthropic.TextBlock (lit text)];
     Anthropic.stop_reason := Some (lit "end_turn") |}.

(** The scripted remote side about to play [replies]. *)
Definition playing {Input} (replies : list (Result Thrown (Anthropic.Message Input)))
  : @Anthropic.Server Input (Anthropic.scripted Input) :=
  @Anthropic.Build_Script Input replies [].

(** The todo agent at the head of its loop, holding that response, the
    remote side ready to give a final answer next. *)
Definition unknownToolFrame : @TodoAgent.Frame (Anthropic.scripted TodoList) :=
  {| TodoAgent.response := asksForReadFile;
     TodoAgent.iterations := 0;
     TodoAgent.messages :=
       [{| Anthropic.role := Anthropic.user;
           Anthropic.content := Anthropic.Text (lit "read notes.txt") |}];
     TodoAgent.manager := constructor None blankDisk;
     TodoAgent.disk := blankDisk;
     TodoAgent.server := playing [ok (finalAnswer "done")] |}.

(** A response with two tool-use blocks, and the sandboxed agent holding
    it. *)
Definition asksForTwoTools : Sandbox.Response :=
  {| Anthropic.response_content :=
       [Anthropic.ToolUseBlock (lit "toolu_01") (lit "read_file")
          {| Sandbox.path := Some (lit "a.txt"); Sandbox.content := None |};
        Anthropic.ToolUseBlock (lit "toolu_02") (lit "list_files")
          {| Sandbox.path := None; Sandbox.content := None |}];
     Anthropic.stop_reason := Some (lit "tool_use") |}.

Definition twoToolsFrame
  : @Sandbox.Frame memoryFileSystem (Anthropic.scripted Sandbox.ToolInput) :=
  {| Sandbox.response := asksForTwoTools;
     Sandbox.iterationCount := 0;
     Sandbox.messages :=
       [{| Anthropic.role := Anthropic.user;
           Anthropic.content := Anthropic.Text (lit "show a.txt and list the files") |}];
     Sandbox.tree := ([(lit "a.txt", lit "hello")] : @Sandbox.Tree memoryFileSystem);
     Sandbox.server := playing [ok (finalAnswer "done")] |}.

(** The scripted client, for the todo agent. *)
Definition scriptedTodoClient : Anthropic.Client TodoList :=
  Anthropic.scripted TodoList.

(** A response with two todo_write blocks, and the todo agent holding
    it. *)
Definition asksForTwoWrites : TodoAgent.Response :=
  {| Anthropic.response_content :=
       [Anthropic.ToolUseBlock (lit "toolu_01") (lit "todo_write")
          {| todos := [todo "a" "in_progress" "A-ing"] |};
        Anthropic.ToolUseBlock (lit "toolu_02") (lit "todo_write")
          {| todos := [todo "a" "completed" "A-ing"] |}];
     Anthropic.stop_reason := Some (lit "tool_use") |}.

Definition twoWritesFrame : @TodoAgent.Frame (Anthropic.scripted TodoList) :=
  {| TodoAgent.response := asksForTwoWrites;
     TodoAgent.iterations := 0;
     TodoAgent.messages :=
       [{| Anthropic.role := Anthropic.user;
           Anthropic.content := Anthropic.Text (lit "do a") |}];
     TodoAgent.manager := constructor None blankDisk;
     TodoAgent.disk := blankDisk;
     TodoAgent.server := playing [ok (finalAnswer "done")] |}.

(** A client whose remote side never fails and never stops asking for
    todo_write; its state is the number of requests it has received. *)
Definition insistentClient : Anthropic.Client TodoList :=
  {| Anthropic.Server := nat;
     Anthropic.messages_create _ requests :=
       (ok {| Anthropic.response_content :=
                [Anthropic.ToolUseBlock (lit "toolu_01") (lit "todo_write")
                   {| todos := [todo "a" "in_progress" "A-ing"] |}];
              Anthropic.stop_reason := Some (lit "tool_use") |},
        S requests) |}.

Definition noRequestYet : @Anthropic.Server TodoList insistentClient := 0%nat.

(** The scripted client, for the orchestrator. *)
Definition scriptedClient : Anthropic.Client Orchestrator.NoInput :=
  Anthropic.scripted Orchestrator.NoInput.

(** An orchestrator with two registered sub-agents. *)
Definition team : Orchestrator.SubAgentOrchestrator :=
  Orchestrator.registerSubAgent
    {| Orchestrator.name := lit "reviewer";
       Orchestrator.systemPrompt := lit "You review code.";
       Orchestrator.model := Some (lit "claude-3-5-haiku-20241022") |}
    (Orchestrator.registerSubAgent
       {| Orchestrator.name := lit "coder";
          Orchestrator.systemPrompt := lit "You write code.";
          Orchestrator.model := None |}
       Orchestrator.newOrchestrator).

Definition task (agentName prompt : string) : Orchestrator.SubAgentTask :=
  {| Orchestrator.agentName := lit agentName; Orchestrator.prompt := lit prompt |}.

(** Three tasks, the second for a name that is not registered. *)
Definition threeTasks : list Orchestrator.SubAgentTask :=
  [task "coder" "write it"; task "ghost" "haunt it"; task "reviewer" "review it"].

(** A sequential plan whose first task names an unregistered agent. *)
Definition ghostFirst : Orchestrator.Plan :=
  {| Orchestrator.tasks := [task "ghost" "haunt it"; task "coder" "write it"];
     Orchestrator.parallel := false |}.

(** The remote side of a short run of the todo agent: one response that
    writes a task list, then the final answer. *)
Definition writesThenAnswers
  : @Anthropic.Server TodoList (Anthropic.scripted TodoList) :=
  playing
    [ok {| Anthropic.response_content :=
             [Anthropic.TextBlock (lit "planning");
              Anthropic.ToolUseBlock (lit "toolu_01") (lit "todo_write")
                {| todos := oneInProgress |}];
           Anthropic.stop_reason := Some (lit "tool_use") |};
     ok (finalAnswer "done")].

(** The scripted client, for the sandboxed agent, and a remote side
    that asks for two tools and then answers with no text at all. *)
Definition scriptedSandboxClient : Anthropic.Client Sandbox.ToolInput :=
  Anthropic.scripted Sandbox.ToolInput.

Definition oneFile : @Sandbox.Tree memoryFileSystem := [(lit "a.txt", lit "hello")].

Definition asksThenSaysNothing
  : @Anthropic.Server Sandbox.ToolInput (Anthropic.scripted Sandbox.ToolInput) :=
  playing
    [ok asksForTwoTools;
     ok {| Anthropic.response_content := [];
           Anthropic.stop_reason := Some (lit "end_turn") |}].

(** A sequential plan for the two registered agents. *)
Definition reviewPlan : Orchestrator.Plan :=
  {| Orchestrator.tasks := [task "coder" "write it"; task "reviewer" "review it"];
     Orchestrator.parallel := false |}.

(** An answer of the model that wraps its plan in a fenced block. *)
Definition fencedPlan : jsstring :=
  lit "Here is the plan:" ++ LF ++ lit "```json" ++ LF ++ lit "{ }" ++ LF
  ++ lit "```" ++ LF.

(** A heap with one array of messages and one array of tools, and a
    builder on that array of messages. *)
Definition greeted : QueryBuilder.Heap Empty_set :=
  {| QueryBuilder.messageArrays := {[ 0%nat := [Notions.userMessage (lit "hello")] ]};
     QueryBuilder.toolArrays := {[ 0%nat := [TodoAgent.todoWriteTool] ]} |}.

Definition greeting : QueryBuilder.AgentQuery unit unit unit :=
  {| QueryBuilder.model := Some (lit "claude-3-5-haiku-20241022");
     QueryBuilder.maxTokens := Some (Number 1024);
     QueryBuilder.messages := Some 0%nat; QueryBuilder.system := None;
     QueryBuilder.tools := None; QueryBuilder.toolChoice := None;
     QueryBuilder.temperature := None; QueryBuilder.stream := None;
     QueryBuilder.topP := None; QueryBuilder.topK := None;
     QueryBuilder.stopSequences := None; QueryBuilder.thinking := None;
     QueryBuilder.metadata := None |}.

End Samples.

(* ===================================================================== *)
(** * Properties of TodoManager                                           *)
(* ===================================================================== *)

Section TodoStoreFacts.

Import TodoStore.

Implicit Types (todos : list Todo) (this : TodoManager) (disk : Disk).

(** ** Worked examples *)

Example lit_ascii :
  lit "in_progress" = [105; 110; 95; 112; 114; 111; 103; 114; 101; 115; 115].
Proof. reflexivity. Qed.

Example lit_kana : lit "タスク" = [0x30BF; 0x30B9; 0x30AF].
Proof. reflexivity. Qed.

Example trim_ideographic_space : trim (lit "  a b　") = lit "a b".
Proof. reflexivity. Qed.

Example message_invalid_status :
  message (InvalidStatus 0 (lit "bogus"))
  = lit "タスク1: 無効なstatus " ++ quoted (lit "bogus").
Proof. reflexivity. Qed.

Example update_empty_list :
  let this := constructor None Samples.staleDisk in
  update [] this Samples.staleDisk = (throw EmptyList, this, Samples.staleDisk).
Proof. reflexivity. Qed.

Example update_two_in_progress :
  let this := constructor None Samples.blankDisk in
  update [Samples.todo "a" "in_progress" "A-ing"; Samples.todo "b" "in_progress" "B-ing"]
    this Samples.blankDisk
  = (throw (MultipleInProgress 2), this, Samples.blankDisk).
Proof. reflexivity. Qed.

Example update_pending_then_completed :
  let '(_, this1, disk1) :=
    update [Samples.todo "a" "pending" "A-ing"]
      (constructor None Samples.blankDisk) Samples.blankDisk in
  let '(outcome, this2, _) := update [Samples.todo "a" "completed" "A-ing"] this1 disk1 in
  outcome = ok tt
  /\ getStats this2
     = {| total := 1; pending := 0; inProgress := 0; completed := 1; progress := 100 |}.
Proof. split; reflexivity. Qed.

Example saved_list_is_loaded_again :
  let '(_, _, disk1) :=
    update Samples.oneInProgress (constructor None Samples.blankDisk) Samples.blankDisk in
  getAll (constructor None disk1) = Samples.oneInProgress.
Proof. reflexivity. Qed.

Example twenty_three_of_forty :
  Number_mul (Number_div (Number 23) (Number 40)) (Number 100)
  = S754_finite false 8092405580431359 (-47)
  /\ roundedProduct 23 40 = 57%Z /\ roundedPercent 23 40 = 58%Z.
Proof. repeat split; reflexivity. Qed.

(** ** Strings that are empty once trimmed *)

Lemma trimStart_nil (s : jsstring) :
  trimStart s = [] <-> forallb isWhiteSpace s = true.
Proof.
  induction s as [|c r IH]; simpl; [done|].
  destruct (isWhiteSpace c); simpl; [exact IH|]. split; discriminate.
Qed.

Lemma trimStart_head (s : jsstring) c r :
  trimStart s = c :: r -> isWhiteSpace c = false.
Proof.
  induction s as [|c0 r0 IH]; simpl; [discriminate|].
  destruct (isWhiteSpace c0) eqn:Hc0; [exact IH|]. by intros [= <- _].
Qed.

Lemma forallb_rev {A} (f : A -> bool) (l : list A) :
  forallb f (rev l) = true <-> forallb f l = true.
Proof.
  rewrite !forallb_forall. split; intros H x Hx; apply H.
  - by apply -> in_rev.
  - by apply in_rev.
Qed.

Lemma trim_nil (s : jsstring) :
  trim s = [] <-> forallb isWhiteSpace s = true.
Proof.
  unfold trim, trimEnd. rewrite <- trimStart_nil.
  split.
  - intros Hrev. apply (f_equal (@rev N)) in Hrev. rewrite rev_involutive in Hrev.
    simpl in Hrev. apply trimStart_nil in Hrev.
    apply (proj1 (forallb_rev _ _)) in Hrev.
    destruct (trimStart s) as [|c r] eqn:Hstart; [done|].
    apply trimStart_head in Hstart. cbn [forallb] in Hrev. by rewrite Hstart in Hrev.
  - intros ->. done.
Qed.

Lemma emptyContent_iff todo :
  emptyContent todo = true <-> forallb isWhiteSpace (content todo) = true.
Proof.
  unfold emptyContent, str_eqb. rewrite orb_true_iff, bool_decide_eq_true, trim_nil.
  split; [|by right]. intros [Hfalsy|H]; [|done].
  by destruct (content todo).
Qed.

(** ** [forEach] with a throwing body *)

Lemma forEach_from_ok {E A} (body : A -> nat -> Result E unit) (arr : list A) start :
  forEach_from body start arr = ok tt <->
  forall j x, arr !! j = Some x -> body x (start + j)%nat = ok tt.
Proof.
  revert start. induction arr as [|a arr IH]; intros start; simpl.
  - split; [intros _ j x Hj; by rewrite lookup_nil in Hj | done].
  - destruct (body a start) as [e|[]] eqn:Hbody; simpl.
    + split; [discriminate|]. intros Hall.
      specialize (Hall 0%nat a eq_refl). rewrite Nat.add_0_r in Hall. congruence.
    + rewrite IH. split.
      * intros Hall [|j] x Hj; simpl in Hj.
        -- injection Hj as <-. by rewrite Nat.add_0_r.
        -- rewrite <- Nat.add_succ_comm. by apply Hall.
      * intros Hall j x Hj. rewrite Nat.add_succ_comm. by apply (Hall (S j)).
Qed.

Lemma forEach_from_first_throw {E A} (body : A -> nat -> Result E unit)
    (arr : list A) start k x e :
  arr !! k = Some x ->
  body x (start + k)%nat = throw e ->
  (forall j y, (j < k)%nat -> arr !! j = Some y -> body y (start + j)%nat = ok tt) ->
  forEach_from body start arr = throw e.
Proof.
  revert start k. induction arr as [|a arr IH]; intros start k Hk Hthrow Hbefore.
  - by rewrite lookup_nil in Hk.
  - destruct k as [|k]; simpl in Hk; simpl.
    + injection Hk as ->. rewrite Nat.add_0_r in Hthrow. by rewrite Hthrow.
    + pose proof (Hbefore 0%nat a ltac:(lia) eq_refl) as Hfirst.
      rewrite Nat.add_0_r in Hfirst. rewrite Hfirst. simpl.
      apply (IH (S start) k); [done| |].
      * by rewrite Nat.add_succ_comm.
      * intros j y Hj Hy. rewrite Nat.add_succ_comm.
        apply (Hbefore (S j)); [lia|done].
Qed.

(** ** What an accepted list satisfies *)

Lemma validate_ok_inv todos u :
  validate todos = inr u ->
  todos <> [] /\ (inProgressCount todos <= 1)%nat
  /\ forall j todo, todos !! j = Some todo -> validateTodo todo j = ok tt.
Proof.
  unfold validate. destruct todos as [|t todos]; [discriminate|].
  change (length (t :: todos) =? 0)%nat with false. cbv iota.
  destruct (1 <? inProgressCount (t :: todos))%nat eqn:Hcount; [discriminate|].
  apply Nat.ltb_ge in Hcount. intros Hall.
  split; [done|]. split; [done|].
  destruct u. unfold forEach in Hall.
  rewrite forEach_from_ok in Hall. exact Hall.
Qed.

Lemma update_ok_inv todos this disk this' disk' :
  update todos this disk = (ok tt, this', disk') ->
  validate todos = ok tt /\ this_todos this' = todos
  /\ this_todoFile this' = this_todoFile this /\ disk' = save this' disk.
Proof.
  unfold update. destruct (validate todos) as [e|[]]; [discriminate|].
  intros [= <- <-]. done.
Qed.

(** C1. Every list that [update] accepts leaves a stored list with at
    most one task whose status is 'in_progress'. *)
Theorem update_at_most_one_in_progress todos this disk this' disk' :
  update todos this disk = (ok tt, this', disk') ->
  (inProgressCount (getAll this') <= 1)%nat.
Proof.
  intros Hupdate. apply update_ok_inv in Hupdate as (Hvalid & Hstored & _).
  unfold getAll. rewrite Hstored.
  by apply validate_ok_inv in Hvalid as (_ & Hcount & _).
Qed.

(** C2. A rejected [update] changes nothing: the object, and so what
    [getAll] returns, and the disk are as before the call. *)
Theorem update_all_or_nothing todos this disk e this' disk' :
  update todos this disk = (throw e, this', disk') ->
  getAll this' = getAll this /\ this' = this /\ disk' = disk.
Proof.
  unfold update. destruct (validate todos) as [e0|[]]; [|discriminate].
  intros [= _ <- <-]. done.
Qed.

(** ** The order of the checks *)

Lemma validateTodo_cases todo index :
  validateTodo todo index =
    if emptyContent todo then throw (ContentEmpty index)
    else if emptyActiveForm todo then throw (ActiveFormEmpty index)
    else if invalidStatus todo then throw (InvalidStatus index (status todo))
    else ok tt.
Proof. reflexivity. Qed.

Lemma validateTodo_ok todo index :
  validateTodo todo index = ok tt <->
  emptyContent todo || emptyActiveForm todo || invalidStatus todo = false.
Proof.
  rewrite validateTodo_cases.
  unfold throw, ok.
  destruct (emptyContent todo), (emptyActiveForm todo), (invalidStatus todo);
    simpl; split; intros H; (discriminate H || reflexivity).
Qed.

(** C3 (as the code has it). The empty-list check and the in_progress
    count come first, over the whole list. The tasks are then visited in
    list order, and each is checked for content, then activeForm, then
    status: the error reported is that of the first task that fails any
    of the three, so a bad status in an earlier task is reported before
    an empty field in a later one. *)
Theorem validate_reports_first_offender todos index todo :
  todos !! index = Some todo ->
  emptyContent todo || emptyActiveForm todo || invalidStatus todo = true ->
  (forall j t, (j < index)%nat -> todos !! j = Some t ->
     emptyContent t || emptyActiveForm t || invalidStatus t = false) ->
  validate [] = throw EmptyList
  /\ validate todos =
       if (1 <? inProgressCount todos)%nat
       then throw (MultipleInProgress (inProgressCount todos))
       else throw (if emptyContent todo then ContentEmpty index
                   else if emptyActiveForm todo then ActiveFormEmpty index
                   else InvalidStatus index (status todo)).
Proof.
  intros Hindex Hoffends Hbefore. split; [reflexivity|]. unfold validate.
  destruct todos as [|t0 todos]; [by rewrite lookup_nil in Hindex|].
  change (length (t0 :: todos) =? 0)%nat with false. cbv iota.
  destruct (1 <? inProgressCount (t0 :: todos))%nat; [done|].
  unfold forEach.
  apply (forEach_from_first_throw validateTodo (t0 :: todos) 0 index todo);
    [done| |].
  - simpl. rewrite validateTodo_cases.
    destruct (emptyContent todo), (emptyActiveForm todo), (invalidStatus todo);
      simpl in *; done.
  - intros j y Hj Hy. simpl. apply validateTodo_ok. by apply (Hbefore j).
Qed.

Lemma validate_reports_first_offender_witness :
  validate [] = throw EmptyList
  /\ validate Samples.badStatusThenEmptyContent = throw (InvalidStatus 0 (lit "bogus")).
Proof.
  apply (validate_reports_first_offender Samples.badStatusThenEmptyContent 0
           (Samples.todo "a" "bogus" "A-ing")).
  - reflexivity.
  - reflexivity.
  - intros j t Hj. lia.
Defined.

(** C3 as the specification states it fails: here rules 1 and 2 pass, a
    task has an invalid status and another an empty content, and the
    error reported is the invalid status of task 1. *)
Lemma missing_field_not_always_reported :
  ~ (forall todos,
       todos <> [] -> (inProgressCount todos <= 1)%nat ->
       (exists t, t ∈ todos /\ invalidStatus t = true) ->
       (exists t, t ∈ todos /\ emptyContent t || emptyActiveForm t = true) ->
       exists index, validate todos = throw (ContentEmpty index)
                     \/ validate todos = throw (ActiveFormEmpty index)).
Proof.
  intros Hclaim.
  destruct (Hclaim Samples.badStatusThenEmptyContent) as [index [H|H]].
  - discriminate.
  - vm_compute. lia.
  - exists (Samples.todo "a" "bogus" "A-ing"). split; [|reflexivity].
    unfold Samples.badStatusThenEmptyContent. set_solver.
  - exists (Samples.todo "" "pending" "B-ing"). split; [|reflexivity].
    unfold Samples.badStatusThenEmptyContent. set_solver.
  - vm_compute in H. discriminate.
  - vm_compute in H. discriminate.
Qed.

(** ** Statistics *)

Lemma status_literals_distinct :
  lit "pending" <> lit "in_progress" /\ lit "pending" <> lit "completed"
  /\ lit "in_progress" <> lit "completed".
Proof. repeat split; vm_compute; discriminate. Qed.

Lemma valid_status_cases todo :
  invalidStatus todo = false ->
  status todo = lit "pending" \/ status todo = lit "in_progress"
  \/ status todo = lit "completed".
Proof.
  unfold invalidStatus, includes, str_eqb. cbn [existsb].
  intros H. apply negb_false_iff in H.
  repeat (apply orb_true_iff in H as [H|H]);
    try (apply bool_decide_eq_true in H; auto); discriminate.
Qed.

Lemma status_counts_add_up todos :
  Forall (fun t => invalidStatus t = false) todos ->
  (length (filter (fun t => status t = lit "pending") todos)
   + length (filter (fun t => status t = lit "in_progress") todos)
   + length (filter (fun t => status t = lit "completed") todos)
   = length todos)%nat.
Proof.
  destruct status_literals_distinct as (Hpi & Hpc & Hic).
  induction 1 as [|t todos Hvalid _ IH]; [done|].
  rewrite !filter_cons.
  destruct (valid_status_cases t Hvalid) as [Hs|[Hs|Hs]];
    repeat case_decide; simpl; try lia; congruence.
Qed.

Lemma roundedProduct_exact_below_40 completed total :
  (completed <= total)%nat -> (0 < total < 40)%nat ->
  roundedProduct completed total = roundedPercent completed total.
Proof.
  intros Hle Hrange.
  assert (Hall : roundedProductExact 39 = true) by (vm_compute; reflexivity).
  unfold roundedProductExact in Hall.
  rewrite forallb_forall in Hall.
  specialize (Hall total). rewrite forallb_forall in Hall.
  apply Z.eqb_eq, Hall; apply in_seq; lia.
Qed.

(** C9 (as the code has it). After an accepted update the statistics
    count the stored list: total is its length, pending, inProgress and
    completed are the numbers of tasks with that status, and these three
    add up to total. The percentage is [Math.round] of the double
    (completed / total) * 100; for a list of fewer than 40 tasks this is
    100 * completed / total rounded to the nearest integer, and a single
    completed task gives total 1, completed 1 and progress 100. *)
Theorem getStats_after_update todos this disk this' disk' :
  update todos this disk = (ok tt, this', disk') ->
  let stats := getStats this' in
  total stats = length todos
  /\ pending stats = length (filter (fun t => status t = lit "pending") todos)
  /\ inProgress stats = length (filter (fun t => status t = lit "in_progress") todos)
  /\ completed stats = length (filter (fun t => status t = lit "completed") todos)
  /\ (pending stats + inProgress stats + completed stats = total stats)%nat
  /\ progress stats = roundedProduct (completed stats) (total stats)
  /\ ((total stats < 40)%nat ->
      progress stats = roundedPercent (completed stats) (total stats))
  /\ (forall t, todos = [t] -> status t = lit "completed" ->
      total stats = 1%nat /\ completed stats = 1%nat /\ progress stats = 100%Z).
Proof.
  intros Hupdate. apply update_ok_inv in Hupdate as (Hvalid & Hstored & _).
  apply validate_ok_inv in Hvalid as (Hnonempty & _ & Hall).
  assert (Hstatuses : Forall (fun t => invalidStatus t = false) todos).
  { apply Forall_lookup. intros j t Hj. specialize (Hall j t Hj).
    apply validateTodo_ok in Hall.
    by destruct (emptyContent t), (emptyActiveForm t), (invalidStatus t). }
  assert (Hpositive : (0 < length todos)%nat).
  { destruct todos; [done|simpl; lia]. }
  assert (Hprogress : progress (getStats this')
            = roundedProduct (completed (getStats this')) (total (getStats this'))).
  { unfold getStats. cbn [progress completed total]. rewrite Hstored.
    apply Nat.ltb_lt in Hpositive. by rewrite Hpositive. }
  assert (Hsum := status_counts_add_up todos Hstatuses).
  cbv zeta. rewrite Hprogress.
  unfold getStats, getByStatus. cbn [total pending inProgress completed].
  rewrite Hstored.
  split; [done|]. split; [done|]. split; [done|]. split; [done|].
  split; [exact Hsum|]. split; [done|]. split.
  - intros Hsmall. apply roundedProduct_exact_below_40; [|lia].
    rewrite <- Hsum. lia.
  - intros t -> Hcompleted. rewrite filter_cons, decide_True by done.
    rewrite filter_nil. done.
Qed.

Lemma getStats_after_update_witness :
  let stats :=
    getStats (update [Samples.todo "a" "completed" "A-ing"]
                (constructor None Samples.blankDisk) Samples.blankDisk).1.2 in
  total stats = 1%nat /\ completed stats = 1%nat /\ progress stats = 100%Z.
Proof.
  eapply (getStats_after_update [Samples.todo "a" "completed" "A-ing"]
            (constructor None Samples.blankDisk) Samples.blankDisk);
    reflexivity.
Defined.

(** C9 as the specification states it fails: a list of 40 valid tasks,
    23 of them completed, is accepted, and the percentage is 57, while
    100 * 23 / 40 = 57.5 rounds to 58. *)
Lemma progress_is_not_the_rounded_quotient :
  ~ (forall todos this disk this' disk',
       update todos this disk = (ok tt, this', disk') ->
       progress (getStats this')
       = roundedPercent (completed (getStats this')) (total (getStats this'))).
Proof.
  intros Hclaim.
  specialize (Hclaim Samples.fortyTasks (constructor None Samples.blankDisk)
                Samples.blankDisk _ _ eq_refl).
  vm_compute in Hclaim. discriminate.
Qed.

(** ** Construction *)

Lemma constructor_adopts_document todoFile disk parsed :
  files disk !! default (lit ".todos.json") todoFile = Some (Document parsed) ->
  getAll (constructor todoFile disk) = todos parsed.
Proof. intros Hfile. unfold constructor, load, getAll. simpl. by rewrite Hfile. Qed.

(** C10. The constructor stores what it parsed from the file without
    validating it: from some file contents a fresh store holds a list
    that [update] rejects, with two tasks in progress in one case and a
    task with empty content in another. *)
Theorem constructor_skips_validation :
  (exists disk,
     let this := constructor None disk in
     files disk !! lit ".todos.json" = Some (Document {| todos := getAll this |})
     /\ inProgressCount (getAll this) = 2%nat
     /\ forall this0 disk0,
          update (getAll this) this0 disk0 = (throw (MultipleInProgress 2), this0, disk0))
  /\ (exists disk,
        let this := constructor None disk in
        files disk !! lit ".todos.json" = Some (Document {| todos := getAll this |})
        /\ forall this0 disk0,
             update (getAll this) this0 disk0 = (throw (ContentEmpty 0), this0, disk0)).
Proof.
  split.
  - exists Samples.staleDisk. cbv zeta.
    rewrite (constructor_adopts_document None Samples.staleDisk _ eq_refl).
    split; [reflexivity|]. split; [reflexivity|]. reflexivity.
  - exists {| files := {[ lit ".todos.json" :=
                           Document {| todos := [Samples.todo " " "pending" "B-ing"] |} ]};
              writeFails := ∅; writeTruncates := ∅ |}.
    cbv zeta.
    erewrite (constructor_adopts_document None) by reflexivity.
    split; reflexivity.
Qed.

Lemma update_at_most_one_in_progress_witness :
  (inProgressCount
     (getAll (update Samples.oneInProgress
                (constructor None Samples.blankDisk) Samples.blankDisk).1.2) <= 1)%nat.
Proof.
  eapply (update_at_most_one_in_progress Samples.oneInProgress
            (constructor None Samples.blankDisk) Samples.blankDisk).
  reflexivity.
Defined.

Lemma update_all_or_nothing_witness :
  let this := constructor None Samples.staleDisk in
  getAll (update [] this Samples.staleDisk).1.2 = getAll this
  /\ (update [] this Samples.staleDisk).1.2 = this
  /\ (update [] this Samples.staleDisk).2 = Samples.staleDisk.
Proof.
  intros this.
  apply (update_all_or_nothing [] this Samples.staleDisk EmptyList).
  reflexivity.
Defined.

End TodoStoreFacts.

(* ===================================================================== *)
(** * Properties of the tool loops                                        *)
(* ===================================================================== *)

Section ToolLoopFacts.

Import TodoStore.

(** ** The todo agent *)

Lemma forToolUses_skips_other_tools id name input rest results manager disk :
  name <> lit "todo_write" ->
  TodoAgent.forToolUses (Anthropic.ToolUseBlock id name input :: rest) results manager disk
  = TodoAgent.forToolUses rest results manager disk.
Proof.
  intros Hname. simpl. unfold str_eqb. by rewrite bool_decide_eq_false_2.
Qed.

Lemma todoWriteCalls_cons block blocks :
  TodoAgent.todoWriteCalls (block :: blocks) =
    match block with
    | Anthropic.ToolUseBlock id name input =>
        if str_eqb name (lit "todo_write")
        then (id, input) :: TodoAgent.todoWriteCalls blocks
        else TodoAgent.todoWriteCalls blocks
    | _ => TodoAgent.todoWriteCalls blocks
    end.
Proof.
  destruct block as [text|id name input|tool_use_id content is_error];
    unfold TodoAgent.todoWriteCalls; simpl; try reflexivity.
  by destruct (str_eqb name (lit "todo_write")).
Qed.

Lemma forToolUses_answerInOrder blocks results manager disk :
  TodoAgent.forToolUses (List.filter Anthropic.is_tool_use blocks) results manager disk
  = let answered := TodoAgent.answerInOrder (TodoAgent.todoWriteCalls blocks) manager disk in
    (results ++ answered.1.1, answered.1.2, answered.2).
Proof.
  revert results manager disk.
  induction blocks as [|block blocks IH]; intros results manager disk.
  - simpl. by rewrite app_nil_r.
  - rewrite todoWriteCalls_cons.
    destruct block as [text|id name input|tool_use_id content is_error];
      cbn [List.filter Anthropic.is_tool_use TodoAgent.forToolUses];
      [apply IH| |apply IH].
    destruct (str_eqb name (lit "todo_write")); [|apply IH].
    cbn [TodoAgent.answerInOrder].
    destruct (TodoAgent.executeTodoWrite input manager disk) as [[result manager1] disk1].
    rewrite IH. cbv zeta.
    destruct (TodoAgent.answerInOrder (TodoAgent.todoWriteCalls blocks) manager1 disk1)
      as [[results2 manager2] disk2].
    cbn [fst snd]. by rewrite <- app_assoc.
Qed.

Lemma answerInOrder_ids calls manager disk :
  Anthropic.toolResultIds (TodoAgent.answerInOrder calls manager disk).1.1 = calls.*1
  /\ length (TodoAgent.answerInOrder calls manager disk).1.1 = length calls.
Proof.
  revert manager disk. induction calls as [|[id input] calls IH]; intros manager disk.
  - done.
  - simpl.
    destruct (TodoAgent.executeTodoWrite input manager disk) as [[result manager1] disk1].
    specialize (IH manager1 disk1).
    destruct (TodoAgent.answerInOrder calls manager1 disk1) as [[results manager2] disk2].
    simpl in *. destruct IH as [-> ->]. done.
Qed.

(** ** The sandboxed agent *)

Lemma executeTool_unknown `{fileSystem : Sandbox.SandboxedFileSystem}
    toolName input (tree : Sandbox.Tree) :
  toolName ∉ [lit "read_file"; lit "write_file"; lit "list_files"; lit "delete_file"] ->
  Sandbox.executeTool toolName input tree
  = ({| Sandbox.success := false; Sandbox.result_content := None;
        Sandbox.files := None;
        Sandbox.error := Some (lit "未知のツール: " ++ toolName) |}, tree).
Proof.
  intros Hname. unfold Sandbox.executeTool, str_eqb.
  repeat (rewrite bool_decide_eq_false_2; [|intros ->; apply Hname; set_solver]).
  done.
Qed.

Example sandbox_unknown_tool :
  Sandbox.JSON_stringify
    (Sandbox.executeTool (fileSystem := Samples.memoryFileSystem)
       (lit "fly") {| Sandbox.path := None; Sandbox.content := None |} []).1
  = lit "{" ++ quoted (lit "success") ++ lit ":false," ++ quoted (lit "error")
      ++ lit ":" ++ quoted (lit "未知のツール: fly") ++ lit "}".
Proof. reflexivity. Qed.

Example sandbox_two_tools_one_result :
  Sandbox.messages <$> Sandbox.executeFirstToolUse Samples.twoToolsFrame
  = Some (Sandbox.messages Samples.twoToolsFrame
            ++ [{| Anthropic.role := Anthropic.assistant;
                   Anthropic.content :=
                     Anthropic.Blocks (Anthropic.response_content Samples.asksForTwoTools) |};
                {| Anthropic.role := Anthropic.user;
                   Anthropic.content :=
                     Anthropic.Blocks
                       [Anthropic.ToolResultBlock (lit "toolu_01")
                          (lit "{" ++ quoted (lit "success") ++ lit ":true,"
                             ++ quoted (lit "content") ++ lit ":"
                             ++ quoted (lit "hello") ++ lit "}")
                          None] |}]).
Proof. reflexivity. Qed.

(** ** One iteration of each loop *)

(** What one iteration of each loop does. In an iteration of
    [runAgentWithTodos] the assistant turn and then one user turn are
    appended; the user turn holds one tool-result block per todo_write
    invocation of the response, in the order received, each invocation
    having run on the store as the ones before it left it; the next
    request carries these messages. An iteration of
    [SandboxedClaudeAgent.run] runs the first tool-use block of the
    response and appends one tool-result block, for that invocation. *)
Lemma tool_results_follow_invocations :
  (forall (client : Anthropic.Client TodoList) (f : TodoAgent.Frame),
     let calls :=
       TodoAgent.todoWriteCalls (Anthropic.response_content (TodoAgent.response f)) in
     let answered :=
       TodoAgent.answerInOrder calls (TodoAgent.manager f) (TodoAgent.disk f) in
     let f1 := TodoAgent.executeToolUses f in
     TodoAgent.messages f1
     = TodoAgent.messages f
         ++ [{| Anthropic.role := Anthropic.assistant;
                Anthropic.content :=
                  Anthropic.Blocks (Anthropic.response_content (TodoAgent.response f)) |};
             {| Anthropic.role := Anthropic.user;
                Anthropic.content := Anthropic.Blocks answered.1.1 |}]
     /\ Anthropic.toolResultIds answered.1.1 = calls.*1
     /\ length answered.1.1 = length calls
     /\ TodoAgent.manager f1 = answered.1.2
     /\ TodoAgent.disk f1 = answered.2
     /\ TodoAgent.iteration f
        = match
            Anthropic.messages_create
              (TodoAgent.createParams (TodoAgent.messages f1)) (TodoAgent.server f)
          with
          | (inl error, _) => throw error
          | (inr response1, server1) =>
              ok {| TodoAgent.response := response1;
                    TodoAgent.iterations := S (TodoAgent.iterations f);
                    TodoAgent.messages := TodoAgent.messages f1;
                    TodoAgent.manager := answered.1.2;
                    TodoAgent.disk := answered.2;
                    TodoAgent.server := server1 |}
          end)
  /\ (forall (fileSystem : Sandbox.SandboxedFileSystem)
        (client : Anthropic.Client Sandbox.ToolInput) (f : Sandbox.Frame)
        id name input,
        List.find Anthropic.is_tool_use (Anthropic.response_content (Sandbox.response f))
        = Some (Anthropic.ToolUseBlock id name input) ->
        exists f1,
          Sandbox.executeFirstToolUse f = Some f1
          /\ Sandbox.messages f1
             = Sandbox.messages f
                 ++ [{| Anthropic.role := Anthropic.assistant;
                        Anthropic.content :=
                          Anthropic.Blocks
                            (Anthropic.response_content (Sandbox.response f)) |};
                     {| Anthropic.role := Anthropic.user;
                        Anthropic.content :=
                          Anthropic.Blocks
                            [Anthropic.ToolResultBlock id
                               (Sandbox.JSON_stringify
                                  (Sandbox.executeTool name input (Sandbox.tree f)).1)
                               None] |}]
          /\ Sandbox.tree f1 = (Sandbox.executeTool name input (Sandbox.tree f)).2
          /\ Sandbox.iteration f
             = match
                 Anthropic.messages_create
                   (Sandbox.createParams (Sandbox.messages f1)) (Sandbox.server f)
               with
               | (inl error, _) => throw error
               | (inr response1, server1) =>
                   ok (Sandbox.Continue
                         {| Sandbox.response := response1;
                            Sandbox.iterationCount := S (Sandbox.iterationCount f);
                            Sandbox.messages := Sandbox.messages f1;
                            Sandbox.tree := Sandbox.tree f1;
                            Sandbox.server := server1 |})
               end).
Proof.
  split.
  - intros client f. cbv zeta.
    destruct (answerInOrder_ids
                (TodoAgent.todoWriteCalls (Anthropic.response_content (TodoAgent.response f)))
                (TodoAgent.manager f) (TodoAgent.disk f)) as [Hids Hlength].
    assert (Hbody :
      TodoAgent.executeToolUses f
      = {| TodoAgent.response := TodoAgent.response f;
           TodoAgent.iterations := S (TodoAgent.iterations f);
           TodoAgent.messages :=
             (TodoAgent.messages f
                ++ [{| Anthropic.role := Anthropic.assistant;
                       Anthropic.content :=
                         Anthropic.Blocks
                           (Anthropic.response_content (TodoAgent.response f)) |}])
               ++ [{| Anthropic.role := Anthropic.user;
                      Anthropic.content :=
                        Anthropic.Blocks
                          (TodoAgent.answerInOrder
                             (TodoAgent.todoWriteCalls
                                (Anthropic.response_content (TodoAgent.response f)))
                             (TodoAgent.manager f) (TodoAgent.disk f)).1.1 |}];
           TodoAgent.manager :=
             (TodoAgent.answerInOrder
                (TodoAgent.todoWriteCalls
                   (Anthropic.response_content (TodoAgent.response f)))
                (TodoAgent.manager f) (TodoAgent.disk f)).1.2;
           TodoAgent.disk :=
             (TodoAgent.answerInOrder
                (TodoAgent.todoWriteCalls
                   (Anthropic.response_content (TodoAgent.response f)))
                (TodoAgent.manager f) (TodoAgent.disk f)).2;
           TodoAgent.server := TodoAgent.server f |}).
    { unfold TodoAgent.executeToolUses. rewrite forToolUses_answerInOrder. done. }
    unfold TodoAgent.iteration. rewrite Hbody. cbn [TodoAgent.messages
      TodoAgent.manager TodoAgent.disk TodoAgent.server TodoAgent.iterations].
    rewrite <- app_assoc. done.
  - intros fileSystem client f id name input Hfind.
    unfold Sandbox.iteration, Sandbox.executeFirstToolUse. rewrite Hfind.
    destruct (Sandbox.executeTool name input (Sandbox.tree f)) as [toolResult tree1].
    eexists. split; [reflexivity|].
    cbn [Sandbox.messages Sandbox.tree Sandbox.server Sandbox.iterationCount fst snd].
    rewrite <- app_assoc. done.
Qed.

(** One tool-result block per tool-use block does not hold of the
    sandboxed agent: a response holds two tool-use blocks and the user
    turn that answers it holds one tool-result block. *)
Lemma sandboxed_agent_answers_first_tool_only :
  ~ (forall f f1 : @Sandbox.Frame Samples.memoryFileSystem
                     (Anthropic.scripted Sandbox.ToolInput),
       Sandbox.executeFirstToolUse f = Some f1 ->
       exists results,
         last (Sandbox.messages f1)
         = Some {| Anthropic.role := Anthropic.user;
                   Anthropic.content := Anthropic.Blocks results |}
         /\ length results
            = length (List.filter Anthropic.is_tool_use
                        (Anthropic.response_content (Sandbox.response f)))).
Proof.
  intros Hclaim.
  destruct (Hclaim Samples.twoToolsFrame _ eq_refl) as (results & Hlast & Hlength).
  vm_compute in Hlast. injection Hlast as <-.
  vm_compute in Hlength. discriminate.
Qed.

(** C8, evaluated where the code departs from it. The model asks the
    sandboxed agent for two tools in one response. The assistant turn
    appended holds both tool-use blocks; the user turn that follows
    holds one tool-result block, for the first of them: list_files is
    not run, toolu_02 gets no result, and the next request is sent with
    these turns as its last messages. The loop of the todo agent,
    given a response with two todo_write blocks, runs both and answers
    both, in the order received. *)
Theorem second_tool_use_gets_no_result :
  let f := Samples.twoToolsFrame in
  let turns :=
    Sandbox.messages f
      ++ [{| Anthropic.role := Anthropic.assistant;
             Anthropic.content :=
               Anthropic.Blocks
                 [Anthropic.ToolUseBlock (lit "toolu_01") (lit "read_file")
                    {| Sandbox.path := Some (lit "a.txt"); Sandbox.content := None |};
                  Anthropic.ToolUseBlock (lit "toolu_02") (lit "list_files")
                    {| Sandbox.path := None; Sandbox.content := None |}] |};
          {| Anthropic.role := Anthropic.user;
             Anthropic.content :=
               Anthropic.Blocks
                 [Anthropic.ToolResultBlock (lit "toolu_01")
                    (lit "{" ++ quoted (lit "success") ++ lit ":true,"
                       ++ quoted (lit "content") ++ lit ":"
                       ++ quoted (lit "hello") ++ lit "}")
                    None] |}] in
  Sandbox.messages <$> Sandbox.executeFirstToolUse f = Some turns
  /\ (exists f1,
        Sandbox.iteration f = ok (Sandbox.Continue f1)
        /\ Anthropic.messages <$> Anthropic.received (Sandbox.server f1) = [turns])
  /\ last (TodoAgent.messages (TodoAgent.executeToolUses Samples.twoWritesFrame))
     = Some {| Anthropic.role := Anthropic.user;
               Anthropic.content :=
                 Anthropic.Blocks
                   [Anthropic.ToolResultBlock (lit "toolu_01")
                      (lit "✅ タスクリストを更新しました。進捗: 0/1 (0%)") None;
                    Anthropic.ToolResultBlock (lit "toolu_02")
                      (lit "✅ タスクリストを更新しました。進捗: 1/1 (100%)") None] |}.
Proof.
  cbv zeta. split; [reflexivity|]. split.
  - eexists. split; reflexivity.
  - reflexivity.
Qed.

(** C7, evaluated where the code departs from it. The model asks the todo
    agent for read_file, which it has not registered: the user turn
    appended holds no block at all, and the next request is sent with
    that empty turn as its last message. *)
Theorem unknown_tool_gets_no_result :
  let f := Samples.unknownToolFrame in
  let turns :=
    TodoAgent.messages f
      ++ [{| Anthropic.role := Anthropic.assistant;
             Anthropic.content :=
               Anthropic.Blocks
                 [Anthropic.ToolUseBlock (lit "toolu_01") (lit "read_file")
                    {| todos := [] |}] |};
          {| Anthropic.role := Anthropic.user; Anthropic.content := Anthropic.Blocks [] |}] in
  TodoAgent.messages (TodoAgent.executeToolUses f) = turns
  /\ exists f1,
       TodoAgent.iteration f = ok f1
       /\ Anthropic.messages <$> Anthropic.received (TodoAgent.server f1) = [turns].
Proof.
  cbv zeta. split; [reflexivity|].
  eexists. split; reflexivity.
Qed.

End ToolLoopFacts.

(* ===================================================================== *)
(** * Properties of the orchestrator                                      *)
(* ===================================================================== *)

Section PromiseAllFacts.

Context {A : Type}.

Implicit Types (vs : list (option A)) (all : AllRecord A).

(** The slots still empty. *)
Lemma empty_slots_insert vs index x :
  vs !! index = Some None ->
  length (filter (fun v => v = None) (<[index := Some x]> vs))
  = pred (length (filter (fun v => v = None) vs)).
Proof.
  revert index. induction vs as [|v vs IH]; intros index Hslot.
  - by rewrite lookup_nil in Hslot.
  - destruct index as [|index]; simpl in Hslot.
    + injection Hslot as ->.
      change (<[0%nat := Some x]> (None :: vs)) with (Some x :: vs).
      rewrite filter_cons, decide_False by done.
      by rewrite filter_cons, decide_True by done.
    + change (<[S index := Some x]> (v :: vs)) with (v :: <[index := Some x]> vs).
      rewrite !filter_cons. case_decide; simpl; [|by apply IH].
      rewrite IH by done.
      assert (0 < length (filter (fun v => v = None) vs))%nat; [|lia].
      apply list_elem_of_lookup_2 in Hslot.
      assert (Hin : None ∈ filter (fun v : option A => v = None) vs)
        by (by apply list_elem_of_filter).
      destruct (filter (fun v : option A => v = None) vs);
        [by apply elem_of_nil in Hin|simpl; lia].
Qed.

Lemma all_slots_filled vs :
  (forall i, (i < length vs)%nat -> exists x, vs !! i = Some (Some x)) ->
  vs = Some <$> valuesList vs.
Proof.
  induction vs as [|v vs IH]; intros Hfilled; [done|].
  destruct (Hfilled 0%nat) as [x Hx]; [simpl; lia|].
  simpl in Hx. injection Hx as ->.
  unfold valuesList. simpl. f_equal. apply IH.
  intros i Hi. apply (Hfilled (S i)). simpl. lia.
Qed.

Lemma empty_slots_zero vs :
  length (filter (fun v => v = None) vs) = 0%nat ->
  forall i, (i < length vs)%nat -> exists x, vs !! i = Some (Some x).
Proof.
  intros Hnone i Hi.
  destruct (lookup_lt_is_Some_2 vs i Hi) as [[x|] Hx]; [by exists x|].
  apply list_elem_of_lookup_2 in Hx.
  assert (Hin : None ∈ filter (fun v : option A => v = None) vs)
    by (by apply list_elem_of_filter).
  destruct (filter (fun v : option A => v = None) vs);
    [by apply elem_of_nil in Hin|discriminate].
Qed.

End PromiseAllFacts.

Section OrchestratorFacts.

Import Orchestrator.

Context `{client : Anthropic.Client NoInput}.

Implicit Types (this : SubAgentOrchestrator) (tasks : list SubAgentTask)
  (all : AllRecord SubAgentResult) (schedule : list nat).

(** ** One branch *)

Lemma parallelBranch_cases this task server :
  parallelBranch this task server =
    match Map_get (agentName task) (subAgents this) with
    | None =>
        (ok {| result_agentName := agentName task; result := [];
               error := Some (lit "サブエージェント " ++ quoted (agentName task)
                                ++ lit " が見つかりません") |},
         server)
    | Some subAgent =>
        (ok match (execute subAgent (prompt task) server).1 with
            | inr text =>
                {| result_agentName := agentName task; result := text; error := None |}
            | inl thrown =>
                {| result_agentName := agentName task; result := [];
                   error := Some (errorMessage thrown) |}
            end,
         (execute subAgent (prompt task) server).2)
    end.
Proof.
  unfold parallelBranch, delegateToSubAgent.
  destruct (Map_get (agentName task) (subAgents this)) as [subAgent|]; [|done].
  by destruct (execute subAgent (prompt task) server) as [[thrown|text] server'].
Qed.

Lemma parallelBranch_fulfils this task server :
  exists r, (parallelBranch this task server).1 = ok r
            /\ result_agentName r = agentName task.
Proof.
  rewrite parallelBranch_cases.
  destruct (Map_get (agentName task) (subAgents this)) as [subAgent|]; simpl.
  - destruct (execute subAgent (prompt task) server).1; eauto.
  - eauto.
Qed.

(** ** The invariant of the fan-in *)

Lemma invariant_start this tasks :
  AllInvariant this tasks (Promise_all_start (length tasks)).
Proof.
  assert (Hempty : forall n,
    length (filter (fun v : option SubAgentResult => v = None) (replicate n None)) = n).
  { induction n as [|n IH]; [done|]. cbn [replicate].
    rewrite filter_cons, decide_True by done. cbn [length]. by rewrite IH. }
  split; unfold Promise_all_start; cbn [values remainingElementsCount settled].
  - apply length_replicate.
  - by rewrite Hempty.
  - by destruct tasks.
  - intros i r Hslot. apply lookup_replicate in Hslot as [? _]. discriminate.
Qed.

Lemma invariant_resolve this tasks all index task r :
  AllInvariant this tasks all ->
  tasks !! index = Some task ->
  values all !! index = Some None ->
  answers this task r ->
  AllInvariant this tasks (resolveElement index r all).
Proof.
  intros [Hlength Hcount Hsettled Hown] Htask Hslot Hanswer.
  assert (Hpositive : (0 < remainingElementsCount all)%nat).
  { rewrite Hcount. apply list_elem_of_lookup_2 in Hslot.
    assert (Hin : None ∈ filter (fun v : option SubAgentResult => v = None) (values all))
      by (by apply list_elem_of_filter).
    destruct (filter _ (values all)); [by apply elem_of_nil in Hin|simpl; lia]. }
  split; unfold resolveElement; cbn [values remainingElementsCount settled].
  - by rewrite length_insert.
  - rewrite empty_slots_insert by done. by rewrite Hcount.
  - rewrite Hsettled.
    destruct (remainingElementsCount all) as [|n]; [lia|]. done.
  - intros i r' Hi. destruct (decide (i = index)) as [->|Hne].
    + rewrite list_lookup_insert_eq in Hi by (by eapply lookup_lt_Some).
      injection Hi as <-. eauto.
    + rewrite list_lookup_insert_ne in Hi by done. eauto.
Qed.

(** ** The branches, once started *)

Lemma startBranches_started this tasks server :
  Forall2 (fun task settlement => exists r, settlement = ok r /\ answers this task r)
    tasks (startBranches this tasks server).1.
Proof.
  revert server. induction tasks as [|task tasks IH]; intros server; [by constructor|].
  cbn [startBranches].
  destruct (parallelBranch_fulfils this task server) as (r & Hr & _).
  destruct (parallelBranch this task server) as [settlement server1] eqn:Hbranch.
  specialize (IH server1).
  destruct (startBranches this tasks server1) as [later server2].
  cbn [fst] in *. constructor; [|done].
  exists r. split; [done|]. exists server. by rewrite Hbranch.
Qed.

Lemma settleBranches_invariant this tasks branches schedule all :
  Forall2 (fun task settlement => exists r, settlement = ok r /\ answers this task r)
    tasks branches ->
  AllInvariant this tasks all ->
  AllInvariant this tasks (settleBranches branches schedule all).
Proof.
  intros Hstarted. revert all.
  induction schedule as [|index later IH]; intros all Hinv; [done|].
  cbn [settleBranches].
  destruct (branches !! index) as [settlement|] eqn:Hbranch; [|by apply IH].
  destruct (values all !! index) as [[r0|]|] eqn:Hslot; [by apply IH| |by apply IH].
  destruct (Forall2_lookup_r _ _ _ _ _ Hstarted Hbranch)
    as (task & Htask & r & -> & Hanswers).
  apply IH. by eapply invariant_resolve.
Qed.

Lemma settleBranches_keeps_filled branches schedule all i r :
  values all !! i = Some (Some r) ->
  values (settleBranches branches schedule all) !! i = Some (Some r).
Proof.
  revert all. induction schedule as [|index later IH]; intros all Hfilled; [done|].
  cbn [settleBranches].
  destruct (branches !! index) as [[reason|x]|]; [| |by apply IH].
  - destruct (values all !! index) as [[r0|]|]; by apply IH.
  - destruct (values all !! index) as [[r0|]|] eqn:Hslot; [by apply IH| |by apply IH].
    apply IH. unfold resolveElement. cbn [values].
    rewrite list_lookup_insert_ne; [done|]. intros ->. congruence.
Qed.

Lemma settleBranches_fills this tasks branches schedule all i :
  Forall2 (fun task settlement => exists r, settlement = ok r /\ answers this task r)
    tasks branches ->
  AllInvariant this tasks all ->
  i ∈ schedule -> (i < length tasks)%nat ->
  exists r, values (settleBranches branches schedule all) !! i = Some (Some r).
Proof.
  intros Hstarted. revert all.
  induction schedule as [|index later IH]; intros all Hinv Hin Hi.
  - by apply elem_of_nil in Hin.
  - cbn [settleBranches]. destruct (decide (i = index)) as [Heq|Hne].
    + subst i. destruct (lookup_lt_is_Some_2 tasks index Hi) as [task Htask].
      destruct (Forall2_lookup_l _ _ _ _ _ Hstarted Htask)
        as (settlement & Hbranch & x & -> & Hanswers).
      unfold Result in *. rewrite Hbranch.
      assert (Hslots : (index < length (values all))%nat)
        by (by rewrite (slots_match_tasks _ _ _ Hinv)).
      destruct (lookup_lt_is_Some_2 _ _ Hslots) as [[r0|] Hslot]; rewrite Hslot.
      * exists r0. by apply settleBranches_keeps_filled.
      * exists x. apply settleBranches_keeps_filled. unfold resolveElement.
        cbn [values]. by apply list_lookup_insert_eq.
    + apply elem_of_cons in Hin as [?|Hin]; [done|].
      destruct (branches !! index) as [settlement|] eqn:Hbranch; [|by apply IH].
      destruct (values all !! index) as [[r0|]|] eqn:Hslot;
        [by apply IH| |by apply IH].
      destruct (Forall2_lookup_r _ _ _ _ _ Hstarted Hbranch)
        as (task & Htask & x & -> & Hanswers).
      apply IH; [|done..]. by eapply invariant_resolve.
Qed.

Lemma settleBranches_remaining branches schedule all :
  (remainingElementsCount all
   <= remainingElementsCount (settleBranches branches schedule all)
      + length schedule)%nat.
Proof.
  revert all. induction schedule as [|index later IH]; intros all.
  - cbn [settleBranches length]. lia.
  - cbn [settleBranches length].
    destruct (branches !! index) as [[reason|x]|]; [| |specialize (IH all); lia].
    + destruct (values all !! index) as [[r0|]|]; [specialize (IH all); lia| |
        specialize (IH all); lia].
      specialize (IH (rejectElement reason all)).
      unfold rejectElement in IH at 1. cbn [remainingElementsCount] in IH. lia.
    + destruct (values all !! index) as [[r0|]|]; [specialize (IH all); lia| |
        specialize (IH all); lia].
      specialize (IH (resolveElement index x all)).
      unfold resolveElement in IH at 1. cbn [remainingElementsCount] in IH. lia.
Qed.

(** ** The whole call *)

Lemma delegateParallel_settled this tasks schedule server :
  (delegateParallel this tasks schedule server).1
  = settled (settleBranches (startBranches this tasks server).1 schedule
               (Promise_all_start (length tasks))).
Proof.
  unfold delegateParallel.
  by destruct (startBranches this tasks server).
Qed.

Lemma delegateParallel_complete this tasks schedule server :
  (forall i, (i < length tasks)%nat -> i ∈ schedule) ->
  exists results,
    (delegateParallel this tasks schedule server).1 = Some (ok results)
    /\ length results = length tasks
    /\ forall i task, tasks !! i = Some task ->
         exists r, results !! i = Some r /\ answers this task r.
Proof.
  intros Hcovers. rewrite delegateParallel_settled.
  pose proof (startBranches_started this tasks server) as Hstarted.
  pose proof (settleBranches_invariant this tasks _ schedule _ Hstarted
                (invariant_start this tasks)) as Hinv.
  set (all := settleBranches (startBranches this tasks server).1 schedule
                (Promise_all_start (length tasks))) in *.
  assert (Hfilled : forall i, (i < length (values all))%nat ->
            exists r, values all !! i = Some (Some r)).
  { intros i Hi. rewrite (slots_match_tasks _ _ _ Hinv) in Hi.
    eapply settleBranches_fills;
      [done|apply invariant_start|by apply Hcovers|done]. }
  pose proof (all_slots_filled _ Hfilled) as Hvalues.
  exists (valuesList (values all)). split; [|split].
  - rewrite (settled_when_full _ _ _ Hinv), (count_is_empty_slots _ _ _ Hinv).
    rewrite Hvalues at 1.
    assert (Hnone : forall rs : list SubAgentResult,
              filter (fun v : option SubAgentResult => v = None) (Some <$> rs) = []).
    { induction rs as [|r rs IH]; [done|]. rewrite fmap_cons.
      by rewrite filter_cons, decide_False. }
    by rewrite Hnone.
  - rewrite <- (slots_match_tasks _ _ _ Hinv). rewrite Hvalues at 2.
    by rewrite length_fmap.
  - intros i task Htask.
    destruct (Hfilled i) as [r Hr].
    { rewrite (slots_match_tasks _ _ _ Hinv). by eapply lookup_lt_Some. }
    exists r. split.
    + rewrite Hvalues, list_lookup_fmap in Hr.
      destruct (valuesList (values all) !! i); simpl in Hr; congruence.
    + destruct (slots_hold_own_results _ _ _ Hinv i r Hr) as (task1 & Htask1 & Hanswers).
      congruence.
Qed.

Lemma delegateParallel_pending this tasks schedule server :
  (length schedule < length tasks)%nat ->
  (delegateParallel this tasks schedule server).1 = None.
Proof.
  intros Hshort. rewrite delegateParallel_settled.
  pose proof (settleBranches_invariant this tasks _ schedule _
                (startBranches_started this tasks server)
                (invariant_start this tasks)) as Hinv.
  pose proof (settleBranches_remaining (startBranches this tasks server).1 schedule
                (Promise_all_start (length tasks))) as Hcount.
  cbn [Promise_all_start remainingElementsCount] in Hcount.
  rewrite (settled_when_full _ _ _ Hinv).
  destruct (remainingElementsCount _) eqn:Hremaining; [lia|done].
Qed.

Lemma schedule_covers tasks schedule :
  schedule ≡ₚ seq 0 (length tasks) ->
  forall i, (i < length tasks)%nat -> i ∈ schedule.
Proof. intros Hperm i Hi. rewrite Hperm. apply elem_of_seq. lia. Qed.

Lemma answers_own_name this task r :
  answers this task r -> result_agentName r = agentName task.
Proof.
  intros [server Hr].
  destruct (parallelBranch_fulfils this task server) as (r1 & Hr1 & Hname).
  unfold ok in *. congruence.
Qed.

(** C4. Whatever the order in which the branches settle, the call
    returns one result per task, the i-th result being that of the
    branch of the i-th task; and it has not returned while fewer
    branches have settled than there are tasks. *)
Theorem delegateParallel_keeps_input_order this tasks schedule server :
  schedule ≡ₚ seq 0 (length tasks) ->
  exists results,
    (delegateParallel this tasks schedule server).1 = Some (ok results)
    /\ length results = length tasks
    /\ (forall i task, tasks !! i = Some task ->
          exists r, results !! i = Some r
                    /\ result_agentName r = agentName task
                    /\ answers this task r)
    /\ (forall earlier, (length earlier < length tasks)%nat ->
          (delegateParallel this tasks earlier server).1 = None).
Proof.
  intros Hperm.
  destruct (delegateParallel_complete this tasks schedule server
              (schedule_covers tasks schedule Hperm))
    as (results & Hreturns & Hlength & Hresults).
  exists results. split; [done|]. split; [done|]. split.
  - intros i task Htask. destruct (Hresults i task Htask) as (r & Hr & Hanswers).
    exists r. split; [done|]. split; [|done]. by eapply answers_own_name.
  - intros earlier Hshort. by apply delegateParallel_pending.
Qed.

(** C6. Whatever the order in which the branches settle, the call
    returns and does not throw; the branch of a task whose agent is not
    registered yields a result with the error message and an empty
    result text; and the result of every other branch is decided by its
    own sub-agent call alone: the text when the call returns, the error
    message when it throws. *)
Theorem delegateParallel_isolates_failures this tasks schedule server :
  schedule ≡ₚ seq 0 (length tasks) ->
  exists results,
    (delegateParallel this tasks schedule server).1 = Some (ok results)
    /\ (forall i task, tasks !! i = Some task ->
          Map_get (agentName task) (subAgents this) = None ->
          results !! i
          = Some {| result_agentName := agentName task; result := [];
                    error := Some (lit "サブエージェント " ++ quoted (agentName task)
                                     ++ lit " が見つかりません") |})
    /\ (forall j task subAgent, tasks !! j = Some task ->
          Map_get (agentName task) (subAgents this) = Some subAgent ->
          exists server_j,
            results !! j
            = Some match (execute subAgent (prompt task) server_j).1 with
                   | inr text =>
                       {| result_agentName := agentName task; result := text;
                          error := None |}
                   | inl thrown =>
                       {| result_agentName := agentName task; result := [];
                          error := Some (errorMessage thrown) |}
                   end).
Proof.
  intros Hperm.
  destruct (delegateParallel_complete this tasks schedule server
              (schedule_covers tasks schedule Hperm))
    as (results & Hreturns & _ & Hresults).
  exists results. split; [done|]. split.
  - intros i task Htask Hmissing.
    destruct (Hresults i task Htask) as (r & Hr & server_i & Hanswer).
    rewrite parallelBranch_cases, Hmissing in Hanswer. simpl in Hanswer.
    injection Hanswer as <-. done.
  - intros j task subAgent Htask Hregistered.
    destruct (Hresults j task Htask) as (r & Hr & server_j & Hanswer).
    rewrite parallelBranch_cases, Hregistered in Hanswer. simpl in Hanswer.
    injection Hanswer as <-. by exists server_j.
Qed.

(** ** The sequential loop *)

Lemma forTasks_stops_at_throw this task rest results server thrown :
  (delegateToSubAgent this (agentName task) (prompt task) server).1 = throw thrown ->
  forTasks this (task :: rest) results server
  = (throw thrown, (delegateToSubAgent this (agentName task) (prompt task) server).2).
Proof.
  intros Hthrows. simpl.
  destruct (delegateToSubAgent this (agentName task) (prompt task) server)
    as [[e|text] server1]; simpl in Hthrows; [|discriminate].
  by injection Hthrows as ->.
Qed.

End OrchestratorFacts.

Section OrchestratorExamples.

Import Orchestrator.

#[local] Existing Instance Samples.scriptedClient.

Lemma delegateParallel_keeps_input_order_witness :
  exists results,
    (delegateParallel Samples.team Samples.threeTasks [2; 1; 0]%nat
       (Samples.playing [ok (Samples.finalAnswer "reviewed"); ok (Samples.finalAnswer "written")])).1
    = Some (ok results)
    /\ length results = length Samples.threeTasks
    /\ (forall (i : nat) task, Samples.threeTasks !! i = Some task ->
          exists r, results !! i = Some r
                    /\ result_agentName r = agentName task
                    /\ answers Samples.team task r)
    /\ (forall earlier, (length earlier < length Samples.threeTasks)%nat ->
          (delegateParallel Samples.team Samples.threeTasks earlier
             (Samples.playing [ok (Samples.finalAnswer "reviewed");
                               ok (Samples.finalAnswer "written")])).1 = None).
Proof.
  apply (delegateParallel_keeps_input_order Samples.team Samples.threeTasks
           [2; 1; 0]%nat).
  vm_compute. solve_Permutation.
Defined.

Lemma delegateParallel_isolates_failures_witness :
  exists results,
    (delegateParallel Samples.team Samples.threeTasks [2; 1; 0]%nat
       (Samples.playing [ok (Samples.finalAnswer "reviewed"); ok (Samples.finalAnswer "written")])).1
    = Some (ok results)
    /\ (forall (i : nat) task, Samples.threeTasks !! i = Some task ->
          Map_get (agentName task) (subAgents Samples.team) = None ->
          results !! i
          = Some {| result_agentName := agentName task; result := [];
                    error := Some (lit "サブエージェント " ++ quoted (agentName task)
                                     ++ lit " が見つかりません") |})
    /\ (forall (j : nat) task subAgent, Samples.threeTasks !! j = Some task ->
          Map_get (agentName task) (subAgents Samples.team) = Some subAgent ->
          exists server_j,
            results !! j
            = Some match (execute subAgent (prompt task) server_j).1 with
                   | inr text =>
                       {| result_agentName := agentName task; result := text;
                          error := None |}
                   | inl thrown =>
                       {| result_agentName := agentName task; result := [];
                          error := Some (errorMessage thrown) |}
                   end).
Proof.
  apply (delegateParallel_isolates_failures Samples.team Samples.threeTasks
           [2; 1; 0]%nat).
  vm_compute. solve_Permutation.
Defined.

(** The three tasks again, the requests leaving in the order of the
    tasks and the reply to the reviewer coming in first, that to the
    coder last: the results come back in the order of the tasks, the
    failed branch between the two that succeeded. *)
Example delegateParallel_three_tasks :
  (delegateParallel Samples.team Samples.threeTasks [2; 1; 0]%nat
     (Samples.playing [ok (Samples.finalAnswer "written"); ok (Samples.finalAnswer "reviewed")])).1
  = Some (ok [ {| result_agentName := lit "coder"; result := lit "written"; error := None |};
               {| result_agentName := lit "ghost"; result := [];
                  error := Some (lit "サブエージェント " ++ quoted (lit "ghost")
                                   ++ lit " が見つかりません") |};
               {| result_agentName := lit "reviewer"; result := lit "reviewed";
                  error := None |} ]).
Proof. reflexivity. Qed.

(** C5, evaluated where the code departs from it. A sequential plan
    whose first task names an unregistered agent: the loop throws at
    that task, no result is collected, the second task is never sent
    (the remote side is as before), and [orchestrate] throws the same
    error after its planning request, without a synthesis request. *)
Theorem sequential_failure_ends_the_plan :
  let server := Samples.playing [ok (Samples.finalAnswer "written")] in
  let notFound :=
    ErrorObject (lit "Error")
      (lit "サブエージェント " ++ quoted (lit "ghost") ++ lit " が見つかりません") in
  forTasks Samples.team (tasks Samples.ghostFirst) [] server = (throw notFound, server)
  /\ runTasks Samples.team Samples.ghostFirst [] server = (Some (throw notFound), server)
  /\ exists server1,
       orchestrate (fun _ => ok Samples.ghostFirst) Samples.team (lit "build it") []
         (Samples.playing [ok (Samples.finalAnswer "the plan");
                           ok (Samples.finalAnswer "written");
                           ok (Samples.finalAnswer "the summary")])
       = (Some (throw notFound), server1)
       /\ length (Anthropic.received server1) = 1%nat
       /\ Anthropic.replies server1
          = [ok (Samples.finalAnswer "written"); ok (Samples.finalAnswer "the summary")].
Proof.
  cbv zeta. split; [reflexivity|]. split; [reflexivity|].
  eexists. split; [reflexivity|]. split; reflexivity.
Qed.

(** The same two tasks through [delegateParallel]: the failure is kept
    in the first result and the second task runs. *)
Example delegateParallel_same_tasks :
  (delegateParallel Samples.team (tasks Samples.ghostFirst) [0; 1]%nat
     (Samples.playing [ok (Samples.finalAnswer "written")])).1
  = Some (ok [ {| result_agentName := lit "ghost"; result := [];
                  error := Some (lit "サブエージェント " ++ quoted (lit "ghost")
                                   ++ lit " が見つかりません") |};
               {| result_agentName := lit "coder"; result := lit "written";
                  error := None |} ]).
Proof. reflexivity. Qed.

End OrchestratorExamples.

(* ===================================================================== *)
(** * More on TodoManager                                                 *)
(* ===================================================================== *)

Section TodoStoreMore.

Import TodoStore Notions.

Implicit Types (todos : list Todo) (this : TodoManager) (disk : Disk).

(** ** Which lists are accepted *)

Lemma validate_accepts_wellFormed todos :
  validate todos = ok tt <->
  todos <> [] /\ (inProgressCount todos <= 1)%nat /\ Forall wellFormed todos.
Proof.
  split.
  - intros Hvalid. apply validate_ok_inv in Hvalid as (Hne & Hcount & Hall).
    split; [done|]. split; [done|].
    apply Forall_lookup. intros j t Hj. by apply (validateTodo_ok t j), Hall.
  - intros (Hne & Hcount & Hall). unfold validate.
    destruct todos as [|t0 todos]; [done|].
    change (length (t0 :: todos) =? 0)%nat with false. cbv iota.
    apply Nat.ltb_ge in Hcount. rewrite Hcount.
    apply forEach_from_ok. intros j t Hj. apply validateTodo_ok.
    by apply (Forall_lookup_1 _ _ _ _ Hall Hj).
Qed.

Lemma forallb_false_elem {A} (f : A -> bool) (l : list A) :
  forallb f l = false <-> exists x, x ∈ l /\ f x = false.
Proof.
  induction l as [|a l IH]; simpl.
  - split; [discriminate|]. intros (x & Hx & _). by apply elem_of_nil in Hx.
  - rewrite andb_false_iff, IH. split.
    + intros [Ha|(x & Hx & Hfx)]; [exists a|exists x]; split; try done;
        [by left|by right].
    + intros (x & Hx & Hfx). apply elem_of_cons in Hx as [->|Hx]; [by left|].
      right. by exists x.
Qed.

Lemma blank_iff_no_text (s : jsstring) :
  falsy s || str_eqb (trim s) [] = false <-> hasText s.
Proof.
  unfold hasText. rewrite <- forallb_false_elem.
  unfold str_eqb. destruct (forallb isWhiteSpace s) eqn:Hall.
  - split; [|discriminate]. intros Hblank.
    apply orb_false_iff in Hblank as [_ Htrim].
    apply bool_decide_eq_false in Htrim. by apply trim_nil in Hall.
  - split; [done|]. intros _. apply orb_false_iff. split.
    + by destruct s.
    + apply bool_decide_eq_false. rewrite trim_nil. congruence.
Qed.

Lemma valid_status_iff todo :
  invalidStatus todo = false <->
  status todo ∈ [lit "pending"; lit "in_progress"; lit "completed"].
Proof.
  split.
  - intros H. apply valid_status_cases in H as [Hs | [Hs | Hs]];
      rewrite Hs; set_solver.
  - intros H. unfold invalidStatus, includes, str_eqb. cbn [existsb].
    apply negb_false_iff.
    repeat (apply elem_of_cons in H as [->|H]);
      [..|by apply elem_of_nil in H];
      rewrite ?orb_true_iff;
      [left|right; left|right; right; left]; by apply bool_decide_eq_true.
Qed.

Lemma wellFormed_iff todo :
  wellFormed todo <->
  hasText (content todo) /\ hasText (activeForm todo)
  /\ status todo ∈ [lit "pending"; lit "in_progress"; lit "completed"].
Proof.
  unfold wellFormed. rewrite !orb_false_iff.
  unfold emptyContent, emptyActiveForm. rewrite !blank_iff_no_text.
  assert (Hstatus : invalidStatus todo = false <->
            status todo ∈ [lit "pending"; lit "in_progress"; lit "completed"]).
  { split.
    - intros H. apply valid_status_cases in H as [Hs | [Hs | Hs]];
        rewrite Hs; set_solver.
    - intros H. unfold invalidStatus, includes, str_eqb. cbn [existsb].
      apply negb_false_iff.
      repeat (apply elem_of_cons in H as [->|H]);
        [..|by apply elem_of_nil in H];
        rewrite ?orb_true_iff;
        [left|right; left|right; right; left]; by apply bool_decide_eq_true. }
  rewrite Hstatus. tauto.
Qed.

(** X1. [validate] returns, and so [update] accepts, exactly the lists
    that are not empty, hold at most one task in progress, and whose
    every task has a content and an activeForm with a character that is
    not white space and one of the three statuses. *)
Theorem validate_accepts_iff todos :
  validate todos = ok tt <->
  todos <> [] /\ (inProgressCount todos <= 1)%nat
  /\ forall todo, todo ∈ todos ->
       hasText (content todo) /\ hasText (activeForm todo)
       /\ status todo ∈ [lit "pending"; lit "in_progress"; lit "completed"].
Proof.
  rewrite validate_accepts_wellFormed, Forall_forall.
  split; intros (Hne & Hcount & Hall); (split; [done|]); (split; [done|]);
    intros todo Hin; apply wellFormed_iff; auto.
Qed.

(** X2. Whether a list is accepted does not depend on the order of its
    tasks (which error a rejected list reports does). *)
Theorem validate_accepts_any_order todos todos1 :
  todos ≡ₚ todos1 ->
  validate todos = ok tt -> validate todos1 = ok tt.
Proof.
  intros Hperm. rewrite !validate_accepts_wellFormed.
  intros (Hne & Hcount & Hall). split; [|split].
  - intros ->. by apply Permutation_nil_r in Hperm.
  - unfold inProgressCount in *. by rewrite <- Hperm.
  - by rewrite <- Hperm.
Qed.

Lemma validate_accepts_any_order_witness :
  validate (rev Samples.oneInProgress) = ok tt.
Proof.
  apply (validate_accepts_any_order Samples.oneInProgress).
  - apply Permutation_rev.
  - reflexivity.
Defined.

(** ** Persistence *)

Lemma save_writable this disk :
  this_todoFile this ∉ writeFails disk ->
  save this disk
  = {| files := <[this_todoFile this := Document {| todos := this_todos this |}]>
                  (files disk);
       writeFails := writeFails disk;
       writeTruncates := writeTruncates disk |}.
Proof. intros Hok. unfold save. by rewrite bool_decide_eq_false_2. Qed.

Lemma save_failing_at_open this disk :
  this_todoFile this ∈ writeFails disk ->
  this_todoFile this ∉ writeTruncates disk ->
  save this disk = disk.
Proof.
  intros Hfails Hopen. unfold save.
  by rewrite bool_decide_eq_true_2, bool_decide_eq_false_2.
Qed.

Lemma save_failing_after_open this disk :
  this_todoFile this ∈ writeFails disk ->
  this_todoFile this ∈ writeTruncates disk ->
  save this disk
  = {| files := <[this_todoFile this := Unparsable]> (files disk);
       writeFails := writeFails disk;
       writeTruncates := writeTruncates disk |}.
Proof. intros Hfails Hlate. unfold save. by rewrite !bool_decide_eq_true_2. Qed.

Lemma save_twice this disk : save this (save this disk) = save this disk.
Proof.
  destruct (decide (this_todoFile this ∈ writeFails disk)) as [Hfails|Hok].
  - destruct (decide (this_todoFile this ∈ writeTruncates disk)) as [Hlate|Hopen].
    + rewrite (save_failing_after_open this disk Hfails Hlate).
      rewrite save_failing_after_open by done.
      cbn [files writeFails writeTruncates]. by rewrite insert_insert_eq.
    + rewrite (save_failing_at_open this disk Hfails Hopen).
      by apply save_failing_at_open.
  - rewrite (save_writable this disk Hok).
    rewrite save_writable by done. cbn [files writeFails writeTruncates].
    by rewrite insert_insert_eq.
Qed.

(** X3. An accepted update, made again with the same list, is accepted
    again and changes nothing: the object, the disk and the statistics
    are as the first call left them. *)
Theorem update_twice todos this disk this1 disk1 :
  update todos this disk = (ok tt, this1, disk1) ->
  update todos this1 disk1 = (ok tt, this1, disk1).
Proof.
  intros Hfirst.
  apply update_ok_inv in Hfirst as (Hvalid & Hstored & Hfile & ->).
  unfold update. rewrite Hvalid.
  destruct this1 as [stored file]. simpl in Hstored. subst stored.
  cbn [this_todoFile]. by rewrite save_twice.
Qed.

Lemma update_twice_witness :
  let first := update Samples.oneInProgress (constructor None Samples.blankDisk)
                 Samples.blankDisk in
  update Samples.oneInProgress first.1.2 first.2 = (ok tt, first.1.2, first.2).
Proof.
  intros first. apply (update_twice _ (constructor None Samples.blankDisk)
                         Samples.blankDisk).
  reflexivity.
Defined.

(** X4. After an accepted update, when the write to the file does not
    fail, a manager constructed on the same file holds the list that was
    accepted. *)
Theorem update_then_reload todos this disk this1 disk1 :
  update todos this disk = (ok tt, this1, disk1) ->
  this_todoFile this ∉ writeFails disk ->
  getAll (constructor (Some (this_todoFile this)) disk1) = todos.
Proof.
  intros Hupdate Hok.
  apply update_ok_inv in Hupdate as (_ & Hstored & Hfile & ->).
  rewrite save_writable by (by rewrite Hfile). rewrite Hfile, Hstored.
  apply (constructor_adopts_document _ _ {| todos := todos |}).
  cbn [default files]. apply lookup_insert_eq.
Qed.

Lemma update_then_reload_witness :
  getAll (constructor (Some (lit ".todos.json"))
            (update Samples.oneInProgress (constructor None Samples.blankDisk)
               Samples.blankDisk).2)
  = Samples.oneInProgress.
Proof.
  apply (update_then_reload Samples.oneInProgress
           (constructor None Samples.blankDisk) Samples.blankDisk
           (update Samples.oneInProgress (constructor None Samples.blankDisk)
              Samples.blankDisk).1.2).
  - reflexivity.
  - vm_compute. set_solver.
Defined.



(** ** Queries *)

Lemma find_head_filter todos st :
  List.find (fun t => str_eqb (status t) st) todos
  = head (filter (fun t => status t = st) todos).
Proof.
  induction todos as [|t todos IH]; [done|].
  rewrite filter_cons. cbn [List.find]. unfold str_eqb at 1.
  case_decide.
  - by rewrite bool_decide_eq_true_2.
  - by rewrite bool_decide_eq_false_2.
Qed.

(** X6. After an accepted update [getInProgress] returns the only task
    in progress: the tasks [getByStatus] finds with that status are that
    task alone, or none when it returns null. *)
Theorem getInProgress_after_update todos this disk this1 disk1 :
  update todos this disk = (ok tt, this1, disk1) ->
  getByStatus (lit "in_progress") this1
  = match getInProgress this1 with
    | Some todo => [todo]
    | None => []
    end.
Proof.
  intros Hupdate. apply update_ok_inv in Hupdate as (Hvalid & Hstored & _).
  apply validate_ok_inv in Hvalid as (_ & Hcount & _).
  unfold getInProgress, getByStatus. rewrite find_head_filter, Hstored.
  unfold inProgressCount in Hcount.
  destruct (filter _ todos) as [|t [|t1 rest]]; simpl in *; [done..|lia].
Qed.

Lemma getInProgress_after_update_witness :
  let this1 := (update Samples.oneInProgress (constructor None Samples.blankDisk)
                  Samples.blankDisk).1.2 in
  getByStatus (lit "in_progress") this1
  = match getInProgress this1 with
    | Some todo => [todo]
    | None => []
    end.
Proof.
  intros this1.
  eapply (getInProgress_after_update Samples.oneInProgress
            (constructor None Samples.blankDisk) Samples.blankDisk).
  reflexivity.
Defined.

Lemma status_counts_bounded todos :
  (length (filter (fun t => status t = lit "pending") todos)
   + length (filter (fun t => status t = lit "in_progress") todos)
   + length (filter (fun t => status t = lit "completed") todos)
   <= length todos)%nat
  /\ ((length (filter (fun t => status t = lit "pending") todos)
       + length (filter (fun t => status t = lit "in_progress") todos)
       + length (filter (fun t => status t = lit "completed") todos)
       = length todos)%nat
      <-> Forall (fun t => invalidStatus t = false) todos).
Proof.
  destruct status_literals_distinct as (Hpi & Hpc & Hic).
  induction todos as [|t todos [IHle IHeq]].
  - split; [done|]. split; [by constructor|done].
  - rewrite !filter_cons, Forall_cons, <- IHeq.
    assert (Hvalid : invalidStatus t = false <->
              status t = lit "pending" \/ status t = lit "in_progress"
              \/ status t = lit "completed").
    { split; [apply valid_status_cases|].
      unfold invalidStatus, includes, str_eqb. cbn [existsb].
      intros H. apply negb_false_iff. rewrite !orb_true_iff, !bool_decide_eq_true.
      tauto. }
    rewrite Hvalid.
    repeat case_decide; cbn [length]; split; try lia; try congruence;
      try (split; [intros; split; [tauto|lia] | intros [_ ?]; lia]);
      try (split; [lia | intros [[?|[?|?]] _]; congruence]).
Qed.

(** X7. For every store, validated or not, the three counts of
    [getStats] never exceed the total, they add up to it exactly when
    every task has one of the three statuses, and an empty store has
    progress 0. *)
Theorem getStats_counts this :
  let stats := getStats this in
  total stats = length (getAll this)
  /\ (pending stats + inProgress stats + completed stats <= total stats)%nat
  /\ ((pending stats + inProgress stats + completed stats = total stats)%nat
      <-> forall todo, todo ∈ getAll this ->
            status todo ∈ [lit "pending"; lit "in_progress"; lit "completed"])
  /\ (getAll this = [] -> progress stats = 0%Z).
Proof.
  cbv zeta. unfold getStats, getByStatus, getAll.
  cbn [total pending inProgress completed progress].
  destruct (status_counts_bounded (this_todos this)) as [Hle Heq].
  split; [done|]. split; [done|]. split.
  - rewrite Heq, Forall_forall. split; intros Hall todo Hin.
    + specialize (Hall todo Hin). apply valid_status_iff in Hall. done.
    + apply valid_status_iff. by apply Hall.
  - by intros ->.
Qed.

(** ** Emptying the store *)

(** X8. [update] never leaves the store empty; [clear] does, and when
    the write does not fail the file then holds the empty list, which a
    manager constructed on it adopts although [update] rejects it. *)
Theorem only_clear_empties this disk :
  (forall todos this1 disk1,
     update todos this disk = (ok tt, this1, disk1) -> getAll this1 <> [])
  /\ getAll (clear this disk).1 = []
  /\ (this_todoFile this ∉ writeFails disk ->
      files (clear this disk).2 !! this_todoFile this = Some (Document {| todos := [] |})
      /\ getAll (constructor (Some (this_todoFile this)) (clear this disk).2) = [])
  /\ validate (getAll (clear this disk).1) = throw EmptyList.
Proof.
  split; [|split; [done|split; [|done]]].
  - intros todos this1 disk1 Hupdate.
    apply update_ok_inv in Hupdate as (Hvalid & Hstored & _).
    apply validate_ok_inv in Hvalid as (Hne & _). unfold getAll. congruence.
  - intros Hok. unfold clear. cbn [fst snd].
    rewrite save_writable by done. cbn [files this_todoFile this_todos].
    split; [apply lookup_insert_eq|].
    apply (constructor_adopts_document _ _ {| todos := [] |}).
    cbn [default files]. apply lookup_insert_eq.
Qed.

(** X9. A manager constructed on a file that does not exist, or that
    cannot be read as JSON, starts empty: no task, none in progress,
    all statistics 0. *)
Theorem constructor_without_document todoFile disk :
  files disk !! default (lit ".todos.json") todoFile = None
  \/ files disk !! default (lit ".todos.json") todoFile = Some Unparsable ->
  let this := constructor todoFile disk in
  getAll this = [] /\ getInProgress this = None
  /\ getStats this
     = {| total := 0; pending := 0; inProgress := 0; completed := 0; progress := 0 |}.
Proof.
  intros Hfile. cbv zeta.
  assert (Hempty : constructor todoFile disk
            = {| this_todos := [];
                 this_todoFile := default (lit ".todos.json") todoFile |}).
  { unfold constructor, load. cbn [this_todoFile this_todos].
    by destruct Hfile as [-> | ->]. }
  rewrite Hempty. done.
Qed.

Lemma constructor_without_document_witness :
  let this := constructor None Samples.blankDisk in
  getAll this = [] /\ getInProgress this = None
  /\ getStats this
     = {| total := 0; pending := 0; inProgress := 0; completed := 0; progress := 0 |}.
Proof.
  apply (constructor_without_document None Samples.blankDisk).
  left. reflexivity.
Defined.

End TodoStoreMore.

(* ===================================================================== *)
(** * More on the todo agent                                              *)
(* ===================================================================== *)

Section TodoAgentMore.

Import TodoStore Notions.

Context `{client : Anthropic.Client TodoList}.

Implicit Types (f : TodoAgent.Frame).

(** ** The tool handler *)

Lemma executeTodoWrite_outcome input manager disk :
  let '(text, manager1, disk1) := TodoAgent.executeTodoWrite input manager disk in
  match validate (todos input) with
  | inr _ =>
      startsWith (lit "✅ タスクリストを更新しました。") text = true
      /\ getAll manager1 = todos input
  | inl e =>
      text = lit "❌ エラー: " ++ message e /\ manager1 = manager /\ disk1 = disk
  end.
Proof.
  unfold TodoAgent.executeTodoWrite, update.
  destruct (validate (todos input)) as [e|[]]; done.
Qed.

Lemma executeTodoWrite_keeps_file input manager disk :
  this_todoFile (TodoAgent.executeTodoWrite input manager disk).1.2
  = this_todoFile manager.
Proof.
  unfold TodoAgent.executeTodoWrite, update.
  by destruct (validate (todos input)) as [e|[]].
Qed.

Lemma executeTodoWrite_keeps_invariant input manager disk :
  (inProgressCount (getAll manager) <= 1)%nat ->
  (inProgressCount (getAll (TodoAgent.executeTodoWrite input manager disk).1.2) <= 1)%nat.
Proof.
  intros Hinv. unfold TodoAgent.executeTodoWrite, update.
  destruct (validate (todos input)) as [e|[]] eqn:Hvalid; cbn [fst snd]; [done|].
  by apply validate_ok_inv in Hvalid as (_ & Hcount & _).
Qed.

Lemma answerInOrder_keeps_file calls manager disk :
  this_todoFile (TodoAgent.answerInOrder calls manager disk).1.2
  = this_todoFile manager.
Proof.
  revert manager disk. induction calls as [|[id input] calls IH]; intros manager disk.
  - done.
  - cbn [TodoAgent.answerInOrder].
    pose proof (executeTodoWrite_keeps_file input manager disk) as Hfile1.
    destruct (TodoAgent.executeTodoWrite input manager disk) as [[result manager1] disk1].
    specialize (IH manager1 disk1).
    destruct (TodoAgent.answerInOrder calls manager1 disk1) as [[results manager2] disk2].
    cbn [fst snd] in *. congruence.
Qed.

Lemma answerInOrder_keeps_invariant calls manager disk :
  (inProgressCount (getAll manager) <= 1)%nat ->
  (inProgressCount (getAll (TodoAgent.answerInOrder calls manager disk).1.2) <= 1)%nat.
Proof.
  revert manager disk. induction calls as [|[id input] calls IH]; intros manager disk Hinv.
  - done.
  - cbn [TodoAgent.answerInOrder].
    pose proof (executeTodoWrite_keeps_invariant input manager disk Hinv) as Hinv1.
    destruct (TodoAgent.executeTodoWrite input manager disk) as [[result manager1] disk1].
    specialize (IH manager1 disk1 Hinv1).
    destruct (TodoAgent.answerInOrder calls manager1 disk1) as [[results manager2] disk2].
    done.
Qed.

(** ** One iteration *)

Lemma executeToolUses_eq f :
  TodoAgent.executeToolUses f
  = let answered :=
      TodoAgent.answerInOrder
        (TodoAgent.todoWriteCalls (Anthropic.response_content (TodoAgent.response f)))
        (TodoAgent.manager f) (TodoAgent.disk f) in
    {| TodoAgent.response := TodoAgent.response f;
       TodoAgent.iterations := S (TodoAgent.iterations f);
       TodoAgent.messages :=
         TodoAgent.messages f
           ++ [{| Anthropic.role := Anthropic.assistant;
                  Anthropic.content :=
                    Anthropic.Blocks (Anthropic.response_content (TodoAgent.response f)) |};
               {| Anthropic.role := Anthropic.user;
                  Anthropic.content := Anthropic.Blocks answered.1.1 |}];
       TodoAgent.manager := answered.1.2;
       TodoAgent.disk := answered.2;
       TodoAgent.server := TodoAgent.server f |}.
Proof.
  unfold TodoAgent.executeToolUses. rewrite forToolUses_answerInOrder.
  cbv zeta. cbn [app]. by rewrite <- app_assoc.
Qed.

Lemma iteration_ok f f1 :
  TodoAgent.iteration f = ok f1 ->
  TodoAgent.iterations f1 = S (TodoAgent.iterations f)
  /\ TodoAgent.messages f1 = TodoAgent.messages (TodoAgent.executeToolUses f)
  /\ TodoAgent.manager f1 = TodoAgent.manager (TodoAgent.executeToolUses f)
  /\ TodoAgent.disk f1 = TodoAgent.disk (TodoAgent.executeToolUses f).
Proof.
  unfold TodoAgent.iteration.
  destruct (Anthropic.messages_create _ _) as [[error|response1] server1];
    [discriminate|].
  intros [= <-]. by rewrite executeToolUses_eq.
Qed.

Lemma rolesAlternate_two_more {Input} (messages : list (Anthropic.MessageParam Input))
    a u :
  rolesAlternate messages -> Nat.odd (length messages) = true ->
  Anthropic.role a = Anthropic.assistant -> Anthropic.role u = Anthropic.user ->
  rolesAlternate (messages ++ [a; u])
  /\ Nat.odd (length (messages ++ [a; u])) = true.
Proof.
  intros Halt Hodd Ha Hu. split.
  - intros i m Hi. destruct (decide (i < length messages)%nat) as [Hlt|Hge].
    + rewrite lookup_app_l in Hi by done. by apply Halt.
    + rewrite lookup_app_r in Hi by lia.
      assert (Heven : Nat.even (length messages) = false)
        by (by rewrite <- Nat.negb_odd, Hodd).
      destruct (i - length messages)%nat as [|[|k]] eqn:Hk; simpl in Hi;
        [| |by rewrite lookup_nil in Hi].
      * injection Hi as <-. replace i with (length messages) by lia.
        by rewrite Heven.
      * injection Hi as <-. replace i with (S (length messages)) by lia.
        rewrite Nat.even_succ, Hodd. done.
  - rewrite length_app. cbn [length].
    replace (length messages + 2)%nat with (S (S (length messages))) by lia.
    by rewrite Nat.odd_succ, Nat.even_succ.
Qed.

(** ** The loop *)

Lemma whileToolUse_facts remaining f f1 :
  TodoAgent.whileToolUse remaining f = ok f1 ->
  (TodoAgent.iterations f <= TodoAgent.iterations f1
   <= TodoAgent.iterations f + remaining)%nat
  /\ (Anthropic.stops_for_tool_use (TodoAgent.response f1) = true ->
      TodoAgent.iterations f1 = (TodoAgent.iterations f + remaining)%nat)
  /\ length (TodoAgent.messages f1)
     = (length (TodoAgent.messages f)
        + 2 * (TodoAgent.iterations f1 - TodoAgent.iterations f))%nat
  /\ TodoAgent.messages f `prefix_of` TodoAgent.messages f1
  /\ (rolesAlternate (TodoAgent.messages f) ->
      Nat.odd (length (TodoAgent.messages f)) = true ->
      rolesAlternate (TodoAgent.messages f1))
  /\ ((inProgressCount (getAll (TodoAgent.manager f)) <= 1)%nat ->
      (inProgressCount (getAll (TodoAgent.manager f1)) <= 1)%nat)
  /\ this_todoFile (TodoAgent.manager f1) = this_todoFile (TodoAgent.manager f).
Proof.
  revert f. induction remaining as [|remaining IH]; intros f Hloop.
  - injection Hloop as <-.
    repeat split; try done; try lia.
  - cbn [TodoAgent.whileToolUse] in Hloop.
    destruct (Anthropic.stops_for_tool_use (TodoAgent.response f)) eqn:Hstop.
    + destruct (TodoAgent.iteration f) as [error|f0] eqn:Hiteration; [discriminate|].
      cbn [bind] in Hloop.
      apply iteration_ok in Hiteration as (Hcount & Hmessages & Hmanager & Hdisk).
      rewrite executeToolUses_eq in Hmessages, Hmanager. cbv zeta in Hmessages, Hmanager.
      cbn [TodoAgent.messages TodoAgent.manager] in Hmessages, Hmanager.
      destruct (IH f0 Hloop) as (Hbounds & Hcap & Hlength & Hprefix & Halt & Hinv & Hfile).
      rewrite Hcount, Hmessages in *.
      rewrite length_app in Hlength. cbn [length] in Hlength.
      split; [lia|]. split; [intros Hs; specialize (Hcap Hs); lia|].
      split; [lia|]. split; [|split; [|split]].
      * etrans; [|exact Hprefix]. by apply prefix_app_r.
      * intros Halt0 Hodd0.
        destruct (rolesAlternate_two_more (TodoAgent.messages f)
                    {| Anthropic.role := Anthropic.assistant;
                       Anthropic.content :=
                         Anthropic.Blocks
                           (Anthropic.response_content (TodoAgent.response f)) |}
                    {| Anthropic.role := Anthropic.user;
                       Anthropic.content :=
                         Anthropic.Blocks
                           (TodoAgent.answerInOrder
                              (TodoAgent.todoWriteCalls
                                 (Anthropic.response_content (TodoAgent.response f)))
                              (TodoAgent.manager f) (TodoAgent.disk f)).1.1 |}
                    Halt0 Hodd0 eq_refl eq_refl) as [Halt1 Hodd1].
        by apply Halt.
      * intros Hinv0. apply Hinv. rewrite Hmanager.
        by apply answerInOrder_keeps_invariant.
      * rewrite Hfile, Hmanager. apply answerInOrder_keeps_file.
    + injection Hloop as <-.
      repeat split; try done; try lia. intros Hs. congruence.
Qed.

Lemma iteration_throws f thrown :
  TodoAgent.iteration f = throw thrown ->
  exists params server, (Anthropic.messages_create params server).1 = throw thrown.
Proof.
  unfold TodoAgent.iteration.
  destruct (Anthropic.messages_create _ _) as [[error|response1] server1] eqn:Hcall;
    [|discriminate].
  intros [= <-]. eexists _, _. by rewrite Hcall.
Qed.

Lemma whileToolUse_throws remaining f thrown :
  TodoAgent.whileToolUse remaining f = throw thrown ->
  exists params server, (Anthropic.messages_create params server).1 = throw thrown.
Proof.
  revert f. induction remaining as [|remaining IH]; intros f; [discriminate|].
  cbn [TodoAgent.whileToolUse].
  destruct (Anthropic.stops_for_tool_use (TodoAgent.response f)); [|discriminate].
  destruct (TodoAgent.iteration f) as [error|f0] eqn:Hiteration; cbn [bind].
  - intros [= <-]. by eapply iteration_throws.
  - apply IH.
Qed.

(** X10. The loop of [runAgentWithTodos] throws nothing of its own, and
    runs at most 30 times: the function throws only what one of its
    [client.messages.create] calls threw; otherwise it leaves the loop
    normally, with a response that no longer asks for tools, or, when
    the response still does, after exactly 30 iterations. *)
Theorem runLoop_cap userRequest disk0 server0 :
  match TodoAgent.runLoop userRequest disk0 server0 with
  | inr f =>
      (TodoAgent.iterations f <= 30)%nat
      /\ (Anthropic.stops_for_tool_use (TodoAgent.response f) = true ->
          TodoAgent.iterations f = 30%nat)
  | inl thrown =>
      exists params server,
        (Anthropic.messages_create params server).1 = throw thrown
  end.
Proof.
  unfold TodoAgent.runLoop.
  destruct (Anthropic.messages_create _ server0) as [[error|response0] server1]
    eqn:Hfirst.
  - eexists _, _. by rewrite Hfirst.
  - destruct (TodoAgent.whileToolUse _ _) as [thrown|f] eqn:Hloop.
    + by eapply whileToolUse_throws.
    + apply whileToolUse_facts in Hloop as (Hbounds & Hcap & _).
      cbn [TodoAgent.iterations] in *. unfold TodoAgent.maxIterations in *.
      split; [lia|]. intros Hs. by rewrite (Hcap Hs).
Qed.

(** X11. The conversation [runAgentWithTodos] builds begins with the
    user request, gains two turns in each iteration, and alternates
    user and assistant turns. *)
Theorem runLoop_conversation userRequest disk0 server0 f :
  TodoAgent.runLoop userRequest disk0 server0 = ok f ->
  TodoAgent.messages f !! 0%nat
  = Some {| Anthropic.role := Anthropic.user;
            Anthropic.content := Anthropic.Text userRequest |}
  /\ length (TodoAgent.messages f) = (1 + 2 * TodoAgent.iterations f)%nat
  /\ rolesAlternate (TodoAgent.messages f).
Proof.
  unfold TodoAgent.runLoop.
  destruct (Anthropic.messages_create _ server0) as [[error|response0] server1];
    [discriminate|].
  intros Hloop.
  apply whileToolUse_facts in Hloop as (_ & _ & Hlength & Hprefix & Halt & _).
  cbn [TodoAgent.iterations TodoAgent.messages] in *.
  split; [|split].
  - destruct Hprefix as [more ->]. done.
  - rewrite Hlength. cbn [length]. lia.
  - apply Halt; [|done]. intros [|i] m Hi; simpl in Hi.
    + by injection Hi as <-.
    + by rewrite lookup_nil in Hi.
Qed.

(** X12. Whatever the model asks for, the manager [runAgentWithTodos]
    returns holds at most one task in progress, provided the list
    loaded from the file at the start does. *)
Theorem runAgentWithTodos_keeps_invariant userRequest disk0 server0 manager :
  TodoAgent.runAgentWithTodos userRequest disk0 server0 = ok manager ->
  (inProgressCount (getAll (constructor None disk0)) <= 1)%nat ->
  (inProgressCount (getAll manager) <= 1)%nat
  /\ this_todoFile manager = lit ".todos.json".
Proof.
  unfold TodoAgent.runAgentWithTodos.
  destruct (TodoAgent.runLoop userRequest disk0 server0) as [error|f] eqn:Hrun;
    [discriminate|].
  intros [= <-] Hinv0. unfold TodoAgent.runLoop in Hrun.
  destruct (Anthropic.messages_create _ server0) as [[error|response0] server1];
    [discriminate|].
  apply whileToolUse_facts in Hrun as (_ & _ & _ & _ & _ & Hinv & Hfile).
  cbn [TodoAgent.manager] in *. split; [by apply Hinv|].
  rewrite Hfile. unfold constructor, load. cbn [this_todoFile default].
  by destruct (files disk0 !! lit ".todos.json") as [[|parsed]|].
Qed.

End TodoAgentMore.

Section TodoAgentExamples.

Import TodoStore Notions.

#[local] Existing Instance Samples.scriptedTodoClient.

Lemma runLoop_conversation_witness :
  exists f,
    TodoAgent.runLoop (lit "plan my day") Samples.blankDisk Samples.writesThenAnswers = ok f
    /\ TodoAgent.messages f !! 0%nat
       = Some {| Anthropic.role := Anthropic.user;
                 Anthropic.content := Anthropic.Text (lit "plan my day") |}
    /\ length (TodoAgent.messages f) = (1 + 2 * TodoAgent.iterations f)%nat
    /\ rolesAlternate (TodoAgent.messages f).
Proof.
  eexists. split; [reflexivity|].
  eapply (runLoop_conversation (lit "plan my day") Samples.blankDisk
            Samples.writesThenAnswers).
  reflexivity.
Defined.

Lemma runAgentWithTodos_keeps_invariant_witness :
  exists manager,
    TodoAgent.runAgentWithTodos (lit "plan my day") Samples.blankDisk
      Samples.writesThenAnswers = ok manager
    /\ getAll manager = Samples.oneInProgress
    /\ (inProgressCount (getAll manager) <= 1)%nat
    /\ this_todoFile manager = lit ".todos.json".
Proof.
  eexists. split; [reflexivity|]. split; [reflexivity|].
  eapply (runAgentWithTodos_keeps_invariant (lit "plan my day") Samples.blankDisk
            Samples.writesThenAnswers).
  - reflexivity.
  - vm_compute. lia.
Defined.

End TodoAgentExamples.

Section TodoAgentAtTheCap.

#[local] Existing Instance Samples.insistentClient.

(** The remote side asks for todo_write in every response: the loop
    stops after 30 iterations and 31 requests, and nothing is thrown. *)
Lemma runLoop_cap_witness :
  exists f,
    TodoAgent.runLoop (lit "plan my day") Samples.blankDisk Samples.noRequestYet = ok f
    /\ Anthropic.stops_for_tool_use (TodoAgent.response f) = true
    /\ TodoAgent.iterations f = 30%nat
    /\ TodoAgent.server f = 31%nat.
Proof.
  pose proof (runLoop_cap (lit "plan my day") Samples.blankDisk Samples.noRequestYet)
    as Hcap.
  destruct (TodoAgent.runLoop (lit "plan my day") Samples.blankDisk Samples.noRequestYet)
    as [thrown|f] eqn:Hrun.
  - vm_compute in Hrun. discriminate.
  - exists f. split; [reflexivity|].
    assert (Hfacts : Anthropic.stops_for_tool_use (TodoAgent.response f) = true
                     /\ TodoAgent.server f = 31%nat).
    { vm_compute in Hrun. injection Hrun as <-. split; reflexivity. }
    destruct Hfacts as [Hstops Hserver]. destruct Hcap as [_ Hcap].
    split; [exact Hstops|]. split; [exact (Hcap Hstops)|exact Hserver].
Defined.

End TodoAgentAtTheCap.

(* ===================================================================== *)
(** * More on the sandboxed agent                                         *)
(* ===================================================================== *)

Section SandboxMore.

Import Notions.

Context `{fileSystem : Sandbox.SandboxedFileSystem}.
Context `{client : Anthropic.Client Sandbox.ToolInput}.

Implicit Types (f : Sandbox.Frame).

Lemma executeFirstToolUse_some f f1 :
  Sandbox.executeFirstToolUse f = Some f1 ->
  Sandbox.iterationCount f1 = S (Sandbox.iterationCount f)
  /\ exists a u,
       Sandbox.messages f1 = Sandbox.messages f ++ [a; u]
       /\ Anthropic.role a = Anthropic.assistant /\ Anthropic.role u = Anthropic.user.
Proof.
  unfold Sandbox.executeFirstToolUse.
  destruct (List.find _ _) as [[text|id name input|tool_use_id content is_error]|];
    try discriminate.
  destruct (Sandbox.executeTool name input (Sandbox.tree f)) as [toolResult tree1].
  intros [= <-]. cbn [Sandbox.iterationCount Sandbox.messages]. split; [done|].
  eexists _, _. rewrite <- app_assoc. cbn [app]. done.
Qed.

Lemma whileToolUse_facts_sandbox remaining f f1 :
  Sandbox.whileToolUse remaining f = ok f1 ->
  (Sandbox.iterationCount f <= Sandbox.iterationCount f1
   <= Sandbox.iterationCount f + remaining)%nat
  /\ (length (Sandbox.messages f) <= length (Sandbox.messages f1)
      <= length (Sandbox.messages f)
         + 2 * (Sandbox.iterationCount f1 - Sandbox.iterationCount f))%nat
  /\ Sandbox.messages f `prefix_of` Sandbox.messages f1
  /\ (rolesAlternate (Sandbox.messages f) ->
      Nat.odd (length (Sandbox.messages f)) = true ->
      rolesAlternate (Sandbox.messages f1)
      /\ Nat.odd (length (Sandbox.messages f1)) = true).
Proof.
  revert f. induction remaining as [|remaining IH]; intros f Hloop.
  - injection Hloop as <-. repeat split; try done; lia.
  - cbn [Sandbox.whileToolUse] in Hloop.
    destruct (Anthropic.stops_for_tool_use (Sandbox.response f));
      [|injection Hloop as <-; repeat split; try done; lia].
    unfold Sandbox.iteration in Hloop.
    destruct (Sandbox.executeFirstToolUse f) as [f0|] eqn:Hfirst; cbn [bind ok] in Hloop.
    + apply executeFirstToolUse_some in Hfirst
        as (Hcount & a & u & Hmessages & Ha & Hu).
      destruct (Anthropic.messages_create _ _) as [[error|response1] server1];
        [discriminate|].
      cbn [bind ok] in Hloop.
      apply IH in Hloop as (Hbounds & Hlength & Hprefix & Halt).
      cbn [Sandbox.iterationCount Sandbox.messages] in *.
      rewrite Hcount, Hmessages in *. rewrite length_app in Hlength.
      cbn [length] in Hlength.
      split; [lia|]. split; [lia|]. split.
      * etrans; [|exact Hprefix]. by apply prefix_app_r.
      * intros Halt0 Hodd0.
        destruct (rolesAlternate_two_more (Sandbox.messages f) a u Halt0 Hodd0 Ha Hu).
        by apply Halt.
    + injection Hloop as <-. cbn [Sandbox.iterationCount Sandbox.messages].
      repeat split; try done; lia.
Qed.

(** X13. The conversation of [SandboxedClaudeAgent.run]: the loop runs
    at most 10 times; the conversation begins with the user message,
    gains the assistant turn and one user turn in an iteration that runs
    a tool and nothing otherwise, and alternates user and assistant
    turns, ending with a user turn. *)
Theorem sandbox_runLoop_conversation userMessage tree0 server0 f :
  Sandbox.runLoop userMessage tree0 server0 = ok f ->
  (Sandbox.iterationCount f <= 10)%nat
  /\ Sandbox.messages f !! 0%nat
     = Some {| Anthropic.role := Anthropic.user;
               Anthropic.content := Anthropic.Text userMessage |}
  /\ (length (Sandbox.messages f) <= 1 + 2 * Sandbox.iterationCount f)%nat
  /\ Nat.odd (length (Sandbox.messages f)) = true
  /\ rolesAlternate (Sandbox.messages f).
Proof.
  unfold Sandbox.runLoop.
  destruct (Anthropic.messages_create _ server0) as [[error|response0] server1];
    [discriminate|].
  intros Hloop.
  apply whileToolUse_facts_sandbox in Hloop as (Hbounds & Hlength & Hprefix & Halt).
  cbn [Sandbox.iterationCount Sandbox.messages] in *.
  unfold Sandbox.maxIterations in *. cbn [length] in Hlength.
  destruct Halt as [Halt Hodd]; [|done|].
  { intros [|i] m Hi; simpl in Hi; [by injection Hi as <-|by rewrite lookup_nil in Hi]. }
  split; [lia|]. split; [by destruct Hprefix as [more ->]|].
  split; [lia|]. done.
Qed.

(** X14. [SandboxedClaudeAgent.run] never returns the empty string: when
    the last response has no text block, or an empty one, the placeholder
    text is returned. *)
Theorem sandbox_run_never_empty userMessage tree0 server0 text :
  Sandbox.run userMessage tree0 server0 = ok text ->
  text <> []
  /\ (forall f, Sandbox.runLoop userMessage tree0 server0 = ok f ->
        Anthropic.findText (Anthropic.response_content (Sandbox.response f)) = None
        \/ Anthropic.findText (Anthropic.response_content (Sandbox.response f)) = Some [] ->
        text = lit "応答がありません").
Proof.
  unfold Sandbox.run.
  destruct (Sandbox.runLoop userMessage tree0 server0) as [error|f0]; [discriminate|].
  cbn [bind]. intros [= <-]. split.
  - unfold Anthropic.orElse.
    destruct (Anthropic.findText _) as [[|c r]|]; try done; by vm_compute.
  - intros f [= <-] [-> | ->]; done.
Qed.

End SandboxMore.

Section SandboxExamples.

Import Notions.

#[local] Existing Instance Samples.memoryFileSystem.
#[local] Existing Instance Samples.scriptedSandboxClient.

Lemma sandbox_runLoop_conversation_witness :
  exists f,
    Sandbox.runLoop (lit "show a.txt") Samples.oneFile
      Samples.asksThenSaysNothing = ok f
    /\ (Sandbox.iterationCount f <= 10)%nat
    /\ Sandbox.messages f !! 0%nat
       = Some {| Anthropic.role := Anthropic.user;
                 Anthropic.content := Anthropic.Text (lit "show a.txt") |}
    /\ (length (Sandbox.messages f) <= 1 + 2 * Sandbox.iterationCount f)%nat
    /\ Nat.odd (length (Sandbox.messages f)) = true
    /\ rolesAlternate (Sandbox.messages f).
Proof.
  eexists. split; [reflexivity|].
  eapply (sandbox_runLoop_conversation (lit "show a.txt") Samples.oneFile
            Samples.asksThenSaysNothing).
  reflexivity.
Defined.

Lemma sandbox_run_never_empty_witness :
  Sandbox.run (lit "show a.txt") Samples.oneFile Samples.asksThenSaysNothing
  = ok (lit "応答がありません")
  /\ lit "応答がありません" <> []
  /\ (forall f,
        Sandbox.runLoop (lit "show a.txt") Samples.oneFile
          Samples.asksThenSaysNothing = ok f ->
        Anthropic.findText (Anthropic.response_content (Sandbox.response f)) = None
        \/ Anthropic.findText (Anthropic.response_content (Sandbox.response f)) = Some [] ->
        lit "応答がありません" = lit "応答がありません").
Proof.
  split; [reflexivity|].
  apply (sandbox_run_never_empty (lit "show a.txt") Samples.oneFile
           Samples.asksThenSaysNothing).
  reflexivity.
Defined.

End SandboxExamples.

(* ===================================================================== *)
(** * More on the orchestrator                                            *)
(* ===================================================================== *)

Section RegistryFacts.

Import Orchestrator Notions.

Context {V : Type}.

Implicit Types (m : list (jsstring * V)).

Lemma Map_get_set_eq key (v : V) m : Map_get key (Map_set key v m) = Some v.
Proof.
  induction m as [|[k v0] m IH]; simpl; unfold str_eqb.
  - by rewrite bool_decide_eq_true_2.
  - case_bool_decide as Hk; simpl; unfold str_eqb.
    + by rewrite bool_decide_eq_true_2.
    + by rewrite bool_decide_eq_false_2.
Qed.

Lemma Map_get_set_ne key key1 (v : V) m :
  key1 <> key -> Map_get key1 (Map_set key v m) = Map_get key1 m.
Proof.
  intros Hne. induction m as [|[k v0] m IH]; simpl; unfold str_eqb.
  - by rewrite bool_decide_eq_false_2.
  - case_bool_decide as Hk; simpl; unfold str_eqb.
    + subst k. by rewrite !bool_decide_eq_false_2.
    + case_bool_decide; [done|]. exact IH.
Qed.

Lemma Map_keys_set key (v : V) m :
  Map_keys (Map_set key v m)
  = if decide (key ∈ Map_keys m) then Map_keys m else Map_keys m ++ [key].
Proof.
  unfold Map_keys. induction m as [|[k v0] m IH].
  - rewrite decide_False; [done|]. apply not_elem_of_nil.
  - cbn [Map_set]. unfold str_eqb. rewrite !fmap_cons. cbn [fst].
    case_bool_decide as Hk.
    + subst k. rewrite fmap_cons. cbn [fst]. rewrite decide_True; [done|]. by left.
    + rewrite fmap_cons, IH. cbn [fst].
      destruct (decide (key ∈ m.*1)) as [Hin|Hout].
      * rewrite decide_True; [done|]. by right.
      * rewrite decide_False; [done|]. intros Hin.
        apply elem_of_cons in Hin as [->|Hin]; done.
Qed.

Lemma Map_get_None key m : Map_get key m = None <-> key ∉ Map_keys m.
Proof.
  unfold Map_keys. induction m as [|[k v0] m IH].
  - split; [intros _; apply not_elem_of_nil|done].
  - cbn [Map_get]. unfold str_eqb. rewrite fmap_cons. cbn [fst].
    case_bool_decide as Hk.
    + subst k. split; [discriminate|]. intros Hout. exfalso. apply Hout. by left.
    + rewrite IH, not_elem_of_cons.
      split; [intros Hout; split; [congruence|done] | by intros [_ Hout]].
Qed.

End RegistryFacts.

Section OrchestratorMore.

Import Orchestrator Notions.

Context `{client : Anthropic.Client NoInput}.

Implicit Types (this : SubAgentOrchestrator) (tasks : list SubAgentTask)
  (config : SubAgentConfig).

(** ** The registry *)

(** X15. After [registerSubAgent] the name of the configuration leads to
    the sub-agent built from it, every other name leads where it did,
    and the list of names is the former one, with the name added at the
    end when it is new and left where it stood when it is not. *)
Theorem registerSubAgent_lookup config this :
  Map_get (name config) (subAgents (registerSubAgent config this))
  = Some (newSubAgent config)
  /\ (forall other, other <> name config ->
        Map_get other (subAgents (registerSubAgent config this))
        = Map_get other (subAgents this))
  /\ listSubAgents (registerSubAgent config this)
     = if decide (name config ∈ listSubAgents this)
       then listSubAgents this
       else listSubAgents this ++ [name config].
Proof.
  unfold registerSubAgent, listSubAgents. cbn [subAgents].
  split; [apply Map_get_set_eq|]. split; [|apply Map_keys_set].
  intros other Hother. by apply Map_get_set_ne.
Qed.

Lemma registerSubAgent_lookup_keys config this :
  ((name config ∈ listSubAgents this)
   /\ listSubAgents (registerSubAgent config this) = listSubAgents this)
  \/ ((name config ∉ listSubAgents this)
      /\ listSubAgents (registerSubAgent config this)
         = listSubAgents this ++ [name config]).
Proof.
  unfold registerSubAgent, listSubAgents. cbn [subAgents]. rewrite Map_keys_set.
  destruct (decide (name config ∈ Map_keys (subAgents this))); [by left|by right].
Qed.

Lemma registerAll_snoc configs config :
  registerAll (configs ++ [config]) = registerSubAgent config (registerAll configs).
Proof. unfold registerAll. by rewrite foldl_app. Qed.

Lemma registerAll_names configs :
  NoDup (listSubAgents (registerAll configs))
  /\ forall n, n ∈ listSubAgents (registerAll configs) <-> n ∈ name <$> configs.
Proof.
  induction configs as [|config configs [IHnodup IHnames]] using rev_ind.
  - split; [constructor|]. intros n. done.
  - rewrite registerAll_snoc.
    destruct (registerSubAgent_lookup_keys config (registerAll configs)) as [Hin|Hout].
    + destruct Hin as [Hin ->]. split; [done|]. intros n.
      rewrite fmap_app, elem_of_app, IHnames. cbn [fmap list_fmap].
      rewrite list_elem_of_singleton. split; [by left|].
      intros [?| ->]; [done|]. by apply IHnames.
    + destruct Hout as [Hout ->]. split.
      * apply NoDup_app. split; [done|]. split; [|apply NoDup_singleton].
        intros n Hn Hsingle. apply list_elem_of_singleton in Hsingle. by subst n.
      * intros n. rewrite fmap_app, !elem_of_app, IHnames. done.
Qed.

Lemma registerAll_last_wins before config later :
  name config ∉ name <$> later ->
  Map_get (name config) (subAgents (registerAll (before ++ config :: later)))
  = Some (newSubAgent config).
Proof.
  induction later as [|c later IH] using rev_ind; intros Hlater.
  - rewrite registerAll_snoc. apply Map_get_set_eq.
  - rewrite fmap_app, not_elem_of_app in Hlater. destruct Hlater as [Hlater Hc].
    change (before ++ config :: later ++ [c]) with (before ++ (config :: later) ++ [c]).
    rewrite app_assoc, registerAll_snoc.
    unfold registerSubAgent. cbn [subAgents].
    rewrite Map_get_set_ne; [by apply IH|].
    intros Heq. apply Hc. rewrite Heq. cbn [fmap list_fmap]. by left.
Qed.

(** X16. However many configurations are registered, and in whatever
    order, the list of names has no duplicate and holds exactly the
    names registered, and a name leads to the sub-agent built from the
    last configuration registered under it. *)
Theorem registerAll_registry configs :
  NoDup (listSubAgents (registerAll configs))
  /\ (forall n, n ∈ listSubAgents (registerAll configs) <-> n ∈ name <$> configs)
  /\ (forall before config later,
        configs = before ++ config :: later ->
        name config ∉ name <$> later ->
        Map_get (name config) (subAgents (registerAll configs))
        = Some (newSubAgent config)).
Proof.
  destruct (registerAll_names configs) as [Hnodup Hnames].
  split; [done|]. split; [done|].
  intros before config later -> Hlater. by apply registerAll_last_wins.
Qed.

(** ** The sequential loop when nothing fails *)

Lemma forTasks_ok this tasks results server results1 server1 :
  forTasks this tasks results server = (ok results1, server1) ->
  exists added,
    results1 = results ++ added
    /\ result_agentName <$> added = agentName <$> tasks
    /\ Forall (fun r => error r = None) added
    /\ Forall (fun task => is_Some (Map_get (agentName task) (subAgents this))) tasks.
Proof.
  revert results server. induction tasks as [|task tasks IH]; intros results server.
  - intros [= <- <-]. exists []. by rewrite app_nil_r.
  - cbn [forTasks].
    destruct (delegateToSubAgent this (agentName task) (prompt task) server)
      as [[thrown|text] server0] eqn:Hdelegate; [discriminate|].
    intros Hrest. apply IH in Hrest as (added & -> & Hnames & Herrors & Hregistered).
    eexists (_ :: added). rewrite <- app_assoc. split; [done|].
    split; [by rewrite !fmap_cons, Hnames|]. split; [by constructor|].
    constructor; [|done]. unfold delegateToSubAgent in Hdelegate.
    destruct (Map_get (agentName task) (subAgents this)); [by eexists|discriminate].
Qed.

(** X17. When the sequential branch of [orchestrate] returns, it returns
    one result per task, in the order of the tasks and under their agent
    names, none of them carrying an error, and every task named a
    registered agent. *)
Theorem runTasks_sequential_ok this plan schedule server results server1 :
  parallel plan = false ->
  runTasks this plan schedule server = (Some (ok results), server1) ->
  result_agentName <$> results = agentName <$> tasks plan
  /\ Forall (fun r => error r = None) results
  /\ Forall (fun task => is_Some (Map_get (agentName task) (subAgents this))) (tasks plan).
Proof.
  intros Hsequential. unfold runTasks. rewrite Hsequential. cbn [andb].
  destruct (forTasks this (tasks plan) [] server) as [outcome server0] eqn:Hloop.
  intros [= -> ->].
  by apply forTasks_ok in Hloop as (added & -> & Hnames & Herrors & Hregistered).
Qed.

(** ** Parallel and sequential delegation compared *)

Lemma valuesList_fulfilled (rs : list SubAgentResult) :
  valuesList ((Some <$> rs) ++ replicate 0 None) = rs.
Proof.
  cbn [replicate]. rewrite app_nil_r. unfold valuesList.
  induction rs as [|r rs IH]; [done|]. rewrite fmap_cons. cbn [omap list_omap id].
  by rewrite IH.
Qed.

Lemma resolveElement_next (rs : list SubAgentResult) n x :
  resolveElement (length rs) x (fulfilledSoFar rs (S n)) = fulfilledSoFar (rs ++ [x]) n.
Proof.
  unfold resolveElement, fulfilledSoFar. cbn [values remainingElementsCount settled].
  assert (Hvalues :
    <[length rs := Some x]> ((Some <$> rs) ++ replicate (S n) None)
    = (Some <$> (rs ++ [x])) ++ replicate n None).
  { cbn [replicate]. rewrite fmap_app, <- app_assoc. cbn [fmap list_fmap app].
    rewrite <- (length_fmap Some rs) at 1.
    by rewrite insert_app_r_alt, Nat.sub_diag by lia. }
  rewrite Hvalues. cbn [Nat.eqb pred]. f_equal.
  destruct n as [|n]; [|done]. cbn [Nat.eqb]. by rewrite valuesList_fulfilled.
Qed.

Lemma forTasks_startBranches this tasks rs server results server1 :
  forTasks this tasks rs server = (ok results, server1) ->
  exists added,
    results = rs ++ added
    /\ length added = length tasks
    /\ startBranches this tasks server = (ok <$> added, server1).
Proof.
  revert rs server. induction tasks as [|task tasks IH]; intros rs server.
  - intros [= <- <-]. exists []. by rewrite app_nil_r.
  - cbn [forTasks startBranches]. unfold parallelBranch.
    destruct (delegateToSubAgent this (agentName task) (prompt task) server)
      as [[thrown|text] server0]; [discriminate|].
    intros Hrest. apply IH in Hrest as (added & -> & Hlength & ->).
    eexists (_ :: added). rewrite <- app_assoc. split; [done|].
    split; [cbn [length]; by rewrite Hlength|done].
Qed.

Lemma settleBranches_in_order (added rs : list SubAgentResult) :
  settleBranches (ok <$> rs ++ added) (seq (length rs) (length added))
    (fulfilledSoFar rs (length added))
  = fulfilledSoFar (rs ++ added) 0.
Proof.
  revert rs. induction added as [|x added IH]; intros rs.
  - by rewrite app_nil_r.
  - cbn [length seq settleBranches].
    assert (Hbranch : (ok <$> rs ++ x :: added) !! length rs
                      = Some (@ok Thrown SubAgentResult x)).
    { rewrite list_lookup_fmap, list_lookup_middle by done. done. }
    assert (Hslot : values (fulfilledSoFar rs (S (length added))) !! length rs
                    = Some None).
    { unfold fulfilledSoFar. cbn [values replicate].
      apply list_lookup_middle. by rewrite length_fmap. }
    unfold Result in *. rewrite Hbranch, Hslot. unfold ok at 2.
    rewrite resolveElement_next.
    specialize (IH (rs ++ [x])).
    rewrite length_app, <- app_assoc in IH. cbn [length app] in IH.
    by rewrite Nat.add_1_r in IH.
Qed.

(** X18. When the sequential loop runs a list of tasks without a throw,
    [delegateParallel] on the same tasks, its branches settling in the
    order of the tasks, returns the same results and leaves the remote
    side in the same state. *)
Theorem delegateParallel_in_order_as_sequential this tasks server results server1 :
  forTasks this tasks [] server = (ok results, server1) ->
  delegateParallel this tasks (seq 0 (length tasks)) server
  = (Some (ok results), server1).
Proof.
  intros Hsequential.
  apply forTasks_startBranches in Hsequential as (results0 & -> & Hlength & Hstart).
  unfold delegateParallel. rewrite Hstart, <- Hlength.
  change (Promise_all_start (length results0))
    with (fulfilledSoFar (@nil SubAgentResult) (length results0)).
  pose proof (settleBranches_in_order results0 []) as Hsettle.
  cbn [app length] in Hsettle. by rewrite Hsettle.
Qed.

End OrchestratorMore.

Section OrchestratorMoreExamples.

Import Orchestrator Notions.

#[local] Existing Instance Samples.scriptedClient.

Lemma runTasks_sequential_ok_witness :
  exists results server1,
    runTasks Samples.team Samples.reviewPlan []
      (Samples.playing [ok (Samples.finalAnswer "written");
                        ok (Samples.finalAnswer "reviewed")])
    = (Some (ok results), server1)
    /\ result_agentName <$> results = agentName <$> tasks Samples.reviewPlan
    /\ Forall (fun r => error r = None) results
    /\ Forall (fun task => is_Some (Map_get (agentName task) (subAgents Samples.team)))
         (tasks Samples.reviewPlan).
Proof.
  eexists _, _. split; [vm_compute; reflexivity|].
  eapply (runTasks_sequential_ok Samples.team Samples.reviewPlan []
            (Samples.playing [ok (Samples.finalAnswer "written");
                              ok (Samples.finalAnswer "reviewed")])).
  - reflexivity.
  - vm_compute. reflexivity.
Defined.

Lemma delegateParallel_in_order_as_sequential_witness :
  exists results server1,
    forTasks Samples.team (tasks Samples.reviewPlan) []
      (Samples.playing [ok (Samples.finalAnswer "written");
                        ok (Samples.finalAnswer "reviewed")])
    = (ok results, server1)
    /\ delegateParallel Samples.team (tasks Samples.reviewPlan) [0; 1]%nat
         (Samples.playing [ok (Samples.finalAnswer "written");
                           ok (Samples.finalAnswer "reviewed")])
       = (Some (ok results), server1).
Proof.
  eexists _, _. split; [vm_compute; reflexivity|].
  apply (delegateParallel_in_order_as_sequential Samples.team (tasks Samples.reviewPlan)
           (Samples.playing [ok (Samples.finalAnswer "written");
                             ok (Samples.finalAnswer "reviewed")])).
  vm_compute. reflexivity.
Defined.

End OrchestratorMoreExamples.

(* ===================================================================== *)
(** * The plan text of [orchestrate]                                      *)
(* ===================================================================== *)

Section FenceFacts.

Import Orchestrator Notions.

Implicit Types (s pre body post sep piece : jsstring).

Lemma startsWith_app sep s : startsWith sep (sep ++ s) = true.
Proof.
  induction sep as [|c sep IH]; [by destruct s|].
  cbn [app startsWith]. by rewrite N.eqb_refl, IH.
Qed.

Lemma split_from_free sep1 pre piece s :
  fenceFree pre ->
  split_from (graveAccent :: sep1) 0 piece (pre ++ s)
  = split_from (graveAccent :: sep1) 0 (rev pre ++ piece) s.
Proof.
  revert piece. induction pre as [|c pre IH]; intros piece Hfree; [done|].
  apply not_elem_of_cons in Hfree as [Hc Hfree].
  cbn [app split_from startsWith].
  assert (Hfirst : (graveAccent =? c) = false) by (by apply N.eqb_neq).
  rewrite Hfirst. cbn [andb]. rewrite IH by done.
  cbn [rev]. by rewrite <- app_assoc.
Qed.

Lemma split_from_skip sep skipped piece s :
  split_from sep (length skipped) piece (skipped ++ s) = split_from sep 0 piece s.
Proof. induction skipped as [|c skipped IH]; [done|]. exact IH. Qed.

Lemma split_from_fence sep1 pre piece s :
  fenceFree pre ->
  split_from (graveAccent :: sep1) 0 piece (pre ++ (graveAccent :: sep1) ++ s)
  = rev (rev pre ++ piece) :: split_from (graveAccent :: sep1) 0 [] s.
Proof.
  intros Hfree. rewrite split_from_free by done.
  pose proof (startsWith_app (graveAccent :: sep1) s) as Hmatch.
  cbn [app] in Hmatch. cbn [app split_from]. rewrite Hmatch.
  cbn [length Nat.sub]. rewrite Nat.sub_0_r. by rewrite split_from_skip.
Qed.

Lemma split_from_end sep1 pre piece :
  fenceFree pre ->
  split_from (graveAccent :: sep1) 0 piece pre = [rev (rev pre ++ piece)].
Proof.
  intros Hfree. rewrite <- (app_nil_r pre) at 1. by rewrite split_from_free.
Qed.

Lemma str_includes_app sep pre s : str_includes sep (pre ++ sep ++ s) = true.
Proof.
  induction pre as [|c pre IH].
  - cbn [app]. destruct (sep ++ s) eqn:Hs; cbn [str_includes];
      rewrite <- Hs, startsWith_app; done.
  - cbn [app str_includes]. rewrite IH. apply orb_true_r.
Qed.

Lemma str_includes_free sep1 s :
  fenceFree s -> str_includes (graveAccent :: sep1) s = false.
Proof.
  induction s as [|c s IH]; intros Hfree; [done|].
  apply not_elem_of_cons in Hfree as [Hc Hfree].
  cbn [str_includes startsWith].
  assert (Hfirst : (graveAccent =? c) = false) by (by apply N.eqb_neq).
  rewrite Hfirst. cbn [andb orb]. by apply IH.
Qed.

(** ** Trimming around a fence *)

Lemma trimStart_app_text a c x :
  isWhiteSpace c = false -> trimStart (a ++ c :: x) = trimStart a ++ c :: x.
Proof.
  intros Hc. induction a as [|d a IH]; cbn [app trimStart].
  - by rewrite Hc.
  - by destruct (isWhiteSpace d).
Qed.

Lemma trimEnd_app_text x c b :
  isWhiteSpace c = false -> trimEnd (x ++ c :: b) = x ++ c :: trimEnd b.
Proof.
  intros Hc. unfold trimEnd. rewrite rev_app_distr. cbn [rev].
  rewrite <- app_assoc. cbn [app]. rewrite trimStart_app_text by done.
  rewrite rev_app_distr. cbn [rev]. by rewrite rev_involutive, <- app_assoc.
Qed.

Lemma trimStart_elem c s : c ∈ trimStart s -> c ∈ s.
Proof.
  induction s as [|d s IH]; cbn [trimStart]; [done|].
  destruct (isWhiteSpace d); [|done]. intros Hc. right. by apply IH.
Qed.

Lemma trimStart_free s : fenceFree s -> fenceFree (trimStart s).
Proof. intros Hfree Hin. by apply Hfree, trimStart_elem. Qed.

Lemma trimEnd_free s : fenceFree s -> fenceFree (trimEnd s).
Proof.
  intros Hfree Hin. apply Hfree. unfold trimEnd in Hin.
  apply list_elem_of_In, in_rev, list_elem_of_In, trimStart_elem in Hin.
  by apply list_elem_of_In, in_rev, list_elem_of_In.
Qed.

Lemma trim_free s : fenceFree s -> fenceFree (trim s).
Proof. intros Hfree. by apply trimEnd_free, trimStart_free. Qed.

Lemma trim_around_fences pre middle post :
  trim (pre ++ graveAccent :: middle ++ graveAccent :: post)
  = trimStart pre ++ graveAccent :: middle ++ graveAccent :: trimEnd post.
Proof.
  unfold trim. rewrite trimStart_app_text by done.
  change (trimStart pre ++ graveAccent :: middle ++ graveAccent :: post)
    with (trimStart pre ++ (graveAccent :: middle) ++ graveAccent :: post).
  rewrite app_assoc, trimEnd_app_text by done.
  by rewrite <- app_assoc.
Qed.

(** ** What [extractJson] returns *)

Lemma fence_literals :
  lit "```json" = graveAccent :: [graveAccent; graveAccent; 106; 115; 111; 110]
  /\ lit "```" = graveAccent :: [graveAccent; graveAccent].
Proof. split; reflexivity. Qed.

Lemma startsWith_cons a sep b s :
  startsWith (a :: sep) (b :: s) = (a =? b) && startsWith sep s.
Proof. reflexivity. Qed.

Lemma split_from_miss sep piece c s :
  startsWith sep (c :: s) = false ->
  split_from sep 0 piece (c :: s) = split_from sep 0 (c :: piece) s.
Proof. intros Hmiss. cbn [split_from]. by rewrite Hmiss. Qed.

Lemma split_from_hit sep piece c s :
  startsWith sep (c :: s) = true ->
  split_from sep 0 piece (c :: s)
  = rev piece :: split_from sep (length sep - 1) [] s.
Proof. intros Hhit. cbn [split_from]. by rewrite Hhit. Qed.

Lemma first_piece_after_fence body post :
  fenceFree body -> fenceFree post ->
  exists more,
    nth 0 (split_from (lit "```json") 0 [] (body ++ lit "```" ++ post)) []
    = body ++ more
    /\ (more = [] \/ more = lit "```" ++ post).
Proof.
  intros Hbody Hpost. destruct fence_literals as [-> ->].
  rewrite split_from_free by done. rewrite app_nil_r.
  remember [106; 115; 111; 110] as json eqn:Hjson_def.
  assert (Htail : forall sep1, startsWith (graveAccent :: sep1) post = false).
  { intros sep1. destruct post as [|c post1]; [done|].
    apply not_elem_of_cons in Hpost as [Hc _]. rewrite startsWith_cons.
    by rewrite (proj2 (N.eqb_neq graveAccent c)). }
  cbn [app].
  destruct (startsWith json post) eqn:Hjson.
  - exists []. split; [|by left].
    rewrite split_from_hit
      by (by rewrite !startsWith_cons, !N.eqb_refl, Hjson).
    cbn [nth]. by rewrite rev_involutive, app_nil_r.
  - exists ([graveAccent; graveAccent; graveAccent] ++ post). split; [|by right].
    rewrite split_from_miss
      by (by rewrite !startsWith_cons, !N.eqb_refl, Hjson).
    rewrite split_from_miss
      by (by rewrite !startsWith_cons, !N.eqb_refl, Htail).
    rewrite split_from_miss
      by (by rewrite startsWith_cons, N.eqb_refl, Htail).
    rewrite split_from_end by done. cbn [nth].
    rewrite rev_app_distr, rev_involutive. cbn [rev app].
    by rewrite rev_involutive, <- !app_assoc.
Qed.

Lemma body_before_fence body more post :
  fenceFree body ->
  more = [] \/ more = lit "```" ++ post ->
  at_index (split (lit "```") (body ++ more)) 0 = body.
Proof.
  intros Hbody Hmore. unfold at_index, split.
  destruct fence_literals as [_ ->]. destruct Hmore as [-> | ->].
  - rewrite app_nil_r, split_from_end by done. cbn [nth].
    by rewrite app_nil_r, rev_involutive.
  - rewrite split_from_fence by done. cbn [nth].
    by rewrite app_nil_r, rev_involutive.
Qed.

(** X19. A plan text that holds one fenced block opened by ```json, with
    no other grave accent before, inside or after the block, is reduced
    by [orchestrate] to the content of the block, trimmed. *)
Theorem extractJson_fenced pre body post :
  fenceFree pre -> fenceFree body -> fenceFree post ->
  extractJson (pre ++ lit "```json" ++ body ++ lit "```" ++ post) = trim body.
Proof.
  intros Hpre Hbody Hpost. unfold extractJson. cbv zeta.
  assert (Htrim :
    trim (pre ++ lit "```json" ++ body ++ lit "```" ++ post)
    = trimStart pre ++ lit "```json" ++ body ++ lit "```" ++ trimEnd post).
  { destruct fence_literals as [-> ->].
    pose proof (trim_around_fences pre
                  ([graveAccent; graveAccent; 106; 115; 111; 110] ++ body
                     ++ [graveAccent; graveAccent]) post) as Haround.
    rewrite <- !app_assoc in Haround. exact Haround. }
  rewrite Htrim, str_includes_app.
  assert (Hsecond :
    at_index (split (lit "```json")
                (trimStart pre ++ lit "```json" ++ body ++ lit "```" ++ trimEnd post)) 1
    = nth 0 (split_from (lit "```json") 0 [] (body ++ lit "```" ++ trimEnd post)) []).
  { unfold at_index, split. destruct fence_literals as [-> _].
    by rewrite split_from_fence by (by apply trimStart_free). }
  rewrite Hsecond.
  destruct (first_piece_after_fence body (trimEnd post) Hbody (trimEnd_free post Hpost))
    as (more & -> & Hmore).
  by rewrite (body_before_fence body more (trimEnd post)).
Qed.

(** X20. A plan text without any grave accent is parsed as it is, once
    trimmed. *)
Theorem extractJson_plain planText :
  fenceFree planText -> extractJson planText = trim planText.
Proof.
  intros Hfree. unfold extractJson. cbv zeta.
  destruct fence_literals as [-> ->].
  by rewrite !str_includes_free by (by apply trim_free).
Qed.

Lemma extractJson_fenced_witness :
  extractJson Samples.fencedPlan = lit "{ }".
Proof.
  change (lit "{ }") with (trim (LF ++ lit "{ }" ++ LF)).
  apply (extractJson_fenced (lit "Here is the plan:" ++ LF) (LF ++ lit "{ }" ++ LF) LF);
    unfold fenceFree; apply (bool_decide_unpack _); vm_compute; exact I.
Defined.

Lemma extractJson_plain_witness :
  extractJson (lit " { } ") = lit "{ }".
Proof.
  change (lit "{ }") with (trim (lit " { } ")).
  apply (extractJson_plain (lit " { } ")).
  unfold fenceFree; apply (bool_decide_unpack _); vm_compute; exact I.
Defined.
End FenceFacts.

(* ===================================================================== *)
(** * AgentQueryBuilder: properties                                      *)
(* ===================================================================== *)

Section QueryBuilderFacts.

Import QueryBuilder Notions.

Context {Input ToolChoice Thinking Metadata : Type}.

Implicit Types (this : AgentQuery ToolChoice Thinking Metadata) (heap : Heap Input).

Lemma newMessageArray_fresh (elements : list (Anthropic.MessageParam Input)) heap :
  let address := fresh (dom (messageArrays heap)) in
  newMessageArray elements heap
  = (address,
     {| messageArrays := <[address := elements]> (messageArrays heap);
        toolArrays := toolArrays heap |})
  /\ messageArrays heap !! address = None.
Proof.
  split; [reflexivity|]. apply not_elem_of_dom, is_fresh.
Qed.

Lemma constructor_default heap :
  exists this heap1 address,
    constructor None heap = (this, heap1)
    /\ messages this = Some address
    /\ messageArrays heap !! address = None
    /\ messageArrays heap1 = <[address := []]> (messageArrays heap)
    /\ toolArrays heap1 = toolArrays heap
    /\ model this = Some DEFAULT_model
    /\ maxTokens this = Some DEFAULT_maxTokens
    /\ this = {| model := Some DEFAULT_model; maxTokens := Some DEFAULT_maxTokens;
          messages := Some address; system := None; tools := None;
          toolChoice := None; temperature := None; stream := None; topP := None;
          topK := None; stopSequences := None; thinking := None; metadata := None |}.
Proof.
  eexists _, _, _. unfold constructor, newMessageArray.
  split; [reflexivity|]. cbn [messages messageArrays toolArrays model maxTokens].
  split; [reflexivity|]. split; [apply not_elem_of_dom, is_fresh|].
  repeat (split; [reflexivity|]). reflexivity.
Qed.

Lemma addMessage_existing role content this heap address elements :
  messages this = Some address ->
  messageArrays heap !! address = Some elements ->
  exists heap1,
    addMessage role content this heap = (this, heap1)
    /\ messageArrays heap1
       = <[address := elements ++ [{| Anthropic.role := role; Anthropic.content := content |}]]>
           (messageArrays heap)
    /\ toolArrays heap1 = toolArrays heap.
Proof.
  intros Hm Hl. unfold addMessage. rewrite Hm. eexists. split; [reflexivity|].
  cbn. split; [|reflexivity].
  apply map_eq. intros i. destruct (decide (i = address)) as [->|Hne].
  - by rewrite lookup_alter_eq, Hl, lookup_insert_eq.
  - rewrite lookup_alter_ne, lookup_insert_ne by done. done.
Qed.

Lemma addAll_existing (newMessages : list (Anthropic.MessageParam Input)) :
  forall this heap address elements,
  messages this = Some address ->
  messageArrays heap !! address = Some elements ->
  exists heap1,
    addAll newMessages this heap = (this, heap1)
    /\ messageArrays heap1 = <[address := elements ++ newMessages]> (messageArrays heap)
    /\ toolArrays heap1 = toolArrays heap.
Proof.
  induction newMessages as [|m ms IH]; intros this heap address elements Hm Hl.
  - exists heap. split; [reflexivity|]. rewrite app_nil_r. split; [|done].
    symmetry. by apply insert_id.
  - destruct (addMessage_existing (Anthropic.role m) (Anthropic.content m) _ _ _ _ Hm Hl)
      as (heap1 & Hadd & Harr & Htools).
    destruct (IH this heap1 address (elements ++ [m]) Hm) as (heap2 & Hall & Harr2 & Htools2).
    { rewrite Harr. destruct m. cbn. by rewrite lookup_insert_eq. }
    exists heap2. split; [|split].
    + unfold addAll in *. cbn [foldl]. cbn [fst snd]. rewrite Hadd. exact Hall.
    + rewrite Harr2, Harr, insert_insert_eq. by rewrite <- app_assoc.
    + congruence.
Qed.

Lemma build_ok this heap c name tokens address m ms :
  model this = Some (c :: name) ->
  maxTokens this = Some tokens ->
  noNumber (Some tokens) = false ->
  messages this = Some address ->
  messageArrays heap !! address = Some (m :: ms) ->
  build this heap
  = ok {| params_model := c :: name; params_max_tokens := tokens;
          params_messages := address; params_system := system this;
          params_tools := tools this; params_tool_choice := toolChoice this;
          params_temperature := temperature this;
          params_top_p := topP this; params_top_k := topK this;
          params_stop_sequences := stopSequences this;
          params_thinking := thinking this; params_metadata := metadata this;
          params_stream := stream this |}.
Proof.
  intros Hmodel Htokens Hnum Hmessages Harray. unfold build, messageCount.
  rewrite Hmodel, Htokens, Hmessages. cbn [noString noArray mbind option_bind].
  rewrite Hnum, Harray. reflexivity.
Qed.

Lemma build_no_messages this heap c name tokens address :
  model this = Some (c :: name) ->
  maxTokens this = Some tokens ->
  noNumber (Some tokens) = false ->
  messages this = Some address ->
  messageArrays heap !! address = Some [] ->
  build this heap = throw messagesRequired.
Proof.
  intros Hmodel Htokens Hnum Hmessages Harray. unfold build, messageCount.
  rewrite Hmodel, Htokens, Hmessages. cbn [noString noArray mbind option_bind].
  rewrite Hnum, Harray. reflexivity.
Qed.

Lemma DEFAULT_model_name : exists c name, DEFAULT_model = c :: name.
Proof. eexists _, _. vm_compute. reflexivity. Qed.

Lemma DEFAULT_maxTokens_number : noNumber (Some DEFAULT_maxTokens) = false.
Proof. reflexivity. Qed.

(** X21. Parameters returned by [build] always name a model, carry a
    number of tokens that is neither zero nor NaN, and point to an
    array that holds at least one message; all three are the builder's
    own values. *)
Theorem build_returns_checked_params this heap params :
  build this heap = ok params ->
  model this = Some (params_model params)
  /\ params_model params <> []
  /\ maxTokens this = Some (params_max_tokens params)
  /\ noNumber (Some (params_max_tokens params)) = false
  /\ messages this = Some (params_messages params)
  /\ exists m ms, messageArrays heap !! params_messages params = Some (m :: ms).
Proof.
  unfold build, messageCount.
  destruct (model this) as [[|c name]|]; cbn [noString]; try discriminate.
  destruct (noNumber (maxTokens this)) eqn:Hnum; try discriminate.
  destruct (maxTokens this) as [tokens|]; try discriminate.
  destruct (messages this) as [address|]; cbn [noArray mbind option_bind orb];
    try discriminate.
  destruct (messageArrays heap !! address) as [[|m ms]|] eqn:Harray;
    cbn [length Nat.eqb]; try discriminate.
  unfold ok. intros [= <-]. cbn. repeat split; try done. eauto.
Qed.

(** X22. A builder made without argument, to which messages are then
    added, holds exactly these messages, in the order of the calls, in
    an array that did not exist before; no other array of messages
    changes. [build] then throws 'messages are required' when no message
    was added, and returns parameters on that array otherwise. *)
Theorem fresh_builder_keeps_messages_in_order
    (newMessages : list (Anthropic.MessageParam Input)) heap :
  exists this heap1 address,
    (let '(builder, heap0) := constructor None heap in addAll newMessages builder heap0)
    = (this, heap1)
    /\ messages this = Some address
    /\ messageArrays heap !! address = None
    /\ messageArrays heap1 = <[address := newMessages]> (messageArrays heap)
    /\ match newMessages with
       | [] => build this heap1 = throw messagesRequired
       | _ :: _ => exists params,
           build this heap1 = ok params /\ params_messages params = address
       end.
Proof.
  destruct (constructor_default heap)
    as (this & heap0 & address & Hnew & Hm & Hfresh & Harr & Htools & Hmodel & Htok & _).
  destruct (addAll_existing newMessages this heap0 address [] Hm)
    as (heap1 & Hall & Harr1 & Htools1).
  { by rewrite Harr, lookup_insert_eq. }
  exists this, heap1, address. rewrite Hnew, Hall.
  assert (Hheap1 : messageArrays heap1 = <[address := newMessages]> (messageArrays heap)).
  { by rewrite Harr1, Harr, insert_insert_eq. }
  repeat (split; [done|]).
  destruct DEFAULT_model_name as (c & name & Hname).
  destruct newMessages as [|m ms].
  - apply (build_no_messages this heap1 c name DEFAULT_maxTokens address);
      [congruence | done | reflexivity | done |].
    by rewrite Hheap1, lookup_insert_eq.
  - eexists. split.
    + apply (build_ok this heap1 c name DEFAULT_maxTokens address m ms);
        [congruence | done | reflexivity | done |].
      by rewrite Hheap1, lookup_insert_eq.
    + reflexivity.
Qed.

(** X23. [clone] copies the properties but not the array of messages:
    a message added to the clone is added to the array of the original
    builder too, which is one message longer afterwards. *)
Theorem clone_shares_messages role content this heap address elements :
  messages this = Some address ->
  messageArrays heap !! address = Some elements ->
  exists copy heap1 heap2,
    clone this heap = (copy, heap1)
    /\ addMessage role content copy heap1 = (copy, heap2)
    /\ messages copy = Some address
    /\ messageArrays heap2 !! address
       = Some (elements ++ [{| Anthropic.role := role; Anthropic.content := content |}])
    /\ messageCount this heap2 = S (length elements).
Proof.
  intros Hm Harray.
  destruct (newMessageArray_fresh [] heap) as [Hnew Hfresh].
  unfold clone, constructor. rewrite Hnew. cbn [spread initial_messages initial_model
    initial_maxTokens others].
  set (copy := Build_AgentQuery _ _ _ _ _ _ _ _ _ _ _ _ _).
  set (heap1 := Build_Heap _ _).
  assert (Hcopy : messages copy = Some address) by exact Hm.
  assert (Harray1 : messageArrays heap1 !! address = Some elements).
  { unfold heap1. cbn [messageArrays]. rewrite lookup_insert_ne; [done|]. intros Heq.
    rewrite Heq in Hfresh. congruence. }
  destruct (addMessage_existing role content copy heap1 address elements Hcopy Harray1)
    as (heap2 & Hadd & Harr2 & _).
  exists copy, heap1, heap2. repeat (split; [done|]).
  assert (Hl : messageArrays heap2 !! address
       = Some (elements ++ [{| Anthropic.role := role; Anthropic.content := content |}])).
  { by rewrite Harr2, lookup_insert_eq. }
  split; [done|]. unfold messageCount. rewrite Hm. cbn [mbind option_bind].
  rewrite Hl, length_app. cbn [length]. lia.
Qed.

(** X24. [createSimpleQuery] and [createSystemQuery] never throw, whatever
    the texts and the options: both return the default model, 4096
    tokens and a new array holding the user message alone. Of the
    options, [createSimpleQuery] reads [system] only (the empty string
    standing for a missing or empty one), [createSystemQuery] reads
    none; no existing array changes. *)
Theorem simple_and_system_queries_never_throw
    (text systemPrompt : jsstring)
    (options : option (AgentQuery ToolChoice Thinking Metadata)) heap :
  exists address heap1,
    messageArrays heap !! address = None
    /\ messageArrays heap1 = <[address := [userMessage text]]> (messageArrays heap)
    /\ toolArrays heap1 = toolArrays heap
    /\ createSimpleQuery text options heap
       = (ok {| params_model := DEFAULT_model; params_max_tokens := DEFAULT_maxTokens;
                params_messages := address;
                params_system := Some (systemOrEmpty options);
                params_tools := None; params_tool_choice := None;
                params_temperature := None; params_top_p := None;
                params_top_k := None; params_stop_sequences := None;
                params_thinking := None; params_metadata := None;
                params_stream := None |}, heap1)
    /\ createSystemQuery systemPrompt text options heap
       = (ok {| params_model := DEFAULT_model; params_max_tokens := DEFAULT_maxTokens;
                params_messages := address;
                params_system := Some (SystemText systemPrompt);
                params_tools := None; params_tool_choice := None;
                params_temperature := None; params_top_p := None;
                params_top_k := None; params_stop_sequences := None;
                params_thinking := None; params_metadata := None;
                params_stream := None |}, heap1).
Proof.
  destruct (constructor_default heap)
    as (this & heap0 & address & Hnew & Hm & Hfresh & Harr & Htools & Hmodel & Htok & Hthis).
  assert (Harray0 : messageArrays heap0 !! address = Some []).
  { by rewrite Harr, lookup_insert_eq. }
  destruct (addMessage_existing Anthropic.user (Anthropic.Text text) this heap0 address []
              Hm Harray0) as (heap1 & Hadd & Harr1 & Htools1).
  destruct (addMessage_existing Anthropic.user (Anthropic.Text text)
              (setSystemPrompt (SystemText systemPrompt) this) heap0 address []
              Hm Harray0) as (heap1' & Hadd' & Harr1' & Htools1').
  assert (heap1' = heap1) as ->.
  { destruct heap1, heap1'. cbn [messageArrays toolArrays] in *. congruence. }
  exists address, heap1.
  assert (Hheap1 : messageArrays heap1 = <[address := [userMessage text]]> (messageArrays heap)).
  { by rewrite Harr1, Harr, insert_insert_eq. }
  destruct DEFAULT_model_name as (c & name & Hname).
  split; [done|]. split; [done|]. split; [congruence|]. split.
  - unfold createSimpleQuery, addUserMessage. rewrite Hnew, Hadd. f_equal.
    erewrite build_ok; [| | | apply DEFAULT_maxTokens_number | |].
    + rewrite <- Hname. rewrite Hthis. reflexivity.
    + cbn [model setSystemPrompt]. congruence.
    + exact Htok.
    + exact Hm.
    + rewrite Hheap1. apply lookup_insert_eq.
  - unfold createSystemQuery, addUserMessage. rewrite Hnew, Hadd'. f_equal.
    erewrite build_ok; [| | | apply DEFAULT_maxTokens_number | |].
    + rewrite <- Hname. rewrite Hthis. reflexivity.
    + cbn [model setSystemPrompt]. congruence.
    + exact Htok.
    + exact Hm.
    + rewrite Hheap1. apply lookup_insert_eq.
Qed.

(** X25. Given earlier messages, [createToolQuery] never throws and does
    not copy them: the user message is pushed onto the caller's own
    array, which the returned parameters point to, as they point to
    the caller's array of tools. *)
Theorem createToolQuery_extends_the_callers_history
    (text : jsstring) (toolsArray address : nat) history
    (options : option (AgentQuery ToolChoice Thinking Metadata)) heap :
  messageArrays heap !! address = Some history ->
  exists params heap1,
    createToolQuery text toolsArray (Some address) options heap = (ok params, heap1)
    /\ params_messages params = address
    /\ params_tools params = Some toolsArray
    /\ messageArrays heap1 !! address = Some (history ++ [userMessage text])
    /\ toolArrays heap1 = toolArrays heap.
Proof.
  intros Hhistory.
  destruct (constructor_default heap)
    as (this & heap0 & own & Hnew & Hm & Hfresh & Harr & Htools & Hmodel & Htok & Hthis).
  assert (Harray0 : messageArrays heap0 !! address = Some history).
  { rewrite Harr, lookup_insert_ne; [done|]. intros ->. congruence. }
  destruct (addMessage_existing Anthropic.user (Anthropic.Text text)
              (setMessages address this) heap0 address history eq_refl Harray0)
    as (heap1 & Hadd & Harr1 & Htools1).
  assert (Hl : messageArrays heap1 !! address = Some (history ++ [userMessage text])).
  { by rewrite Harr1, lookup_insert_eq. }
  destruct DEFAULT_model_name as (c & name & Hname).
  assert (exists m ms, history ++ [@userMessage Input text] = m :: ms) as (m & ms & Hcons).
  { destruct history; cbn; eauto. }
  eexists _, heap1. split.
  - unfold createToolQuery, addUserMessage. rewrite Hnew, Hadd. f_equal.
    eapply (build_ok _ _ c name); [| | apply DEFAULT_maxTokens_number | |].
    + cbn [model setSystemPrompt setTools setMessages]. rewrite Hmodel.
      exact (f_equal Some Hname).
    + exact Htok.
    + reflexivity.
    + rewrite Hl, Hcons. reflexivity.
  - cbn [params_messages params_tools tools setSystemPrompt setTools].
    repeat split; try done. congruence.
Qed.

End QueryBuilderFacts.

Section QueryBuilderExamples.

Import QueryBuilder Notions.

Lemma build_returns_checked_params_witness :
  exists params,
    build Samples.greeting Samples.greeted = ok params
    /\ model Samples.greeting = Some (params_model params)
    /\ params_model params <> []
    /\ maxTokens Samples.greeting = Some (params_max_tokens params)
    /\ noNumber (Some (params_max_tokens params)) = false
    /\ messages Samples.greeting = Some (params_messages params)
    /\ exists m ms,
         messageArrays Samples.greeted !! params_messages params = Some (m :: ms).
Proof.
  eexists. split; [vm_compute; reflexivity|].
  apply (build_returns_checked_params Samples.greeting Samples.greeted).
  vm_compute. reflexivity.
Defined.

Lemma clone_shares_messages_witness :
  exists copy heap1 heap2,
    clone Samples.greeting Samples.greeted = (copy, heap1)
    /\ addMessage Anthropic.assistant (Anthropic.Text (lit "hi")) copy heap1 = (copy, heap2)
    /\ messages copy = Some 0%nat
    /\ messageArrays heap2 !! 0%nat
       = Some ([userMessage (lit "hello")]
               ++ [{| Anthropic.role := Anthropic.assistant;
                      Anthropic.content := Anthropic.Text (lit "hi") |}])
    /\ messageCount Samples.greeting heap2 = 2%nat.
Proof.
  apply (clone_shares_messages Anthropic.assistant (Anthropic.Text (lit "hi"))
           Samples.greeting Samples.greeted 0%nat [userMessage (lit "hello")]).
  - reflexivity.
  - vm_compute. reflexivity.
Defined.

Lemma createToolQuery_extends_the_callers_history_witness :
  exists params heap1,
    createToolQuery (lit "and now?") 0%nat (Some 0%nat)
      (@None (AgentQuery unit unit unit)) Samples.greeted
    = (ok params, heap1)
    /\ params_messages params = 0%nat
    /\ params_tools params = Some 0%nat
    /\ messageArrays heap1 !! 0%nat
       = Some ([userMessage (lit "hello")] ++ [userMessage (lit "and now?")])
    /\ toolArrays heap1 = toolArrays Samples.greeted.
Proof.
  apply (createToolQuery_extends_the_callers_history (lit "and now?") 0%nat 0%nat
           [userMessage (lit "hello")] None Samples.greeted).
  vm_compute. reflexivity.
Defined.
End QueryBuilderExamples.
